(** * ConvertToUTF8: the [convertToUtf8] cloud function

    A shallow embedding of [functions/index.js]: the callable that takes a
    file name and base64 content, detects the source encoding by scoring
    every candidate of a fixed catalog, and returns the text re-encoded as
    UTF-8.

    JavaScript strings are sequences of UTF-16 code units, buffers are
    sequences of bytes; both are lists of integers here.  The function
    logs and throws, so it lives in a small monad that records the
    observable events (each call of [iconv.decode], each log entry) next
    to the outcome (a value or the exception thrown).

    [iconv.decode] (package iconv-lite) and [String.prototype.toUpperCase]
    are taken as parameters of the resolver; [Buffer.from], [toString] and
    [path.parse] are modelled after Node.js.

    The compiled build of the handler, which is the one deployed, and the
    page that calls it (the component [App]) are embedded after the
    handler; [btoa] and [atob] are modelled after the browser. *)

From Stdlib Require Import ZArith String Ascii Bool Lia QArith List Floats Uint63.
Import ListNotations.
Local Open Scope Z_scope.

(** ** Strings and buffers *)

(** A JavaScript string: its UTF-16 code units. *)
Definition jsstring := list Z.

(** A Node.js [Buffer]: its bytes. *)
Definition Buffer := list Z.

(** A string literal of the source, as code units. *)
Definition js (s : string) : jsstring :=
  map (fun a => Z.of_nat (nat_of_ascii a)) (list_ascii_of_string s).

Definition String_length (s : jsstring) : Z := Z.of_nat (length s).

Fixpoint jsstring_eqb (a b : jsstring) : bool :=
  match a, b with
  | [], [] => true
  | x :: a', y :: b' => (x =? y) && jsstring_eqb a' b'
  | _, _ => false
  end.

(** [s.startsWith(p)] *)
Fixpoint startsWith (s p : jsstring) {struct p} : bool :=
  match p, s with
  | [], _ => true
  | y :: p', x :: s' => (x =? y) && startsWith s' p'
  | _ :: _, [] => false
  end.

(** [s.includes(k)]: [k] starts at some index of [s]. *)
Fixpoint includes (s k : jsstring) : bool :=
  startsWith s k ||
  match s with
  | [] => false
  | _ :: s' => includes s' k
  end.

(** [s.endsWith(p)] *)
Definition endsWith (s p : jsstring) : bool :=
  startsWith (rev s) (rev p).

(** [s.match(re)] for a global regular expression made of one character
    class: the matches, or [None] (JavaScript's [null]) when there is none. *)
Definition String_match (class : Z -> bool) (s : jsstring) : option (list jsstring) :=
  match filter class s with
  | [] => None
  | m => Some (map (fun c => [c]) m)
  end.

(** [x || []] *)
Definition or_empty {A} (x : option (list A)) : list A :=
  match x with
  | Some l => l
  | None => []
  end.

(** [s.replace(re, "")] for a global one-class regular expression. *)
Definition String_remove (class : Z -> bool) (s : jsstring) : jsstring :=
  filter (fun c => negb (class c)) s.

(** ** Numbers

    The scores are small integers.  The one quotient of the source,
    [printableChars / decoded.length], is a double: [NaN] for 0/0,
    [Infinity] for a positive numerator over 0, and otherwise the
    quotient, kept exact here (the two operands are string lengths, far
    below 2^53, where rounding to the nearest double cannot move a
    quotient across the double nearest to 0.8). *)
Inductive number :=
| NaN
| Infinity
| Finite (q : Q).

(** [a / b] for two non-negative integers. *)
Definition Number_div (a b : Z) : number :=
  if b =? 0 then (if a =? 0 then NaN else Infinity)
  else Finite (a # Z.to_pos b).

(** [x > q]: every comparison with [NaN] is false. *)
Definition Number_gt (x : number) (q : Q) : bool :=
  match x with
  | NaN => false
  | Infinity => true
  | Finite r => negb (Qle_bool r q)
  end.

(** The same comparison on the doubles themselves, and a check that the
    exact quotient and the double agree for every pair of lengths up to
    a bound. *)
Definition binary64_of (z : Z) : float := PrimFloat.of_uint63 (Uint63.of_Z z).

Definition binary64_ratio_gt (p n : Z) : bool :=
  PrimFloat.ltb 0x1.999999999999ap-1%float
    (PrimFloat.div (binary64_of p) (binary64_of n)).

Definition ratio_agrees_up_to (bound : nat) : bool :=
  forallb (fun n =>
    forallb (fun p =>
      Bool.eqb (binary64_ratio_gt (Z.of_nat p) (Z.of_nat n))
               (Number_gt (Number_div (Z.of_nat p) (Z.of_nat n)) (8 # 10)))
      (seq 0 (S n)))
    (seq 0 (S bound)).

(** ** Outcomes and events *)

Inductive error_code := invalid_argument | internal.

(** What a [throw] carries: an [HttpsError] of firebase-functions, or a
    plain [Error] (the only ones of this function come from iconv-lite). *)
Inductive exn :=
| HttpsError (code : error_code) (message : string)
| Error (message : string).

Definition exn_message (e : exn) : string :=
  match e with
  | HttpsError _ m => m
  | Error m => m
  end.

(** The result of [iconv.decode(buffer, encoding)]. *)
Inductive decode_result :=
| Decoded (text : jsstring)
| Throws (message : string).

(** The payload of the debug entry written for each scored candidate. *)
Record attempt := {
  a_encoding : string;
  a_score : Z;
  a_length : Z;
  a_replacementChars : Z;
  a_sqlKeywords : Z;
  a_printableRatio : number
}.

Inductive info_entry :=
| Starting (filePath : jsstring) (sourceEncoding : string)
| AutoDetectionCompleted (detectedEncoding : string) (confidenceScore totalEncodingsTested : Z)
| EncodingDetection (detectedEncoding : string) (fileSize : Z)
| ConversionCompleted (originalPath convertedPath : jsstring) (sourceEncoding : string)
    (originalSize convertedSize : Z).

Inductive event :=
| iconv_decode_call (buffer : Buffer) (encoding : string)
| loggerService_info (entry : info_entry)
| loggerService_debug (a : attempt)
| loggerService_error (message : string).

(** A computation: what it returned or threw, and the events it produced,
    oldest first.  Events stay when an exception passes. *)
Definition M (A : Type) : Type := (exn + A) * list event.

Definition ret {A} (a : A) : M A := (inr a, []).

Definition throw {A} (e : exn) : M A := (inl e, []).

Definition emit (ev : event) : M unit := (inr tt, [ev]).

Definition bind {A B} (m : M A) (f : A -> M B) : M B :=
  match m with
  | (inl e, t) => (inl e, t)
  | (inr a, t) => let (r, t') := f a in (r, t ++ t')
  end.

(** [try { m } catch (error) { h error }] *)
Definition try_catch {A} (m : M A) (h : exn -> M A) : M A :=
  match m with
  | (inl e, t) => let (r, t') := h e in (r, t ++ t')
  | (inr a, t) => (inr a, t)
  end.

Declare Scope js_scope.
Delimit Scope js_scope with js_m.
Notation "x <- m ;; k" := (bind m (fun x => k))
  (at level 61, m at next level, right associativity) : js_scope.
Notation "m ;; k" := (bind m (fun _ => k))
  (at level 61, right associativity) : js_scope.
Local Open Scope js_scope.

Definition outcome {A} (m : M A) : exn + A := fst m.
Definition events {A} (m : M A) : list event := snd m.

(** The calls of [iconv.decode] among some events, in order. *)
Definition decode_calls (t : list event) : list (Buffer * string) :=
  flat_map (fun ev => match ev with
                      | iconv_decode_call b e => [(b, e)]
                      | _ => []
                      end) t.

(** The candidates scored (one debug entry each) among some events. *)
Definition attempts (t : list event) : list attempt :=
  flat_map (fun ev => match ev with
                      | loggerService_debug a => [a]
                      | _ => []
                      end) t.

(** The messages passed to [loggerService.error]. *)
Definition errors_logged (t : list event) : list string :=
  flat_map (fun ev => match ev with
                      | loggerService_error m => [m]
                      | _ => []
                      end) t.

(** ** Node.js: base64

    [Buffer.from(s, 'base64')] is lenient: characters outside the alphabet
    (white space included) are skipped, the URL-safe [-] and [_] are
    accepted, decoding stops at the first [=], and a last group of two or
    three characters gives one or two bytes. *)
Module Base64.

Definition unbase64 (c : Z) : option Z :=
  if (65 <=? c) && (c <=? 90) then Some (c - 65)
  else if (97 <=? c) && (c <=? 122) then Some (c - 71)
  else if (48 <=? c) && (c <=? 57) then Some (c + 4)
  else if (c =? 43) || (c =? 45) then Some 62
  else if (c =? 47) || (c =? 95) then Some 63
  else None.

(** The six-bit values of the legal characters before the first [=]. *)
Fixpoint sextets (s : jsstring) : list Z :=
  match s with
  | [] => []
  | c :: rest =>
      if c =? 61 then []
      else match unbase64 c with
           | Some v => v :: sextets rest
           | None => sextets rest
           end
  end.

Fixpoint bytes (v : list Z) : Buffer :=
  match v with
  | a :: b :: c :: d :: rest =>
      (a * 4 + b / 16) :: ((b mod 16) * 16 + c / 4) :: ((c mod 4) * 64 + d) :: bytes rest
  | [a; b; c] => [a * 4 + b / 16; (b mod 16) * 16 + c / 4]
  | [a; b] => [a * 4 + b / 16]
  | _ => []
  end.

(** [Buffer.from(s, 'base64')] *)
Definition decode (s : jsstring) : Buffer := bytes (sextets s).

Definition base64_char (v : Z) : Z :=
  if v <? 26 then v + 65
  else if v <? 52 then v + 71
  else if v <? 62 then v - 4
  else if v =? 62 then 43
  else 47.

(** [buffer.toString('base64')] *)
Fixpoint encode (b : Buffer) : jsstring :=
  match b with
  | x :: y :: z :: rest =>
      base64_char (x / 4) :: base64_char ((x mod 4) * 16 + y / 16)
        :: base64_char ((y mod 16) * 4 + z / 64) :: base64_char (z mod 64) :: encode rest
  | [x; y] =>
      [base64_char (x / 4); base64_char ((x mod 4) * 16 + y / 16);
       base64_char ((y mod 16) * 4); 61]
  | [x] => [base64_char (x / 4); base64_char ((x mod 4) * 16); 61; 61]
  | [] => []
  end.

End Base64.

(** ** Node.js: UTF-8

    [Buffer.from(s, 'utf8')] encodes the code points of [s]; a surrogate
    code unit that is not half of a pair is written as U+FFFD.
    [buffer.toString('utf8')] is the decoder of the Encoding Standard: an
    ill-formed sequence gives one U+FFFD per maximal subpart, and a code
    point above U+FFFF gives a surrogate pair. *)
Module Utf8.

Definition is_high_surrogate (c : Z) : bool := (0xD800 <=? c) && (c <=? 0xDBFF).
Definition is_low_surrogate (c : Z) : bool := (0xDC00 <=? c) && (c <=? 0xDFFF).

Definition encode_code_point (cp : Z) : Buffer :=
  if cp <? 0x80 then [cp]
  else if cp <? 0x800 then [0xC0 + cp / 64; 0x80 + cp mod 64]
  else if cp <? 0x10000 then
    [0xE0 + cp / 4096; 0x80 + (cp / 64) mod 64; 0x80 + cp mod 64]
  else
    [0xF0 + cp / 262144; 0x80 + (cp / 4096) mod 64; 0x80 + (cp / 64) mod 64;
     0x80 + cp mod 64].

Definition replacement : Buffer := [0xEF; 0xBF; 0xBD].

(** [Buffer.from(s, 'utf8')] *)
Fixpoint encode (s : jsstring) : Buffer :=
  match s with
  | [] => []
  | c :: rest =>
      if is_high_surrogate c then
        match rest with
        | d :: rest' =>
            if is_low_surrogate d
            then encode_code_point (0x10000 + (c - 0xD800) * 1024 + (d - 0xDC00))
                   ++ encode rest'
            else replacement ++ encode rest
        | [] => replacement
        end
      else if is_low_surrogate c then replacement ++ encode rest
      else encode_code_point c ++ encode rest
  end.

(** The decoder's state: between characters, or inside one, with the
    number of bytes still needed, the bits read so far and the bounds of
    the next byte. *)
Inductive state :=
| Start
| Cont (needed : nat) (code_point lower upper : Z).

Definition code_units (cp : Z) : jsstring :=
  if cp <? 0x10000 then [cp]
  else [0xD800 + (cp - 0x10000) / 1024; 0xDC00 + (cp - 0x10000) mod 1024].

Definition start_byte (b : Z) : jsstring * state :=
  if b <=? 0x7F then ([b], Start)
  else if (0xC2 <=? b) && (b <=? 0xDF) then ([], Cont 1 (b - 0xC0) 0x80 0xBF)
  else if (0xE0 <=? b) && (b <=? 0xEF) then
    ([], Cont 2 (b - 0xE0) (if b =? 0xE0 then 0xA0 else 0x80)
                           (if b =? 0xED then 0x9F else 0xBF))
  else if (0xF0 <=? b) && (b <=? 0xF4) then
    ([], Cont 3 (b - 0xF0) (if b =? 0xF0 then 0x90 else 0x80)
                           (if b =? 0xF4 then 0x8F else 0xBF))
  else ([0xFFFD], Start).

Definition step (s : state) (b : Z) : jsstring * state :=
  match s with
  | Start => start_byte b
  | Cont n cp lo hi =>
      if (lo <=? b) && (b <=? hi) then
        let cp' := cp * 64 + (b - 0x80) in
        match n with
        | S (S n') => ([], Cont (S n') cp' 0x80 0xBF)
        | _ => (code_units cp', Start)
        end
      else
        let (out, s') := start_byte b in (0xFFFD :: out, s')
  end.

Fixpoint run (s : state) (bs : Buffer) : jsstring :=
  match bs with
  | [] => match s with
          | Start => []
          | Cont _ _ _ _ => [0xFFFD]
          end
  | b :: bs' => let (out, s') := step s b in out ++ run s' bs'
  end.

(** [buffer.toString('utf8')] *)
Definition toString (bs : Buffer) : jsstring := run Start bs.

(** No surrogate code unit outside a pair, and every unit in range. *)
Fixpoint well_formed (s : jsstring) : bool :=
  match s with
  | [] => true
  | c :: rest =>
      if is_high_surrogate c then
        match rest with
        | d :: rest' => is_low_surrogate d && well_formed rest'
        | [] => false
        end
      else negb (is_low_surrogate c) && (0 <=? c) && (c <=? 0xFFFF) && well_formed rest
  end.

(** A Unicode scalar value: a code point that is no surrogate. *)
Definition scalar (cp : Z) : Prop :=
  0 <= cp <= 0x10FFFF /\ ~ (0xD800 <= cp <= 0xDFFF).

End Utf8.

(** ** Node.js: [path.parse] (POSIX)

    The scan of [path.parse] from the end of the path: the last component
    starts after the last [/] (trailing ones apart), and its extension
    starts at its last dot, unless that dot is its first character or the
    component is [..]. *)
Module Path.

Record scan := {
  startDot : Z;
  startPart : Z;
  end_ : Z;
  matchedSlash : bool;
  preDotState : Z
}.

Definition CHAR_FORWARD_SLASH : Z := 47.
Definition CHAR_DOT : Z := 46.

(** The loop [for (; i >= start; --i)], on the code units at [i], [i-1],
    ..., [start]. *)
Fixpoint scan_loop (codes : list Z) (i : Z) (st : scan) : scan :=
  match codes with
  | [] => st
  | code :: rest =>
      if code =? CHAR_FORWARD_SLASH then
        if negb (matchedSlash st)
        then {| startDot := startDot st; startPart := i + 1; end_ := end_ st;
                matchedSlash := matchedSlash st; preDotState := preDotState st |}
        else scan_loop rest (i - 1) st
      else
        let st1 :=
          if end_ st =? -1
          then {| startDot := startDot st; startPart := startPart st; end_ := i + 1;
                  matchedSlash := false; preDotState := preDotState st |}
          else st in
        let st2 :=
          if code =? CHAR_DOT then
            if startDot st1 =? -1
            then {| startDot := i; startPart := startPart st1; end_ := end_ st1;
                    matchedSlash := matchedSlash st1; preDotState := preDotState st1 |}
            else if negb (preDotState st1 =? 1)
            then {| startDot := startDot st1; startPart := startPart st1; end_ := end_ st1;
                    matchedSlash := matchedSlash st1; preDotState := 1 |}
            else st1
          else if negb (startDot st1 =? -1)
          then {| startDot := startDot st1; startPart := startPart st1; end_ := end_ st1;
                  matchedSlash := matchedSlash st1; preDotState := -1 |}
          else st1 in
        scan_loop rest (i - 1) st2
  end.

(** [preDotState] after the code units to the left of the last dot, read
    from the right: the last one read decides. *)
Definition pre_dot (codes : list Z) (p : Z) : Z :=
  fold_left (fun _ c => if c =? CHAR_DOT then 1 else -1) codes p.

(** [s.slice(a, b)] for [0 <= a]. *)
Definition slice (s : jsstring) (a b : Z) : jsstring :=
  firstn (Z.to_nat (b - a)) (skipn (Z.to_nat a) s).

Record parsed := {
  base : jsstring;
  name : jsstring;
  ext : jsstring
}.

(** The variables of the scan before the loop. *)
Definition scan_init : scan :=
  {| startDot := -1; startPart := 0; end_ := -1; matchedSlash := true; preDotState := 0 |}.

(** The fields [base], [name] and [ext] of [path.parse(path)]. *)
Definition parse (path : jsstring) : parsed :=
  match path with
  | [] => {| base := []; name := []; ext := [] |}
  | c0 :: _ =>
      let isAbsolute := c0 =? CHAR_FORWARD_SLASH in
      let start := if isAbsolute then 1 else 0 in
      let st := scan_loop (rev (skipn (Z.to_nat start) path)) (String_length path - 1)
                  scan_init in
      if negb (end_ st =? -1) then
        let start' := if (startPart st =? 0) && isAbsolute then 1 else startPart st in
        if (startDot st =? -1) || (preDotState st =? 0) ||
           ((preDotState st =? 1) && (startDot st =? end_ st - 1)
              && (startDot st =? startPart st + 1))
        then {| base := slice path start' (end_ st);
                name := slice path start' (end_ st);
                ext := [] |}
        else {| base := slice path start' (end_ st);
                name := slice path start' (startDot st);
                ext := slice path (startDot st) (end_ st) |}
      else {| base := []; name := []; ext := [] |}
  end.

End Path.

(** ** The request and the response *)

(** [request.data]: each field may be missing. *)
Record request := {
  filePath : option jsstring;
  fileContent : option jsstring;
  sourceEncoding : option string
}.

Record response := {
  success : bool;
  originalPath : jsstring;
  convertedPath : jsstring;
  convertedContent : jsstring;
  response_sourceEncoding : string;
  message : jsstring
}.

(** The generated output path: [`${parsedPath.name}-utf8${parsedPath.ext}`]. *)
Definition outputPath (filePath : jsstring) : jsstring :=
  let parsedPath := Path.parse filePath in
  Path.name parsedPath ++ js "-utf8" ++ Path.ext parsedPath.

(** ** The resolver *)

(** [for (const x of l) body], threading the variables the body assigns. *)
Fixpoint for_of {S A : Type} (l : list A) (body : S -> A -> M S) (s : S) : M S :=
  match l with
  | [] => ret s
  | x :: l' => s' <- body s x ;; for_of l' body s'
  end.

Definition encodingsToTry : list string :=
  ["utf8"; "utf-8";
   "windows-1251"; "cp1251";
   "windows-1252"; "cp1252";
   "iso-8859-1"; "latin1";
   "iso-8859-2"; "latin2";
   "iso-8859-5"; "cyrillic";
   "koi8-r"; "koi8-u";
   "cp866"; "ibm866";
   "cp850"; "ibm850";
   "macintosh"; "mac";
   "utf-16le"; "utf-16be";
   "utf-32le"; "utf-32be";
   "ascii"]%string.

Definition sqlKeywords : list jsstring :=
  map js ["SELECT"; "INSERT"; "UPDATE"; "DELETE"; "CREATE"; "DROP"; "ALTER"; "TABLE";
          "FROM"; "WHERE"]%string.

(** The class of the pattern for U+FFFD. *)
Definition replacement_class (c : Z) : bool := c =? 0xFFFD.

(** The class [\x00-\x1F\x7F-\x9F]. *)
Definition control_class (c : Z) : bool :=
  ((0x00 <=? c) && (c <=? 0x1F)) || ((0x7F <=? c) && (c <=? 0x9F)).

(** The class of [sqlChars]: semicolon, parentheses, comma, single and
    double quote. *)
Definition sqlChars (c : Z) : bool :=
  (c =? 59) || (c =? 40) || (c =? 41) || (c =? 44) || (c =? 39) || (c =? 34).

Section Resolver.

(** [iconv.decode] of iconv-lite, and [String.prototype.toUpperCase]. *)
Variable iconv_decode : Buffer -> string -> decode_result.
Variable toUpperCase : jsstring -> jsstring.

(** A call of [iconv.decode]: it is recorded, and returns or throws. *)
Definition iconv_decode_M (buffer : Buffer) (encoding : string) : M jsstring :=
  emit (iconv_decode_call buffer encoding) ;;
  match iconv_decode buffer encoding with
  | Decoded text => ret text
  | Throws m => throw (Error m)
  end.

Definition replacementCharCount (decoded : jsstring) : Z :=
  Z.of_nat (length (or_empty (String_match replacement_class decoded))).

Definition sqlKeywordCount (decoded : jsstring) : Z :=
  fold_left
    (fun count keyword =>
       count + (if includes (toUpperCase decoded) keyword then 1 else 0))
    sqlKeywords 0.

Definition printableChars (decoded : jsstring) : Z :=
  String_length (String_remove control_class decoded).

Definition printableRatio (decoded : jsstring) : number :=
  Number_div (printableChars decoded) (String_length decoded).

Definition sqlCharCount (decoded : jsstring) : Z :=
  Z.of_nat (length (or_empty (String_match sqlChars decoded))).

(** The score of one decoded candidate, statement by statement. *)
Definition score_of (decoded : jsstring) : Z :=
  let score := 0 in
  let score :=
    if replacementCharCount decoded =? 0 then score + 100
    else score - replacementCharCount decoded * 10 in
  let score := if String_length decoded >? 0 then score + 50 else score in
  let score := score + sqlKeywordCount decoded * 5 in
  let score := if Number_gt (printableRatio decoded) (8 # 10) then score + 30 else score in
  let score := score + Z.min (sqlCharCount decoded) 20 in
  score.

(** What the debug entry of a candidate shows. *)
Definition scored (encoding : string) (decoded : jsstring) : attempt :=
  {| a_encoding := encoding;
     a_score := score_of decoded;
     a_length := String_length decoded;
     a_replacementChars := replacementCharCount decoded;
     a_sqlKeywords := sqlKeywordCount decoded;
     a_printableRatio := printableRatio decoded |}.

(** The body of the detection loop: [best] is the pair of [bestEncoding]
    and [bestScore]; a candidate whose decoding throws leaves it as it is. *)
Definition try_encoding (buffer : Buffer) (best : string * Z) (encoding : string)
  : M (string * Z) :=
  try_catch
    (decoded <- iconv_decode_M buffer encoding ;;
     let score := score_of decoded in
     emit (loggerService_debug (scored encoding decoded)) ;;
     ret (if score >? snd best then (encoding, score) else best))
    (fun _ => ret best).

(** The branch [if (!detectedEncoding)]: the loop over the catalog, from
    [bestEncoding = "utf8"] and [bestScore = 0]. *)
Definition detect (buffer : Buffer) : M (string * Z) :=
  best <- for_of encodingsToTry (try_encoding buffer) ("utf8"%string, 0) ;;
  emit (loggerService_info
          (AutoDetectionCompleted (fst best) (snd best)
             (Z.of_nat (length encodingsToTry)))) ;;
  ret best.

(** The handler passed to [onCall]. *)
Definition convertToUtf8 (data : request) : M response :=
  try_catch
    (match filePath data with
     | None | Some [] => throw (HttpsError invalid_argument "File path is required")
     | Some filePath =>
         match fileContent data with
         | None | Some [] =>
             throw (HttpsError invalid_argument "File content is required")
         | Some fileContent =>
             if negb (endsWith filePath (js ".sql"))
             then throw (HttpsError invalid_argument "File must have .sql extension")
             else
               emit (loggerService_info
                       (Starting filePath
                          (match sourceEncoding data with
                           | Some h => if String.eqb h "" then "auto-detect" else h
                           | None => "auto-detect"
                           end)%string)) ;;
               let buffer := Base64.decode fileContent in
               detectedEncoding <-
                 match sourceEncoding data with
                 | Some h =>
                     if String.eqb h "" then best <- detect buffer ;; ret (fst best)
                     else ret h
                 | None => best <- detect buffer ;; ret (fst best)
                 end ;;
               emit (loggerService_info
                       (EncodingDetection detectedEncoding (Z.of_nat (length buffer)))) ;;
               decodedText <- iconv_decode_M buffer detectedEncoding ;;
               let utf8Buffer := Utf8.encode decodedText in
               let base64Content := Base64.encode utf8Buffer in
               emit (loggerService_info
                       (ConversionCompleted filePath (outputPath filePath) detectedEncoding
                          (Z.of_nat (length buffer)) (Z.of_nat (length utf8Buffer)))) ;;
               ret {| success := true;
                      originalPath := filePath;
                      convertedPath := outputPath filePath;
                      convertedContent := base64Content;
                      response_sourceEncoding := detectedEncoding;
                      message := js "Successfully converted " ++ filePath ++ js " from "
                                   ++ js detectedEncoding ++ js " to UTF-8" |}
         end
     end)
    (fun error =>
       emit (loggerService_error (exn_message error)) ;;
       match error with
       | HttpsError _ _ => throw error
       | Error m =>
           throw (HttpsError internal ("Failed to convert file to UTF-8: " ++ m)%string)
       end).

End Resolver.

(** ** iconv-lite on the catalog

    A model of [iconv.decode] for the names of the catalog, used to run
    the resolver on concrete buffers.  UTF-8 is Node's decoder; UTF-16 and
    UTF-32 read whole groups of two and four bytes and drop a shorter
    rest; UTF-32 writes U+FFFD for a value above U+10FFFF; these decoders
    strip one leading byte-order mark.  The single-byte pages all map the
    bytes below 0x80 to themselves; their upper halves differ and are the
    parameter [high] (page name, byte) of the model.  Any other name is
    not recognized. *)
Module IconvLite.

Definition BOMChar : Z := 0xFEFF.

Definition stripBOM (s : jsstring) : jsstring :=
  match s with
  | c :: rest => if c =? BOMChar then rest else s
  | [] => []
  end.

Fixpoint utf16le (bs : Buffer) : jsstring :=
  match bs with
  | lo :: hi :: rest => (lo + 256 * hi) :: utf16le rest
  | _ => []
  end.

Fixpoint utf16be (bs : Buffer) : jsstring :=
  match bs with
  | hi :: lo :: rest => (lo + 256 * hi) :: utf16be rest
  | _ => []
  end.

Definition badChar : Z := 0xFFFD.

Definition writeCodepoint (codepoint : Z) : jsstring :=
  let codepoint :=
    if (codepoint <? 0) || (codepoint >? 0x10FFFF) then badChar else codepoint in
  if codepoint >=? 0x10000
  then [0xD800 + (codepoint - 0x10000) / 1024; 0xDC00 + (codepoint - 0x10000) mod 1024]
  else [codepoint].

Fixpoint utf32le (bs : Buffer) : jsstring :=
  match bs with
  | b0 :: b1 :: b2 :: b3 :: rest =>
      writeCodepoint (b0 + 256 * b1 + 65536 * b2 + 16777216 * b3) ++ utf32le rest
  | _ => []
  end.

Fixpoint utf32be (bs : Buffer) : jsstring :=
  match bs with
  | b3 :: b2 :: b1 :: b0 :: rest =>
      writeCodepoint (b0 + 256 * b1 + 65536 * b2 + 16777216 * b3) ++ utf32be rest
  | _ => []
  end.

Definition single_byte_pages : list string :=
  ["windows-1251"; "cp1251"; "windows-1252"; "cp1252"; "iso-8859-1"; "latin1";
   "iso-8859-2"; "latin2"; "iso-8859-5"; "cyrillic"; "koi8-r"; "koi8-u";
   "cp866"; "ibm866"; "cp850"; "ibm850"; "macintosh"; "mac"; "ascii"]%string.

Definition is_in (names : list string) (encoding : string) : bool :=
  existsb (String.eqb encoding) names.

Definition decode (high : string -> Z -> Z) (buffer : Buffer) (encoding : string)
  : decode_result :=
  if is_in ["utf8"; "utf-8"]%string encoding
  then Decoded (stripBOM (Utf8.toString buffer))
  else if is_in single_byte_pages encoding
  then Decoded (map (fun b => if b <? 0x80 then b else high encoding b) buffer)
  else if String.eqb encoding "utf-16le" then Decoded (stripBOM (utf16le buffer))
  else if String.eqb encoding "utf-16be" then Decoded (stripBOM (utf16be buffer))
  else if String.eqb encoding "utf-32le" then Decoded (stripBOM (utf32le buffer))
  else if String.eqb encoding "utf-32be" then Decoded (stripBOM (utf32be buffer))
  else Throws ("Encoding not recognized: '" ++ encoding ++ "'")%string.

(** iconv-lite before its version 0.6, which has no UTF-32. *)
Definition decode_without_utf32 (high : string -> Z -> Z) (buffer : Buffer)
    (encoding : string) : decode_result :=
  if is_in ["utf-32le"; "utf-32be"]%string encoding
  then Throws ("Encoding not recognized: '" ++ encoding ++ "'")%string
  else decode high buffer encoding.

(** An upper half for the runs below, whose buffers for the single-byte
    pages hold no byte above 0x7F: that of ISO-8859-1. *)
Definition latin1_high (_ : string) (b : Z) : Z := b.

(** [toUpperCase] on the letters a-z; the other code units of the runs
    below have no upper-case form of their own. *)
Definition ascii_toUpperCase (s : jsstring) : jsstring :=
  map (fun c => if (97 <=? c) && (c <=? 122) then c - 32 else c) s.

(** A codec layer that knows the name [ascii] alone and writes U+FFFD
    for a byte above 0x7F. *)
Definition ascii_only (buffer : Buffer) (encoding : string) : decode_result :=
  if String.eqb encoding "ascii"
  then Decoded (map (fun b => if b <? 0x80 then b else 0xFFFD) buffer)
  else Throws ("Encoding not recognized: '" ++ encoding ++ "'")%string.

End IconvLite.

(** ** The loop as a fold

    The events of the detection loop do not depend on the best candidate
    so far, and the best candidate is a left fold of [select] over the
    catalog. *)
Section Pure_view.

Variable iconv_decode : Buffer -> string -> decode_result.
Variable toUpperCase : jsstring -> jsstring.
Variable buffer : Buffer.

(** The assignment at the end of the loop body. *)
Definition select (best : string * Z) (encoding : string) : string * Z :=
  match iconv_decode buffer encoding with
  | Decoded decoded =>
      if score_of toUpperCase decoded >? snd best
      then (encoding, score_of toUpperCase decoded)
      else best
  | Throws _ => best
  end.

Definition candidate_events (encoding : string) : list event :=
  iconv_decode_call buffer encoding ::
  match iconv_decode buffer encoding with
  | Decoded decoded => [loggerService_debug (scored toUpperCase encoding decoded)]
  | Throws _ => []
  end.

(** [bestEncoding] and [bestScore] when the loop ends. *)
Definition best_of : string * Z := fold_left select encodingsToTry ("utf8"%string, 0).

End Pure_view.

(** The object returned for a file decoded as [decodedText]. *)
Definition response_of (path : jsstring) (encoding : string) (decodedText : jsstring)
  : response :=
  {| success := true;
     originalPath := path;
     convertedPath := outputPath path;
     convertedContent := Base64.encode (Utf8.encode decodedText);
     response_sourceEncoding := encoding;
     message := js "Successfully converted " ++ path ++ js " from "
                  ++ js encoding ++ js " to UTF-8" |}.

(** The end of the handler, from the final [iconv.decode] on: the events
    and the outcome, the [catch] of the handler included. *)
Definition finish (iconv_decode : Buffer -> string -> decode_result)
    (path : jsstring) (buffer : Buffer) (encoding : string) : M response :=
  match iconv_decode buffer encoding with
  | Decoded decodedText =>
      (inr (response_of path encoding decodedText),
       [loggerService_info (EncodingDetection encoding (Z.of_nat (length buffer)));
        iconv_decode_call buffer encoding;
        loggerService_info
          (ConversionCompleted path (outputPath path) encoding
             (Z.of_nat (length buffer))
             (Z.of_nat (length (Utf8.encode decodedText))))])
  | Throws m =>
      (inl (HttpsError internal ("Failed to convert file to UTF-8: " ++ m)%string),
       [loggerService_info (EncodingDetection encoding (Z.of_nat (length buffer)));
        iconv_decode_call buffer encoding;
        loggerService_error m])
  end.

(** ** The words of the specification *)

(** [k] is a substring of [s]. *)
Definition occurs (k s : jsstring) : Prop := exists pre post, s = pre ++ k ++ post.


(** The number of occurrences of a character. *)
Definition occurrences (c : Z) (s : jsstring) : Z := Z.of_nat (count_occ Z.eq_dec s c).

(** A character outside the ranges 0x00-0x1F and 0x7F-0x9F. *)
Definition printable (c : Z) : bool :=
  negb ((0x00 <=? c) && (c <=? 0x1F)) && negb ((0x7F <=? c) && (c <=? 0x9F)).

(** The request passes the three checks of the handler. *)
Definition accepted (data : request) (path content : jsstring) : Prop :=
  filePath data = Some path /\ fileContent data = Some content /\
  path <> [] /\ content <> [] /\ endsWith path (js ".sql") = true.

(** [!x] for an optional string field. *)
Definition missing (x : option jsstring) : Prop := x = None \/ x = Some [].

Definition no_hint (data : request) : Prop :=
  sourceEncoding data = None \/ sourceEncoding data = Some ""%string.

(** A byte below 0x80: UTF-8 and every single-byte page of the catalog
    read it as the same character, so it is not ambiguous. *)
Definition unambiguous (b : Z) : Prop := 0 <= b < 0x80.

(** The control characters that are white space: tab, line feed,
    vertical tab, form feed and carriage return. *)
Definition whitespace_control (b : Z) : Prop := 9 <= b <= 13.

(** No control character outside white space. *)
Definition no_stray_control (b : Z) : Prop :=
  control_class b = true -> whitespace_control b.

(** ** Bytes, code units and well-formed strings *)

(** A byte, and a UTF-16 code unit. *)
Definition is_byte (b : Z) : Prop := 0 <= b <= 255.
Definition is_code_unit (c : Z) : Prop := 0 <= c <= 0xFFFF.

(** [s.toWellFormed()]: every surrogate outside a pair becomes U+FFFD. *)
Fixpoint String_toWellFormed (s : jsstring) : jsstring :=
  match s with
  | [] => []
  | c :: rest =>
      if Utf8.is_high_surrogate c then
        match rest with
        | d :: rest' =>
            if Utf8.is_low_surrogate d then c :: d :: String_toWellFormed rest'
            else 0xFFFD :: String_toWellFormed rest
        | [] => [0xFFFD]
        end
      else if Utf8.is_low_surrogate c then 0xFFFD :: String_toWellFormed rest
      else c :: String_toWellFormed rest
  end.

(** ** The compiled build of the handler

    The second half of [functions/index.js] is the build of
    [functions/covert-to-utf8], the module that [src/index.ts] exports.
    It is the handler above with three differences: the request names the
    file [fileName], the answer has [originalFileName] and
    [convertedFileName], and the first log entry carries the length of
    the content.  The detection, the scoring and the conversion are the
    same statements, and are the same definitions here. *)
Module Compiled.

Record request := {
  fileName : option jsstring;
  fileContent : option jsstring;
  sourceEncoding : option string
}.

Record response := {
  success : bool;
  originalFileName : jsstring;
  convertedFileName : jsstring;
  convertedContent : jsstring;
  response_sourceEncoding : string;
  message : jsstring
}.

(** What this build logs and calls: its own first entry, and the events
    of the source handler. *)
Inductive logged :=
| Starting (fileName : jsstring) (sourceEncoding : string) (contentLength : Z)
| same (ev : event).

(** A computation of the source handler, run here. *)
Definition lift {A} (m : M A) : (exn + A) * list logged :=
  (fst m, map same (snd m)).

Definition M (A : Type) : Type := (exn + A) * list logged.

Definition ret {A} (a : A) : M A := (inr a, []).

Definition throw {A} (e : exn) : M A := (inl e, []).

Definition emit (ev : logged) : M unit := (inr tt, [ev]).

Definition bind {A B} (m : M A) (f : A -> M B) : M B :=
  match m with
  | (inl e, t) => (inl e, t)
  | (inr a, t) => let (r, t') := f a in (r, t ++ t')
  end.

Definition try_catch {A} (m : M A) (h : exn -> M A) : M A :=
  match m with
  | (inl e, t) => let (r, t') := h e in (r, t ++ t')
  | (inr a, t) => (inr a, t)
  end.

Declare Scope compiled_scope.
Delimit Scope compiled_scope with compiled.
Notation "x <- m ;; k" := (bind m (fun x => k))
  (at level 61, m at next level, right associativity) : compiled_scope.
Notation "m ;; k" := (bind m (fun _ => k))
  (at level 61, right associativity) : compiled_scope.

Section Resolver.

Variable iconv_decode : Buffer -> string -> decode_result.
Variable toUpperCase : jsstring -> jsstring.

Local Open Scope compiled_scope.

(** The handler passed to [onCall]. *)
Definition convertToUtf8 (data : request) : M response :=
  try_catch
    (match fileName data with
     | None | Some [] => throw (HttpsError invalid_argument "File name is required")
     | Some fileName =>
         match fileContent data with
         | None | Some [] =>
             throw (HttpsError invalid_argument "File content is required")
         | Some fileContent =>
             if negb (endsWith fileName (js ".sql"))
             then throw (HttpsError invalid_argument "File must have .sql extension")
             else
               emit (Starting fileName
                       (match sourceEncoding data with
                        | Some h => if String.eqb h "" then "auto-detect" else h
                        | None => "auto-detect"
                        end)%string
                       (String_length fileContent)) ;;
               let convertedFileName := outputPath fileName in
               let buffer := Base64.decode fileContent in
               detectedEncoding <-
                 match sourceEncoding data with
                 | Some h =>
                     if String.eqb h ""
                     then best <- lift (detect iconv_decode toUpperCase buffer) ;;
                          ret (fst best)
                     else ret h
                 | None =>
                     best <- lift (detect iconv_decode toUpperCase buffer) ;;
                     ret (fst best)
                 end ;;
               emit (same (loggerService_info
                             (EncodingDetection detectedEncoding
                                (Z.of_nat (length buffer))))) ;;
               decodedText <- lift (iconv_decode_M iconv_decode buffer detectedEncoding) ;;
               let utf8Buffer := Utf8.encode decodedText in
               let convertedContent := Base64.encode utf8Buffer in
               emit (same (loggerService_info
                             (ConversionCompleted fileName convertedFileName
                                detectedEncoding
                                (Z.of_nat (length buffer))
                                (Z.of_nat (length utf8Buffer))))) ;;
               ret {| success := true;
                      originalFileName := fileName;
                      convertedFileName := convertedFileName;
                      convertedContent := convertedContent;
                      response_sourceEncoding := detectedEncoding;
                      message := js "Successfully converted " ++ fileName ++ js " from "
                                   ++ js detectedEncoding ++ js " to UTF-8" |}
         end
     end)
    (fun error =>
       emit (same (loggerService_error (exn_message error))) ;;
       match error with
       | HttpsError _ _ => throw error
       | Error m =>
           throw (HttpsError internal ("Failed to convert file to UTF-8: " ++ m)%string)
       end).

End Resolver.

End Compiled.

(** The request of the compiled build, read by the source handler; an
    answer of the source handler, as the compiled build returns it; and
    an event of the compiled build without the length of the content. *)
Definition as_source (data : Compiled.request) : request :=
  {| filePath := Compiled.fileName data;
     fileContent := Compiled.fileContent data;
     sourceEncoding := Compiled.sourceEncoding data |}.

Definition as_compiled (r : response) : Compiled.response :=
  {| Compiled.success := success r;
     Compiled.originalFileName := originalPath r;
     Compiled.convertedFileName := convertedPath r;
     Compiled.convertedContent := convertedContent r;
     Compiled.response_sourceEncoding := response_sourceEncoding r;
     Compiled.message := message r |}.

Definition as_source_event (ev : Compiled.logged) : event :=
  match ev with
  | Compiled.Starting fileName sourceEncoding _ =>
      loggerService_info (Starting fileName sourceEncoding)
  | Compiled.same ev => ev
  end.

(** ** The browser: strings and base64

    [String.fromCharCode] makes a string of the code units given, each
    taken modulo 2^16.  [btoa] gives the base64 form of a string of code
    units below 256, and throws on any other string.  [atob] is the
    forgiving-base64 decoder of the Infra Standard: ASCII white space is
    dropped; one or two [=] at the end of a string whose length is a
    multiple of 4 are dropped; a string that then has a length of 1
    modulo 4, or a character outside the alphabet, is an error; a last
    group of two or three characters gives one or two bytes. *)
Module Browser.

Definition String_fromCharCode (codes : list Z) : jsstring :=
  map (fun c => c mod 65536) codes.

(** [None]: an [InvalidCharacterError] is thrown. *)
Definition btoa (s : jsstring) : option jsstring :=
  if forallb (fun c => c <=? 255) s then Some (Base64.encode s) else None.

Definition is_ascii_whitespace (c : Z) : bool :=
  (c =? 9) || (c =? 10) || (c =? 12) || (c =? 13) || (c =? 32).

Definition value (c : Z) : option Z :=
  if (65 <=? c) && (c <=? 90) then Some (c - 65)
  else if (97 <=? c) && (c <=? 122) then Some (c - 71)
  else if (48 <=? c) && (c <=? 57) then Some (c + 4)
  else if c =? 43 then Some 62
  else if c =? 47 then Some 63
  else None.

Fixpoint values (s : jsstring) : option (list Z) :=
  match s with
  | [] => Some []
  | c :: rest =>
      match value c, values rest with
      | Some v, Some vs => Some (v :: vs)
      | _, _ => None
      end
  end.

Definition remove_padding (data : jsstring) : jsstring :=
  if Z.of_nat (length data) mod 4 =? 0 then
    match rev data with
    | c1 :: c2 :: r =>
        if (c1 =? 61) && (c2 =? 61) then rev r
        else if c1 =? 61 then rev (c2 :: r)
        else data
    | _ => data
    end
  else data.

(** [None]: an [InvalidCharacterError] is thrown. *)
Definition atob (data : jsstring) : option jsstring :=
  let data := filter (fun c => negb (is_ascii_whitespace c)) data in
  let data := remove_padding data in
  if Z.of_nat (length data) mod 4 =? 1 then None
  else match values data with
       | Some v => Some (Base64.bytes v)
       | None => None
       end.

End Browser.

(** ** The client

    The component [App]: its state is the five values of [useState]; each
    handler is a function on the state.  [convertFile] is asynchronous:
    it is read in two steps, up to its first [await] and from the moment
    what it awaits has settled; other handlers may run in between. *)
Module App.

(** A [File]: its name, and the bytes its [arrayBuffer()] resolves to. *)
Record File := {
  name : jsstring;
  arrayBuffer : list Byte.byte
}.

(** [new Uint8Array(arrayBuffer)], element by element. *)
Definition Uint8Array (b : list Byte.byte) : list Z :=
  map (fun x => Z.of_N (Byte.to_N x)) b.

Record state := {
  file : option File;
  isConverting : bool;
  result : option Compiled.response;
  error : option string;
  isDragOver : bool
}.

Definition initial : state :=
  {| file := None; isConverting := false; result := None; error := None;
     isDragOver := false |}.

Definition setFile (v : option File) (s : state) : state :=
  {| file := v; isConverting := isConverting s; result := result s; error := error s;
     isDragOver := isDragOver s |}.

Definition setIsConverting (v : bool) (s : state) : state :=
  {| file := file s; isConverting := v; result := result s; error := error s;
     isDragOver := isDragOver s |}.

Definition setResult (v : option Compiled.response) (s : state) : state :=
  {| file := file s; isConverting := isConverting s; result := v; error := error s;
     isDragOver := isDragOver s |}.

Definition setError (v : option string) (s : state) : state :=
  {| file := file s; isConverting := isConverting s; result := result s; error := v;
     isDragOver := isDragOver s |}.

Definition setIsDragOver (v : bool) (s : state) : state :=
  {| file := file s; isConverting := isConverting s; result := result s; error := error s;
     isDragOver := v |}.

Definition handleFileSelect (selectedFile : File) (s : state) : state :=
  if endsWith (name selectedFile) (js ".sql")
  then setResult None (setError None (setFile (Some selectedFile) s))
  else setError (Some "Please select a .sql file"%string) s.

Definition handleDragOver (s : state) : state := setIsDragOver true s.

Definition handleDragLeave (s : state) : state := setIsDragOver false s.

(** [files]: [e.dataTransfer.files]. *)
Definition handleDrop (files : list File) (s : state) : state :=
  let s := setIsDragOver false s in
  match files with
  | droppedFile :: _ => handleFileSelect droppedFile s
  | [] => s
  end.

(** [files]: [e.target.files], which may be [null]. *)
Definition handleFileInput (files : option (list File)) (s : state) : state :=
  match files with
  | Some (selectedFile :: _) => handleFileSelect selectedFile s
  | _ => s
  end.

(** The button [Choose different file]. *)
Definition chooseDifferentFile (s : state) : state := setFile None s.

(** What a [catch] receives: an instance of [Error] with its message, or
    any other value. *)
Inductive thrown :=
| an_Error (message : string)
| another_value.

Section Conversion.

(** The engine: the number of arguments it accepts in one call, beyond
    which a spread throws a [RangeError], and the messages of the errors
    it throws. *)
Variable max_arguments : nat.
Variable RangeError_message : string.
Variable InvalidCharacterError_message : string.

(** [httpsCallable(functions, 'convertToUtf8')], awaited: the [data] of
    the response, or what the call rejects with. *)
Variable callable : Compiled.request -> thrown + Compiled.response.

(** [String.fromCharCode(...bytes)] *)
Definition spread_fromCharCode (bytes : list Z) : thrown + jsstring :=
  if (length bytes <=? max_arguments)%nat
  then inr (Browser.String_fromCharCode bytes)
  else inl (an_Error RangeError_message).

(** [btoa(String.fromCharCode(...new Uint8Array(arrayBuffer)))] *)
Definition base64Content (f : File) : thrown + jsstring :=
  match spread_fromCharCode (Uint8Array (arrayBuffer f)) with
  | inl e => inl e
  | inr s =>
      match Browser.btoa s with
      | Some b => inr b
      | None => inl (an_Error InvalidCharacterError_message)
      end
  end.

(** The object passed to the callable. *)
Definition payload (f : File) (base64Content : jsstring) : Compiled.request :=
  {| Compiled.fileName := Some (name f);
     Compiled.fileContent := Some base64Content;
     Compiled.sourceEncoding := None |}.

(** The body of the [try] of [convertFile] for the file [f]: the data of
    the response, or what is thrown. *)
Definition conversion (f : File) : thrown + Compiled.response :=
  match base64Content f with
  | inl e => inl e
  | inr base64Content => callable (payload f base64Content)
  end.

(** [convertFile], up to its first [await]. *)
Definition convertFile_starts (s : state) : state :=
  match file s with
  | None => s
  | Some _ => setResult None (setError None (setIsConverting true s))
  end.

(** [convertFile], from the moment the body of its [try] has settled. *)
Definition convertFile_settles (settled : thrown + Compiled.response) (s : state)
  : state :=
  setIsConverting false
    (match settled with
     | inr data => setResult (Some data) s
     | inl (an_Error message) => setError (Some message) s
     | inl another_value => setError (Some "Conversion failed"%string) s
     end).

(** What a click on [Download Converted File] hands to the browser. *)
Record download := {
  download_name : jsstring;
  blob : list Z
}.

Definition downloadConvertedFile (s : state) : state * option download :=
  match result s with
  | None => (s, None)
  | Some result =>
      match Compiled.convertedContent result with
      | [] => (s, None)
      | _ :: _ =>
          match Browser.atob (Compiled.convertedContent result) with
          | Some binaryString =>
              (s, Some {| download_name := Compiled.convertedFileName result;
                          blob := map (fun c => c mod 256) binaryString |})
          | None => (setError (Some "Failed to download converted file"%string) s, None)
          end
      end
  end.

(** The component and the conversion in flight, if any. *)
Record app := {
  ui : state;
  pending : option File
}.

Inductive action :=
| FileInput (files : option (list File))
| DragOver
| DragLeave
| Drop (files : list File)
| ChooseDifferentFile
| ConvertClick
| Settle
| DownloadClick.

(** One event of the page.  The button [Convert to UTF-8] is rendered
    when a file is held and is disabled while [isConverting]. *)
Definition step (a : app) (act : action) : app :=
  match act with
  | FileInput files => {| ui := handleFileInput files (ui a); pending := pending a |}
  | DragOver => {| ui := handleDragOver (ui a); pending := pending a |}
  | DragLeave => {| ui := handleDragLeave (ui a); pending := pending a |}
  | Drop files => {| ui := handleDrop files (ui a); pending := pending a |}
  | ChooseDifferentFile => {| ui := chooseDifferentFile (ui a); pending := pending a |}
  | ConvertClick =>
      match file (ui a) with
      | Some f =>
          if isConverting (ui a) then a
          else {| ui := convertFile_starts (ui a); pending := Some f |}
      | None => a
      end
  | Settle =>
      match pending a with
      | Some f => {| ui := convertFile_settles (conversion f) (ui a); pending := None |}
      | None => a
      end
  | DownloadClick => {| ui := fst (downloadConvertedFile (ui a)); pending := pending a |}
  end.

Definition run (acts : list action) : app :=
  fold_left step acts {| ui := initial; pending := None |}.

End Conversion.

(** The callable, served by the compiled build of the handler: an
    [HttpsError] reaches the client as an [Error] with its message. *)
Definition served (iconv_decode : Buffer -> string -> decode_result)
    (toUpperCase : jsstring -> jsstring) (data : Compiled.request)
  : thrown + Compiled.response :=
  match fst (Compiled.convertToUtf8 iconv_decode toUpperCase data) with
  | inl e => inl (an_Error (exn_message e))
  | inr r => inr r
  end.

End App.

(** * Properties *)

(** ** The monad *)

Lemma events_app_decode_calls (t u : list event) :
  decode_calls (t ++ u) = decode_calls t ++ decode_calls u.
Proof. unfold decode_calls. now rewrite flat_map_app. Qed.

Lemma events_app_attempts (t u : list event) :
  attempts (t ++ u) = attempts t ++ attempts u.
Proof. unfold attempts. now rewrite flat_map_app. Qed.

Lemma events_app_errors (t u : list event) :
  errors_logged (t ++ u) = errors_logged t ++ errors_logged u.
Proof. unfold errors_logged. now rewrite flat_map_app. Qed.

(** ** The detection loop *)

Section Loop_facts.

Variable iconv_decode : Buffer -> string -> decode_result.
Variable toUpperCase : jsstring -> jsstring.
Variable buffer : Buffer.

Local Abbreviation score := (score_of toUpperCase).
Local Abbreviation sel := (select iconv_decode toUpperCase buffer).
Local Abbreviation cand := (candidate_events iconv_decode toUpperCase buffer).

Lemma try_encoding_select (best : string * Z) (e : string) :
  try_encoding iconv_decode toUpperCase buffer best e = (inr (sel best e), cand e).
Proof.
  unfold try_encoding, iconv_decode_M, select, candidate_events.
  destruct (iconv_decode buffer e) as [d | m]; reflexivity.
Qed.

Lemma for_of_fold (l : list string) (s : string * Z) :
  for_of l (try_encoding iconv_decode toUpperCase buffer) s
  = (inr (fold_left sel l s), flat_map cand l).
Proof.
  revert s. induction l as [| e l IH]; intros s; [reflexivity |].
  cbn [for_of fold_left flat_map]. rewrite try_encoding_select.
  unfold bind. rewrite IH. reflexivity.
Qed.

Lemma detect_fold :
  detect iconv_decode toUpperCase buffer
  = (inr (best_of iconv_decode toUpperCase buffer),
     flat_map cand encodingsToTry
       ++ [loggerService_info
             (AutoDetectionCompleted (fst (best_of iconv_decode toUpperCase buffer))
                (snd (best_of iconv_decode toUpperCase buffer))
                (Z.of_nat (length encodingsToTry)))]).
Proof.
  unfold detect, best_of. rewrite for_of_fold.
  unfold bind, emit, ret. cbn beta iota zeta. cbn [app]. reflexivity.
Qed.

Lemma select_cases (best : string * Z) (e : string) :
  (sel best e = best /\
   forall d, iconv_decode buffer e = Decoded d -> score d <= snd best)
  \/ (exists d, iconv_decode buffer e = Decoded d /\ snd best < score d
                /\ sel best e = (e, score d)).
Proof.
  unfold select. destruct (iconv_decode buffer e) as [d | m].
  - destruct (Z.gtb_spec (score d) (snd best)) as [Hgt | Hle].
    + right. exists d. repeat split; [lia].
    + left. split; [reflexivity |]. intros d' Hd. injection Hd as <-. lia.
  - left. split; [reflexivity | discriminate].
Qed.

(** [bestScore] never decreases. *)
Lemma fold_score_mono (l : list string) (s : string * Z) :
  snd s <= snd (fold_left sel l s).
Proof.
  revert s. induction l as [| e l IH]; intros s; cbn [fold_left]; [lia |].
  specialize (IH (sel s e)).
  destruct (select_cases s e) as [[Heq _] | (d & _ & Hlt & Heq)];
    rewrite Heq in *; cbn [snd] in *; lia.
Qed.

(** The final best is the initial one, or a candidate decoded without
    error whose score is strictly above the initial score. *)
Lemma fold_origin (l : list string) (s : string * Z) :
  fold_left sel l s = s
  \/ exists d, In (fst (fold_left sel l s)) l
               /\ iconv_decode buffer (fst (fold_left sel l s)) = Decoded d
               /\ score d = snd (fold_left sel l s)
               /\ snd s < score d.
Proof.
  revert s. induction l as [| e l IH]; intros s; cbn [fold_left]; [now left |].
  destruct (IH (sel s e)) as [Hsame | (d & Hin & Hd & Hsc & Hlt)].
  - rewrite Hsame.
    destruct (select_cases s e) as [[Heq _] | (d & Hd & Hlt & Heq)].
    + left. exact Heq.
    + right. exists d. rewrite Heq. cbn [fst snd]. auto with datatypes.
  - right. exists d. repeat split; auto with datatypes.
    destruct (select_cases s e) as [[Heq _] | (d' & _ & Hlt' & Heq)];
      rewrite Heq in Hlt; cbn [snd] in Hlt; lia.
Qed.

(** No decoded candidate scores above the final best score. *)
Lemma fold_upper (l : list string) (s : string * Z) (e : string) (d : jsstring) :
  In e l -> iconv_decode buffer e = Decoded d -> score d <= snd (fold_left sel l s).
Proof.
  revert s. induction l as [| e' l IH]; intros s Hin Hd; [destruct Hin |].
  cbn [fold_left]. destruct Hin as [-> | Hin]; [| now apply IH].
  pose proof (fold_score_mono l (sel s e)) as Hmono.
  destruct (select_cases s e) as [[Heq Hle] | (d' & Hd' & _ & Heq)].
  - specialize (Hle d Hd). rewrite Heq in *. lia.
  - rewrite Hd in Hd'. injection Hd' as <-. rewrite Heq in *. cbn [snd] in Hmono. lia.
Qed.

(** Candidates that do not beat the current best leave it. *)
Lemma fold_none (l : list string) (s : string * Z) :
  (forall e d, In e l -> iconv_decode buffer e = Decoded d -> score d <= snd s) ->
  fold_left sel l s = s.
Proof.
  revert s. induction l as [| e l IH]; intros s H; [reflexivity |].
  cbn [fold_left].
  destruct (select_cases s e) as [[Heq _] | (d & Hd & Hlt & _)].
  - rewrite Heq. apply IH. intros e' d' Hin. apply H. now right.
  - specialize (H e d (or_introl eq_refl) Hd). lia.
Qed.

(** The first candidate that reaches the highest score is the final best. *)
Lemma fold_first_max (pre post : list string) (s : string * Z) (e : string) (d : jsstring) :
  iconv_decode buffer e = Decoded d ->
  snd s < score d ->
  (forall e' d', In e' pre -> iconv_decode buffer e' = Decoded d' -> score d' < score d) ->
  (forall e' d', In e' post -> iconv_decode buffer e' = Decoded d' -> score d' <= score d) ->
  fold_left sel (pre ++ e :: post) s = (e, score d).
Proof.
  intros Hd Hs Hpre Hpost. rewrite fold_left_app. cbn [fold_left].
  assert (Hbefore : snd (fold_left sel pre s) < score d).
  { destruct (fold_origin pre s) as [-> | (d' & Hin & Hd' & Hsc & _)]; [exact Hs |].
    rewrite <- Hsc. eapply Hpre; eassumption. }
  destruct (select_cases (fold_left sel pre s) e) as [[_ Hle] | (d' & Hd' & _ & Heq)].
  - specialize (Hle d Hd). lia.
  - rewrite Hd in Hd'. injection Hd' as <-. rewrite Heq.
    apply fold_none. intros e' d' Hin Hd'. cbn [snd]. eapply Hpost; eassumption.
Qed.

(** A candidate that ties with an earlier one is not the final best,
    unless it was the best before the loop. *)
Lemma fold_tie_later (pre mid post : list string) (s : string * Z) (e1 e2 : string)
      (d1 d2 : jsstring) :
  iconv_decode buffer e1 = Decoded d1 ->
  iconv_decode buffer e2 = Decoded d2 ->
  score d1 = score d2 ->
  ~ In e2 (pre ++ e1 :: mid) -> ~ In e2 post -> fst s <> e2 ->
  fst (fold_left sel (pre ++ e1 :: mid ++ e2 :: post) s) <> e2.
Proof.
  intros Hd1 Hd2 Htie Hnot1 Hnot2 Hs.
  replace (pre ++ e1 :: mid ++ e2 :: post) with ((pre ++ e1 :: mid) ++ e2 :: post)
    by (rewrite <- app_assoc; reflexivity).
  rewrite fold_left_app. cbn [fold_left].
  set (b := fold_left sel (pre ++ e1 :: mid) s).
  assert (Hb1 : fst b <> e2).
  { subst b. destruct (fold_origin (pre ++ e1 :: mid) s) as [-> | (d & Hin & _)];
      [exact Hs |]. intros Heq. apply Hnot1. now rewrite <- Heq. }
  assert (Hb2 : score d1 <= snd b).
  { subst b. apply fold_upper with (e := e1); [| exact Hd1].
    apply in_or_app. right. now left. }
  destruct (select_cases b e2) as [[Heq _] | (d & Hd & Hlt & _)].
  - rewrite Heq.
    destruct (fold_origin post b) as [-> | (d & Hin & _)]; [exact Hb1 |].
    intros Habs. apply Hnot2. now rewrite <- Habs.
  - rewrite Hd2 in Hd. injection Hd as <-. lia.
Qed.

Lemma attempts_candidates (l : list string) :
  attempts (flat_map cand l)
  = flat_map (fun e => match iconv_decode buffer e with
                       | Decoded d => [scored toUpperCase e d]
                       | Throws _ => []
                       end) l.
Proof.
  induction l as [| e l IH]; [reflexivity |].
  cbn [flat_map]. rewrite events_app_attempts, IH. f_equal.
  unfold candidate_events. destruct (iconv_decode buffer e); reflexivity.
Qed.

Lemma decode_calls_candidates (l : list string) :
  decode_calls (flat_map cand l) = map (fun e => (buffer, e)) l.
Proof.
  induction l as [| e l IH]; [reflexivity |].
  cbn [flat_map map]. rewrite events_app_decode_calls, IH.
  unfold candidate_events. destruct (iconv_decode buffer e); reflexivity.
Qed.

Lemma errors_candidates (l : list string) : errors_logged (flat_map cand l) = [].
Proof.
  induction l as [| e l IH]; [reflexivity |].
  cbn [flat_map]. rewrite events_app_errors, IH.
  unfold candidate_events. destruct (iconv_decode buffer e); reflexivity.
Qed.

End Loop_facts.

(** ** Strings *)

Lemma startsWith_prefix (s p : jsstring) :
  startsWith s p = true <-> exists post, s = p ++ post.
Proof.
  revert s. induction p as [| y p IH]; intros s; cbn [startsWith].
  - split; [intros _; now exists s | reflexivity].
  - destruct s as [| x s].
    + split; [discriminate | intros [post H]; discriminate H].
    + rewrite andb_true_iff, Z.eqb_eq, IH. split.
      * intros [-> [post ->]]. now exists post.
      * intros [post H]. injection H as -> ->. split; [reflexivity | now exists post].
Qed.

(** [includes] decides the substring relation. *)
Lemma includes_occurs (s k : jsstring) : includes s k = true <-> occurs k s.
Proof.
  unfold occurs. induction s as [| x s IH].
  - cbn [includes]. rewrite orb_false_r, startsWith_prefix. split.
    + intros [post H]. now exists [], post.
    + intros (pre & post & H). destruct pre; [now exists post |].
      discriminate H.
  - cbn [includes]. rewrite orb_true_iff, startsWith_prefix, IH. split.
    + intros [[post H] | (pre & post & H)].
      * now exists [], post.
      * exists (x :: pre), post. now rewrite H.
    + intros (pre & post & H). destruct pre as [| y pre].
      * left. now exists post.
      * right. injection H as _ H. now exists pre, post.
Qed.

Lemma String_match_length (class : Z -> bool) (s : jsstring) :
  length (or_empty (String_match class s)) = length (filter class s).
Proof.
  unfold String_match. destruct (filter class s); [reflexivity |].
  cbn [or_empty]. now rewrite length_map.
Qed.

Lemma filter_eqb_count (x : Z) (s : jsstring) :
  Z.of_nat (length (filter (fun c => c =? x) s)) = occurrences x s.
Proof.
  unfold occurrences. induction s as [| c s IH]; [reflexivity |].
  cbn [filter count_occ]. destruct (Z.eqb_spec c x) as [-> | Hne].
  - destruct (Z.eq_dec x x) as [_ | []]; [| reflexivity]. cbn [length]. lia.
  - destruct (Z.eq_dec c x) as [-> | _]; [now destruct Hne | exact IH].
Qed.

Lemma replacementCharCount_occurrences (decoded : jsstring) :
  replacementCharCount decoded = occurrences 0xFFFD decoded.
Proof.
  unfold replacementCharCount. rewrite String_match_length.
  apply (filter_eqb_count 0xFFFD).
Qed.

Lemma sqlCharCount_occurrences (decoded : jsstring) :
  sqlCharCount decoded
  = occurrences 59 decoded + occurrences 40 decoded + occurrences 41 decoded
    + occurrences 44 decoded + occurrences 39 decoded + occurrences 34 decoded.
Proof.
  unfold sqlCharCount. rewrite String_match_length.
  unfold occurrences. induction decoded as [| c s IH]; [reflexivity |].
  cbn [filter count_occ]. unfold sqlChars at 1.
  repeat match goal with
         | |- context [Z.eq_dec ?a ?b] => destruct (Z.eq_dec a b); subst
         end;
    cbn [orb Z.eqb Pos.eqb length] in *; try lia;
    repeat match goal with
           | H : ?a <> ?b |- context [?a =? ?b] =>
               rewrite (proj2 (Z.eqb_neq a b) H)
           end; cbn [orb]; lia.
Qed.

Lemma printableChars_filter (decoded : jsstring) :
  printableChars decoded = Z.of_nat (length (filter printable decoded)).
Proof.
  unfold printableChars, String_length, String_remove. do 2 f_equal.
  apply filter_ext. intros c. unfold control_class, printable.
  now rewrite negb_orb.
Qed.

Lemma printableChars_le (decoded : jsstring) :
  0 <= printableChars decoded <= String_length decoded.
Proof.
  unfold printableChars, String_length, String_remove.
  pose proof (filter_length_le (fun c => negb (control_class c)) decoded). lia.
Qed.

Lemma count_fold (A : Type) (f : A -> bool) (l : list A) (acc : Z) :
  fold_left (fun count k => count + (if f k then 1 else 0)) l acc
  = acc + Z.of_nat (length (filter f l)).
Proof.
  revert acc. induction l as [| k l IH]; intros acc; cbn [fold_left filter].
  - cbn. lia.
  - rewrite IH. destruct (f k); cbn [length]; lia.
Qed.



Lemma sqlKeywordCount_range (toUpperCase : jsstring -> jsstring) (decoded : jsstring) :
  0 <= sqlKeywordCount toUpperCase decoded <= 10.
Proof.
  unfold sqlKeywordCount. rewrite count_fold.
  pose proof (filter_length_le (includes (toUpperCase decoded)) sqlKeywords) as H.
  change (length sqlKeywords) with 10%nat in H. lia.
Qed.

(** ** Numbers *)

Lemma Number_div_NaN (a b : Z) : Number_div a b = NaN <-> a = 0 /\ b = 0.
Proof.
  unfold Number_div.
  destruct (Z.eqb_spec b 0), (Z.eqb_spec a 0); split;
    try discriminate; try tauto; intros [? ?]; contradiction.
Qed.

(** For all lengths up to 300, the comparison of the exact quotient with
    0.8 is the comparison of the doubles. *)
Lemma ratio_agrees_with_binary64 : ratio_agrees_up_to 300 = true.
Proof. vm_compute. reflexivity. Qed.

(** A quotient of lengths is above 0.8 when ten times the numerator is
    above eight times the denominator. *)
Lemma ratio_gt (p n : Z) :
  0 <= p <= n ->
  Number_gt (Number_div p n) (8 # 10) = (0 <? n) && (8 * n <? 10 * p).
Proof.
  intros Hp. unfold Number_div.
  destruct (Z.eqb_spec n 0) as [-> | Hne].
  - destruct (Z.eqb_spec p 0) as [-> | Hp0]; [reflexivity | lia].
  - cbn [Number_gt]. unfold Qle_bool. cbn [Qnum Qden].
    rewrite Z2Pos.id by lia.
    destruct (Z.ltb_spec 0 n); [| lia]. cbn [andb].
    destruct (Z.leb_spec (p * 10) (8 * n)), (Z.ltb_spec (8 * n) (10 * p));
      cbn [negb]; try reflexivity; lia.
Qed.

(** ** iconv-lite on 7-bit buffers *)

(** On a buffer with no byte above 0x7F, the upper halves of the
    single-byte pages play no part. *)
Lemma decode_7bit_any_high (high high' : string -> Z -> Z) (buffer : Buffer)
      (encoding : string) :
  Forall (fun b => b < 0x80) buffer ->
  IconvLite.decode high buffer encoding = IconvLite.decode high' buffer encoding.
Proof.
  intros H7. unfold IconvLite.decode.
  destruct (IconvLite.is_in ["utf8"; "utf-8"]%string encoding); [reflexivity |].
  destruct (IconvLite.is_in IconvLite.single_byte_pages encoding); [| reflexivity].
  f_equal. apply map_ext_in. intros b Hb.
  rewrite Forall_forall in H7. specialize (H7 b Hb).
  destruct (Z.ltb_spec b 0x80); [reflexivity | lia].
Qed.

(** ** The handler *)

(** Runs the binds of a computation whose branches are known. *)
Ltac run_handler :=
  unfold finish, iconv_decode_M, bind, try_catch, emit, ret, throw, outcome, events;
  cbn beta iota zeta; cbn [fst snd app exn_message negb].

Section Handler_facts.

Variable iconv_decode : Buffer -> string -> decode_result.
Variable toUpperCase : jsstring -> jsstring.

Local Abbreviation handler := (convertToUtf8 iconv_decode toUpperCase).

(** With an encoding in the request, the handler goes straight to the
    final decoding. *)
Lemma convertToUtf8_hint (data : request) (path content : jsstring) (h : string) :
  accepted data path content ->
  sourceEncoding data = Some h -> h <> ""%string ->
  handler data
  = (outcome (finish iconv_decode path (Base64.decode content) h),
     loggerService_info (Starting path h)
       :: events (finish iconv_decode path (Base64.decode content) h)).
Proof.
  intros (Hp & Hc & Hpne & Hcne & Hsql) Hh Hne.
  unfold convertToUtf8. rewrite Hp, Hc, Hh.
  destruct path as [| p0 path]; [contradiction |].
  destruct content as [| c0 content]; [contradiction |].
  rewrite Hsql. apply String.eqb_neq in Hne. rewrite Hne.
  run_handler.
  destruct (iconv_decode (Base64.decode (c0 :: content)) h) as [text | m];
    run_handler; reflexivity.
Qed.

(** Without one, it runs the detection first. *)
Lemma convertToUtf8_detect (data : request) (path content : jsstring) :
  accepted data path content -> no_hint data ->
  let buffer := Base64.decode content in
  let best := best_of iconv_decode toUpperCase buffer in
  handler data
  = (outcome (finish iconv_decode path buffer (fst best)),
     loggerService_info (Starting path "auto-detect")
       :: flat_map (candidate_events iconv_decode toUpperCase buffer) encodingsToTry
       ++ loggerService_info
            (AutoDetectionCompleted (fst best) (snd best)
               (Z.of_nat (length encodingsToTry)))
       :: events (finish iconv_decode path buffer (fst best))).
Proof.
  intros (Hp & Hc & Hpne & Hcne & Hsql) Hh buffer best.
  unfold convertToUtf8. rewrite Hp, Hc.
  destruct path as [| p0 path]; [contradiction |].
  destruct content as [| c0 content]; [contradiction |].
  rewrite Hsql.
  assert (Hdet :
    match sourceEncoding data with
    | Some h => if String.eqb h "" then best <- detect iconv_decode toUpperCase buffer ;; ret (fst best) else ret h
    | None => best <- detect iconv_decode toUpperCase buffer ;; ret (fst best)
    end = best <- detect iconv_decode toUpperCase buffer ;; ret (fst best)).
  { destruct Hh as [-> | ->]; reflexivity. }
  assert (Hname :
    match sourceEncoding data with
    | Some h => if String.eqb h "" then "auto-detect"%string else h
    | None => "auto-detect"%string
    end = "auto-detect"%string).
  { destruct Hh as [-> | ->]; reflexivity. }
  fold buffer. rewrite Hdet, Hname. rewrite detect_fold. fold best.
  run_handler.
  destruct (iconv_decode buffer (fst best)) as [text | m];
    run_handler; rewrite ?app_nil_r, <- ?app_assoc; reflexivity.
Qed.

End Handler_facts.

(** ** The score *)

Section Score_facts.

Variable iconv_decode : Buffer -> string -> decode_result.
Variable toUpperCase : jsstring -> jsstring.

Local Abbreviation score := (score_of toUpperCase).

(** The score as a sum of its five terms. *)
Lemma score_of_terms (decoded : jsstring) :
  score decoded
  = (if replacementCharCount decoded =? 0 then 100
     else - (10 * replacementCharCount decoded))
    + (if 0 <? String_length decoded then 50 else 0)
    + 5 * sqlKeywordCount toUpperCase decoded
    + (if Number_gt (printableRatio decoded) (8 # 10) then 30 else 0)
    + Z.min (sqlCharCount decoded) 20.
Proof.
  unfold score_of. rewrite Z.gtb_ltb.
  destruct (replacementCharCount decoded =? 0), (0 <? String_length decoded),
    (Number_gt (printableRatio decoded) (8 # 10)); lia.
Qed.



(** C9, as the code has it: for a decoded text of length 0 the ratio is
    the quotient 0/0, computed with no guard; it is NaN, the comparison
    with 0.8 is false, so the 30 points are not given and the score is
    100 plus 5 for each keyword found; the candidate is scored and
    logged as any other, and nothing is thrown. *)
Theorem C9_empty_text_ratio (decoded : jsstring) :
  String_length decoded = 0 ->
  printableRatio decoded = Number_div 0 0 /\
  printableRatio decoded = NaN /\
  Number_gt (printableRatio decoded) (8 # 10) = false /\
  score_of toUpperCase decoded = 100 + 5 * sqlKeywordCount toUpperCase decoded /\
  forall buffer best encoding,
    iconv_decode buffer encoding = Decoded decoded ->
    exists best',
      try_encoding iconv_decode toUpperCase buffer best encoding
      = (inr best',
         [iconv_decode_call buffer encoding;
          loggerService_debug (scored toUpperCase encoding decoded)]) /\
      a_printableRatio (scored toUpperCase encoding decoded) = NaN.
Proof.
  intros H. assert (decoded = []) as ->.
  { destruct decoded; [reflexivity | discriminate H]. }
  repeat split.
  - rewrite score_of_terms. cbn. lia.
  - intros buffer best encoding Hd. eexists. split; [| reflexivity].
    rewrite try_encoding_select. unfold candidate_events. rewrite Hd. reflexivity.
Qed.

End Score_facts.


(** C9 on the empty text. *)
Lemma C9_empty_text_ratio_witness :
  String_length [] = 0 /\
  printableRatio [] = NaN /\
  score_of IconvLite.ascii_toUpperCase [] = 100.
Proof.
  split; [reflexivity |].
  destruct (C9_empty_text_ratio (IconvLite.decode IconvLite.latin1_high)
              IconvLite.ascii_toUpperCase [] eq_refl)
    as (_ & Hnan & _ & Hscore & _).
  split; [exact Hnan | exact Hscore].
Defined.

(** C9 as stated fails: for the empty text the divisor of the ratio is 0
    and the quotient logged for the candidate is NaN. *)
Lemma C9_division_by_zero_unguarded :
  String_length [] = 0 /\
  printableRatio [] = Number_div (printableChars []) 0 /\
  a_printableRatio (scored IconvLite.ascii_toUpperCase "utf8" []) = NaN.
Proof. repeat split. Qed.

(** ** The choice of the best candidate *)

Lemma encodingsToTry_NoDup : NoDup encodingsToTry.
Proof.
  unfold encodingsToTry.
  repeat (constructor; [cbn; intuition discriminate |]). constructor.
Qed.

Section Choice_facts.

Variable iconv_decode : Buffer -> string -> decode_result.
Variable toUpperCase : jsstring -> jsstring.
Variable buffer : Buffer.

Local Abbreviation score := (score_of toUpperCase).
Local Abbreviation detection := (detect iconv_decode toUpperCase buffer).

Lemma detect_outcome :
  outcome detection = inr (best_of iconv_decode toUpperCase buffer).
Proof. now rewrite detect_fold. Qed.

(** C2: when two candidates of the catalog decode to texts of equal
    score, the later one is never the encoding returned; and when that
    score is positive, is reached by no candidate before the earlier one
    and is exceeded by none, the earlier one is returned with it. *)
Theorem C2_ties_go_to_the_earlier (pre mid post : list string) (e1 e2 : string)
    (d1 d2 : jsstring) :
  encodingsToTry = pre ++ e1 :: mid ++ e2 :: post ->
  iconv_decode buffer e1 = Decoded d1 ->
  iconv_decode buffer e2 = Decoded d2 ->
  score_of toUpperCase d1 = score_of toUpperCase d2 ->
  exists best : string * Z,
    outcome (detect iconv_decode toUpperCase buffer) = inr best /\
    fst best <> e2 /\
    (0 < score_of toUpperCase d1 ->
     (forall e d, In e pre -> iconv_decode buffer e = Decoded d ->
                  score_of toUpperCase d < score_of toUpperCase d1) ->
     (forall e d, In e (mid ++ e2 :: post) -> iconv_decode buffer e = Decoded d ->
                  score_of toUpperCase d <= score_of toUpperCase d1) ->
     best = (e1, score_of toUpperCase d1)).
Proof.
  intros Hcat Hd1 Hd2 Htie.
  exists (best_of iconv_decode toUpperCase buffer).
  split; [apply detect_outcome |].
  pose proof encodingsToTry_NoDup as Hnd. rewrite Hcat in Hnd.
  replace (pre ++ e1 :: mid ++ e2 :: post) with ((pre ++ e1 :: mid) ++ e2 :: post) in Hnd
    by (rewrite <- app_assoc; reflexivity).
  pose proof (NoDup_remove_2 _ _ _ Hnd) as Hnot.
  assert (Hfirst : In "utf8"%string (pre ++ e1 :: mid)).
  { destruct pre as [| p pre]; cbn [app] in Hcat |- *;
      unfold encodingsToTry in Hcat; injection Hcat as <- _; now left. }
  split.
  - unfold best_of. rewrite Hcat.
    apply fold_tie_later with (d1 := d1) (d2 := d2); auto.
    + intros Hin. apply Hnot, in_or_app. now left.
    + intros Hin. apply Hnot, in_or_app. now right.
    + cbn [fst]. intros <-. apply Hnot, in_or_app. now left.
  - intros Hpos Hbefore Hafter. unfold best_of. rewrite Hcat.
    apply fold_first_max; auto.
Qed.

(** C10: the loop starts from the encoding utf8 and the score 0; along
    the catalog the best score never decreases, so it stays at 0 or
    above and a candidate whose score is 0 or less leaves the best pair
    as it is; and when no decoded candidate has a strictly positive
    score, the detection ends with utf8 and the score 0, which is what
    the handler logs and the encoding of any answer. *)
Theorem C10_default_when_no_positive_score :
  let init := ("utf8"%string, 0) in
  let after l := fold_left (select iconv_decode toUpperCase buffer) l init in
  (forall tried e rest, encodingsToTry = tried ++ e :: rest ->
     0 <= snd (after tried) <= snd (after (tried ++ [e])) /\
     forall d, iconv_decode buffer e = Decoded d -> score_of toUpperCase d <= 0 ->
               after (tried ++ [e]) = after tried) /\
  ((forall e d, In e encodingsToTry -> iconv_decode buffer e = Decoded d ->
                score_of toUpperCase d <= 0) ->
   outcome (detect iconv_decode toUpperCase buffer) = inr ("utf8"%string, 0) /\
   forall data path content,
     accepted data path content -> no_hint data -> Base64.decode content = buffer ->
     In (loggerService_info
           (AutoDetectionCompleted "utf8" 0 (Z.of_nat (length encodingsToTry))))
        (events (convertToUtf8 iconv_decode toUpperCase data)) /\
     forall r, outcome (convertToUtf8 iconv_decode toUpperCase data) = inr r ->
               response_sourceEncoding r = "utf8"%string).
Proof.
  intros init after. split.
  - intros tried e rest _. unfold after. rewrite fold_left_app. cbn [fold_left].
    pose proof (fold_score_mono iconv_decode toUpperCase buffer tried init) as H0.
    pose proof (fold_score_mono iconv_decode toUpperCase buffer [e]
                  (fold_left (select iconv_decode toUpperCase buffer) tried init)) as H1.
    cbn [fold_left] in H1. change (snd init) with 0 in H0. split; [lia |].
    intros d Hd Hle.
    destruct (select_cases iconv_decode toUpperCase buffer
                (fold_left (select iconv_decode toUpperCase buffer) tried init) e)
      as [[Heq _] | (d' & Hd' & Hlt & _)]; [exact Heq |].
    rewrite Hd in Hd'. injection Hd' as <-. lia.
  - intros Hnone.
    assert (Hbest : best_of iconv_decode toUpperCase buffer = ("utf8"%string, 0)).
    { unfold best_of. now apply fold_none. }
    split; [rewrite detect_outcome; now f_equal |].
    intros data path content Hacc Hno Hbuf.
    rewrite (convertToUtf8_detect iconv_decode toUpperCase data path content Hacc Hno).
    cbn zeta. rewrite Hbuf, Hbest. unfold outcome, events. cbn [fst snd]. split.
    + right. apply in_or_app. right. now left.
    + intros r Hr. unfold finish in Hr.
      destruct (iconv_decode buffer "utf8") as [text | m]; [| discriminate Hr].
      now injection Hr as <-.
Qed.

End Choice_facts.

(** C2 on an ASCII-only buffer: utf8 and ascii give the same text, and
    utf8, the earlier of the two, is returned. *)
Lemma C2_ties_go_to_the_earlier_witness :
  IconvLite.decode IconvLite.latin1_high (js "SELECT 1;") "utf8" = Decoded (js "SELECT 1;") /\
  IconvLite.decode IconvLite.latin1_high (js "SELECT 1;") "ascii" = Decoded (js "SELECT 1;") /\
  exists best : string * Z,
    outcome (detect (IconvLite.decode IconvLite.latin1_high) IconvLite.ascii_toUpperCase
               (js "SELECT 1;")) = inr best /\
    fst best <> "ascii"%string /\
    best = ("utf8"%string, 186).
Proof.
  split; [reflexivity |]. split; [reflexivity |].
  destruct (C2_ties_go_to_the_earlier (IconvLite.decode IconvLite.latin1_high)
              IconvLite.ascii_toUpperCase (js "SELECT 1;")
              [] (firstn 23 (tl encodingsToTry)) [] "utf8" "ascii"
              (js "SELECT 1;") (js "SELECT 1;") eq_refl eq_refl eq_refl eq_refl)
    as (best & Hout & Hne & Hmax).
  exists best. split; [exact Hout |]. split; [exact Hne |].
  apply Hmax.
  - reflexivity.
  - intros e d [].
  - intros e d Hin Hd.
    cbn [firstn tl encodingsToTry app] in Hin.
    repeat (destruct Hin as [<- | Hin];
            [vm_compute in Hd; injection Hd as <-; vm_compute; discriminate |]).
    destruct Hin.
Defined.

(** C10 with a codec layer that knows ascii alone, on twenty bytes above
    0x7F: the one decoded candidate scores -120. *)
Lemma C10_default_when_no_positive_score_witness :
  (forall e d, In e encodingsToTry ->
     IconvLite.ascii_only (repeat 0xE9 20) e = Decoded d ->
     score_of IconvLite.ascii_toUpperCase d <= 0) /\
  outcome (detect IconvLite.ascii_only IconvLite.ascii_toUpperCase (repeat 0xE9 20))
  = inr ("utf8"%string, 0).
Proof.
  assert (H : forall e d, In e encodingsToTry ->
     IconvLite.ascii_only (repeat 0xE9 20) e = Decoded d ->
     score_of IconvLite.ascii_toUpperCase d <= 0).
  { intros e d Hin Hd. unfold encodingsToTry in Hin.
    repeat (destruct Hin as [<- | Hin];
            [vm_compute in Hd; first [discriminate Hd
                                     | injection Hd as <-; vm_compute; discriminate] |]).
    destruct Hin. }
  split; [exact H |].
  exact (proj1 (proj2 (C10_default_when_no_positive_score IconvLite.ascii_only
                         IconvLite.ascii_toUpperCase (repeat 0xE9 20)) H)).
Defined.

(** ** The handler: validation, the hint, failures *)

Section Request_facts.

Variable iconv_decode : Buffer -> string -> decode_result.
Variable toUpperCase : jsstring -> jsstring.

Local Abbreviation handler := (convertToUtf8 iconv_decode toUpperCase).

Lemma finish_decode_calls (path : jsstring) (buffer : Buffer) (e : string) :
  decode_calls (snd (finish iconv_decode path buffer e)) = [(buffer, e)].
Proof. unfold finish. destruct (iconv_decode buffer e); reflexivity. Qed.

Lemma finish_attempts (path : jsstring) (buffer : Buffer) (e : string) :
  attempts (snd (finish iconv_decode path buffer e)) = [].
Proof. unfold finish. destruct (iconv_decode buffer e); reflexivity. Qed.

(** A request that is answered passed the three checks. *)
Lemma convertToUtf8_success (data : request) (r : response) :
  outcome (handler data) = inr r ->
  exists path content, accepted data path content.
Proof.
  unfold convertToUtf8, accepted. intros H.
  destruct (filePath data) as [[| p0 path] |] eqn:Hp; try (cbn in H; discriminate H).
  destruct (fileContent data) as [[| c0 content] |] eqn:Hc;
    try (cbn in H; discriminate H).
  destruct (endsWith (p0 :: path) (js ".sql")) eqn:Hsql;
    [| cbn in H; discriminate H].
  exists (p0 :: path), (c0 :: content).
  repeat split; try reflexivity; try discriminate; exact Hsql.
Qed.

(** C3: when the request carries an encoding, [iconv.decode] is called
    exactly once, on the buffer and with that encoding; no candidate is
    scored and the detection leaves no log entry; the text decoded is the
    one returned; and when the decoding throws, the call fails with an
    internal error carrying the message, with no other attempt. *)
Theorem C3_hint_skips_detection (data : request) (path content : jsstring) (h : string) :
  accepted data path content ->
  sourceEncoding data = Some h -> h <> ""%string ->
  let buffer := Base64.decode content in
  let run := convertToUtf8 iconv_decode toUpperCase data in
  decode_calls (events run) = [(buffer, h)] /\
  attempts (events run) = [] /\
  (forall e s n,
     ~ In (loggerService_info (AutoDetectionCompleted e s n)) (events run)) /\
  (forall text, iconv_decode buffer h = Decoded text ->
                outcome run = inr (response_of path h text)) /\
  (forall m, iconv_decode buffer h = Throws m ->
             outcome run
             = inl (HttpsError internal ("Failed to convert file to UTF-8: " ++ m)%string)).
Proof.
  intros Hacc Hh Hne buffer run. subst run.
  rewrite (convertToUtf8_hint iconv_decode toUpperCase data path content h Hacc Hh Hne).
  fold buffer. unfold outcome, events. cbn [fst snd].
  change (decode_calls (?x :: ?t)) with (decode_calls [x] ++ decode_calls t).
  change (attempts (?x :: ?t)) with (attempts [x] ++ attempts t).
  rewrite finish_decode_calls, finish_attempts. repeat split.
  - intros e s n [Habs | Hin]; [discriminate Habs |].
    unfold finish in Hin. destruct (iconv_decode buffer h);
      cbn in Hin; intuition discriminate.
  - intros text Hd. unfold finish. now rewrite Hd.
  - intros m Hd. unfold finish. now rewrite Hd.
Qed.

(** C4, as the code has it: when the field [fileContent] is missing or
    is the empty string, the call fails with an invalid-argument error
    and [iconv.decode] is never called. *)
Theorem C4_missing_content_rejected (data : request) :
  missing (fileContent data) ->
  exists m,
    outcome (convertToUtf8 iconv_decode toUpperCase data)
    = inl (HttpsError invalid_argument m) /\
    decode_calls (events (convertToUtf8 iconv_decode toUpperCase data)) = [] /\
    attempts (events (convertToUtf8 iconv_decode toUpperCase data)) = [].
Proof.
  intros Hmiss. unfold convertToUtf8.
  destruct (filePath data) as [[| p0 path] |];
    try (eexists; repeat split; reflexivity).
  destruct Hmiss as [-> | ->]; eexists; repeat split; reflexivity.
Qed.

(** C5: without an encoding in the request, the encoding of an answer is
    one that decoded the buffer without error; a candidate whose
    decoding throws is not scored, and is the best of the loop only if
    it is the initial utf8; and when utf8 itself decodes the buffer, no
    such candidate is returned, the call succeeds and no error is
    logged. *)
Theorem C5_failed_candidates_are_skipped (data : request) (path content : jsstring) :
  accepted data path content -> no_hint data ->
  let buffer := Base64.decode content in
  let run := convertToUtf8 iconv_decode toUpperCase data in
  (forall r, outcome run = inr r ->
             exists text, iconv_decode buffer (response_sourceEncoding r) = Decoded text) /\
  (forall e m, In e encodingsToTry -> iconv_decode buffer e = Throws m ->
     (forall a, In a (attempts (events run)) -> a_encoding a <> e) /\
     (fst (best_of iconv_decode toUpperCase buffer) = e -> e = "utf8"%string)) /\
  ((exists text, iconv_decode buffer "utf8" = Decoded text) ->
   (exists r, outcome run = inr r) /\
   errors_logged (events run) = [] /\
   forall e m, In e encodingsToTry -> iconv_decode buffer e = Throws m ->
               fst (best_of iconv_decode toUpperCase buffer) <> e).
Proof.
  intros Hacc Hno buffer run. subst run.
  rewrite (convertToUtf8_detect iconv_decode toUpperCase data path content Hacc Hno).
  fold buffer. set (best := best_of iconv_decode toUpperCase buffer).
  unfold outcome, events. cbn [fst snd].
  assert (Horigin : best = ("utf8"%string, 0) \/
                    exists d, iconv_decode buffer (fst best) = Decoded d).
  { destruct (fold_origin iconv_decode toUpperCase buffer encodingsToTry
                ("utf8"%string, 0)) as [H | (d & _ & Hd & _)]; [now left |].
    right. now exists d. }
  split; [| split].
  - intros r Hr. unfold finish in Hr.
    destruct (iconv_decode buffer (fst best)) as [text |] eqn:Hd; [| discriminate Hr].
    injection Hr as <-. now exists text.
  - intros e m Hin Hthrow. split.
    + intros a Ha Hname.
      change (attempts (?x :: ?t)) with (attempts [x] ++ attempts t) in Ha.
      rewrite events_app_attempts in Ha.
      change (attempts (?x :: ?t)) with (attempts [x] ++ attempts t) in Ha.
      rewrite finish_attempts, attempts_candidates in Ha. cbn [attempts flat_map app] in Ha.
      rewrite app_nil_r in Ha. apply in_flat_map in Ha. destruct Ha as (e' & _ & Ha).
      destruct (iconv_decode buffer e') as [d |] eqn:Hd; [| destruct Ha].
      destruct Ha as [<- | []]. cbn [a_encoding scored] in Hname. congruence.
    + intros Hbest. destruct Horigin as [Hb | (d & Hd)].
      * rewrite Hb in Hbest. cbn [fst] in Hbest. now symmetry.
      * rewrite Hbest in Hd. congruence.
  - intros (text & Hutf8).
    assert (Hok : exists d, iconv_decode buffer (fst best) = Decoded d).
    { destruct Horigin as [Hb | H]; [| exact H].
      rewrite Hb. cbn [fst]. now exists text. }
    destruct Hok as (d & Hd). split; [| split].
    + unfold finish. rewrite Hd. cbn [fst]. eexists. reflexivity.
    + change (errors_logged (?x :: ?t)) with (errors_logged [x] ++ errors_logged t).
      rewrite events_app_errors, errors_candidates.
      change (errors_logged (?x :: ?t)) with (errors_logged [x] ++ errors_logged t).
      unfold finish. rewrite Hd. reflexivity.
    + intros e m _ Hthrow Hbest. congruence.
Qed.

End Request_facts.

(** C3 on [orders.sql] sent as ISO-8859-1: one call of the decoder. *)
Lemma C3_hint_skips_detection_witness :
  let data := {| filePath := Some (js "orders.sql");
                 fileContent := Some (js "U0VMRUNUIDE7");
                 sourceEncoding := Some "latin1"%string |} in
  let run := convertToUtf8 (IconvLite.decode IconvLite.latin1_high)
               IconvLite.ascii_toUpperCase data in
  accepted data (js "orders.sql") (js "U0VMRUNUIDE7") /\
  decode_calls (events run) = [(js "SELECT 1;", "latin1"%string)] /\
  attempts (events run) = [] /\
  outcome run = inr (response_of (js "orders.sql") "latin1" (js "SELECT 1;")).
Proof.
  intros data run.
  assert (Hacc : accepted data (js "orders.sql") (js "U0VMRUNUIDE7")).
  { repeat split; discriminate. }
  split; [exact Hacc |].
  destruct (C3_hint_skips_detection (IconvLite.decode IconvLite.latin1_high)
              IconvLite.ascii_toUpperCase data (js "orders.sql") (js "U0VMRUNUIDE7")
              "latin1" Hacc eq_refl ltac:(discriminate))
    as (Hcalls & Hatt & _ & Hok & _).
  split; [exact Hcalls |]. split; [exact Hatt |].
  apply Hok. reflexivity.
Defined.

(** C4 on a request whose content is the empty string. *)
Lemma C4_missing_content_rejected_witness :
  let data := {| filePath := Some (js "a.sql"); fileContent := Some [];
                 sourceEncoding := None |} in
  missing (fileContent data) /\
  exists m,
    outcome (convertToUtf8 (IconvLite.decode IconvLite.latin1_high)
               IconvLite.ascii_toUpperCase data)
    = inl (HttpsError invalid_argument m) /\
    decode_calls (events (convertToUtf8 (IconvLite.decode IconvLite.latin1_high)
                            IconvLite.ascii_toUpperCase data)) = [].
Proof.
  intros data. split; [now right |].
  destruct (C4_missing_content_rejected (IconvLite.decode IconvLite.latin1_high)
              IconvLite.ascii_toUpperCase data (or_intror eq_refl))
    as (m & Hout & Hcalls & _).
  exists m. split; [exact Hout | exact Hcalls].
Defined.

(** C4 as stated fails: a content of one space is not empty, so the
    check passes; its buffer is empty; the decoder is called for each of
    the 25 candidates and once more, and the call succeeds with utf8. *)
Lemma C4_empty_buffer_is_converted :
  let data := {| filePath := Some (js "a.sql"); fileContent := Some (js " ");
                 sourceEncoding := None |} in
  let run := convertToUtf8 (IconvLite.decode IconvLite.latin1_high)
               IconvLite.ascii_toUpperCase data in
  Base64.decode (js " ") = [] /\
  length (decode_calls (events run)) = 26%nat /\
  length (attempts (events run)) = 25%nat /\
  outcome run = inr (response_of (js "a.sql") "utf8" []).
Proof. vm_compute. repeat split. Qed.

(** C5 with an iconv-lite that has no UTF-32: the two UTF-32 candidates
    throw, and the call succeeds with utf8. *)
Lemma C5_failed_candidates_are_skipped_witness :
  let data := {| filePath := Some (js "orders.sql");
                 fileContent := Some (js "U0VMRUNUIDE7");
                 sourceEncoding := None |} in
  let decoder := IconvLite.decode_without_utf32 IconvLite.latin1_high in
  let run := convertToUtf8 decoder IconvLite.ascii_toUpperCase data in
  accepted data (js "orders.sql") (js "U0VMRUNUIDE7") /\
  no_hint data /\
  decoder (js "SELECT 1;") "utf-32le"%string
  = Throws "Encoding not recognized: 'utf-32le'" /\
  (forall a, In a (attempts (events run)) -> a_encoding a <> "utf-32le"%string) /\
  (exists r, outcome run = inr r) /\
  errors_logged (events run) = [].
Proof.
  intros data decoder run.
  assert (Hacc : accepted data (js "orders.sql") (js "U0VMRUNUIDE7")).
  { repeat split; discriminate. }
  assert (Hno : no_hint data) by now left.
  split; [exact Hacc |]. split; [exact Hno |]. split; [reflexivity |].
  destruct (C5_failed_candidates_are_skipped decoder IconvLite.ascii_toUpperCase data
              (js "orders.sql") (js "U0VMRUNUIDE7") Hacc Hno)
    as (_ & Hskip & Hfine).
  split.
  - apply (Hskip "utf-32le"%string "Encoding not recognized: 'utf-32le'"%string).
    + unfold encodingsToTry. cbn. tauto.
    + reflexivity.
  - destruct Hfine as (Hr & Herr & _).
    + exists (js "SELECT 1;"). reflexivity.
    + split; [exact Hr | exact Herr].
Defined.

(** ** UTF-8 against the other candidates *)

Section Utf8_choice.

Variable iconv_decode : Buffer -> string -> decode_result.
Variable toUpperCase : jsstring -> jsstring.

Local Abbreviation score := (score_of toUpperCase).

Lemma sqlCharCount_nonneg (decoded : jsstring) : 0 <= sqlCharCount decoded.
Proof. unfold sqlCharCount. lia. Qed.

(** A text that is not empty and has no U+FFFD scores 150 or more. *)
Lemma score_clean_text (text : jsstring) :
  text <> [] -> occurrences 0xFFFD text = 0 -> 150 <= score text.
Proof.
  intros Hne Hclean. rewrite score_of_terms, replacementCharCount_occurrences, Hclean.
  pose proof (sqlKeywordCount_range toUpperCase text).
  pose proof (sqlCharCount_nonneg text).
  assert (0 < String_length text).
  { unfold String_length. destruct text; [contradiction | cbn [length]; lia]. }
  destruct (Z.ltb_spec 0 (String_length text)); [| lia].
  destruct (Number_gt (printableRatio text) (8 # 10)); cbn [Z.eqb]; lia.
Qed.

(** A text with a U+FFFD scores 140 or less. *)
Lemma score_replaced_text (decoded : jsstring) :
  0 < occurrences 0xFFFD decoded -> score decoded <= 140.
Proof.
  intros Hrep. rewrite score_of_terms, replacementCharCount_occurrences.
  pose proof (sqlKeywordCount_range toUpperCase decoded).
  destruct (Z.eqb_spec (occurrences 0xFFFD decoded) 0); [lia |].
  destruct (0 <? String_length decoded),
    (Number_gt (printableRatio decoded) (8 # 10)); lia.
Qed.

(** When UTF-8 decodes the buffer to a text that is not empty and has no
    U+FFFD, that text scores 150 or more; and when every other candidate
    gives the same text, a text with a U+FFFD, or a text that scores no
    more, the detection ends with utf8 and that score. *)
Lemma utf8_unless_outscored (buffer : Buffer) (text : jsstring) :
  iconv_decode buffer "utf8" = Decoded text ->
  text <> [] ->
  occurrences 0xFFFD text = 0 ->
  150 <= score_of toUpperCase text /\
  ((forall e d, In e encodingsToTry -> iconv_decode buffer e = Decoded d ->
      d = text \/ 0 < occurrences 0xFFFD d
      \/ score_of toUpperCase d <= score_of toUpperCase text) ->
   outcome (detect iconv_decode toUpperCase buffer)
   = inr ("utf8"%string, score_of toUpperCase text)).
Proof.
  intros Hutf8 Hne Hclean.
  pose proof (score_clean_text text Hne Hclean) as H150.
  split; [exact H150 |]. intros Hothers.
  rewrite detect_outcome. unfold best_of. f_equal.
  apply (fold_first_max iconv_decode toUpperCase buffer [] (tl encodingsToTry)
           ("utf8"%string, 0) "utf8" text Hutf8).
  - cbn [snd]. lia.
  - intros e d [].
  - intros e d Hin Hd.
    destruct (Hothers e d (or_intror Hin) Hd) as [-> | [Hrep | Hle]];
      [lia | | exact Hle].
    pose proof (score_replaced_text d Hrep). lia.
Qed.

End Utf8_choice.

(** C6 as stated fails: the four bytes of the ASCII text a, b, carriage
    return, line feed are valid UTF-8 and read the same in every
    single-byte page, with a score of 150 (half of the text is control
    characters, so no 30 points); read as UTF-16 they are two characters
    that are no controls, the score is 180, and utf-16le is returned. *)
Lemma C6_ascii_text_resolved_as_utf16 :
  let decoder := IconvLite.decode IconvLite.latin1_high in
  let buffer := [97; 98; 13; 10] in
  Utf8.encode [97; 98; 13; 10] = buffer /\
  decoder buffer "utf8"%string = Decoded [97; 98; 13; 10] /\
  score_of IconvLite.ascii_toUpperCase [97; 98; 13; 10] = 150 /\
  decoder buffer "utf-16le"%string = Decoded [0x6261; 0x0A0D] /\
  score_of IconvLite.ascii_toUpperCase [0x6261; 0x0A0D] = 180 /\
  outcome (detect decoder IconvLite.ascii_toUpperCase buffer)
  = inr ("utf-16le"%string, 180) /\
  outcome (convertToUtf8 decoder IconvLite.ascii_toUpperCase
             {| filePath := Some (js "a.sql"); fileContent := Some (js "YWINCg==");
                sourceEncoding := None |})
  = inr (response_of (js "a.sql") "utf-16le" [0x6261; 0x0A0D]).
Proof. vm_compute. repeat split. Qed.

(** ** The output name *)

Section Path_facts.

Import Path.

Lemma scan_loop_no_dot (codes more : list Z) (i : Z) (st : scan) :
  ~ In CHAR_FORWARD_SLASH codes -> ~ In CHAR_DOT codes ->
  end_ st <> -1 -> startDot st = -1 ->
  scan_loop (codes ++ more) i st = scan_loop more (i - Z.of_nat (length codes)) st.
Proof.
  revert i. induction codes as [| c codes IH]; intros i Hs Hd He Hsd.
  - cbn [app length]. f_equal. cbn. lia.
  - cbn [app scan_loop].
    destruct (Z.eqb_spec c CHAR_FORWARD_SLASH) as [-> | _]; [destruct Hs; now left |].
    destruct (Z.eqb_spec c CHAR_DOT) as [-> | _]; [destruct Hd; now left |].
    destruct (Z.eqb_spec (end_ st) (-1)) as [| _]; [contradiction |].
    rewrite Hsd. cbn [Z.eqb Pos.eqb negb]. rewrite IH; auto with datatypes.
    f_equal. cbn [length]. lia.
Qed.

Lemma scan_loop_after_dot (codes : list Z) (i : Z) (st : scan) :
  ~ In CHAR_FORWARD_SLASH codes ->
  end_ st <> -1 -> startDot st <> -1 ->
  scan_loop codes i st
  = {| startDot := startDot st; startPart := startPart st; end_ := end_ st;
       matchedSlash := matchedSlash st;
       preDotState := pre_dot codes (preDotState st) |}.
Proof.
  revert i st. induction codes as [| c codes IH]; intros i st Hs He Hsd.
  - destruct st; reflexivity.
  - cbn [scan_loop].
    destruct (Z.eqb_spec c CHAR_FORWARD_SLASH) as [-> | _]; [destruct Hs; now left |].
    destruct (Z.eqb_spec (end_ st) (-1)) as [| _]; [contradiction |].
    destruct (Z.eqb_spec (startDot st) (-1)) as [| _]; [contradiction |].
    cbn [negb]. unfold pre_dot. cbn [fold_left]. fold (pre_dot codes).
    destruct (Z.eqb_spec c CHAR_DOT) as [-> | _].
    + destruct (Z.eqb_spec (preDotState st) 1) as [H1 | _]; cbn [negb].
      * rewrite IH; auto with datatypes. now rewrite H1.
      * rewrite IH; auto with datatypes.
    + rewrite IH; auto with datatypes.
Qed.

Lemma pre_dot_rev (stem : list Z) :
  pre_dot (rev stem) 0
  = match stem with
    | [] => 0
    | c :: _ => if c =? CHAR_DOT then 1 else -1
    end.
Proof.
  destruct stem as [| c stem]; [reflexivity |].
  cbn [rev]. unfold pre_dot. now rewrite fold_left_app.
Qed.

Lemma slice_prefix (a b : jsstring) : slice (a ++ b) 0 (Z.of_nat (length a)) = a.
Proof.
  unfold slice. rewrite Z.sub_0_r, Nat2Z.id. cbn [Z.to_nat skipn].
  rewrite firstn_app, Nat.sub_diag, firstn_all. cbn [firstn]. apply app_nil_r.
Qed.

Lemma slice_suffix (a b : jsstring) :
  slice (a ++ b) (Z.of_nat (length a)) (Z.of_nat (length (a ++ b))) = b.
Proof.
  unfold slice. rewrite length_app, Nat2Z.id.
  replace (Z.to_nat (Z.of_nat (length a + length b) - Z.of_nat (length a)))
    with (length b) by lia.
  rewrite skipn_app, skipn_all, Nat.sub_diag. cbn [skipn app]. apply firstn_all.
Qed.

Lemma slice_all (a : jsstring) : slice a 0 (Z.of_nat (length a)) = a.
Proof. pose proof (slice_prefix a []) as H. now rewrite app_nil_r in H. Qed.

(** The scan of a slash-free name whose last dot follows [stem]. *)
Lemma scan_dotted (stem ext : jsstring) :
  ~ In CHAR_FORWARD_SLASH stem -> ~ In CHAR_FORWARD_SLASH ext -> ~ In CHAR_DOT ext ->
  scan_loop (rev (stem ++ CHAR_DOT :: ext))
    (String_length (stem ++ CHAR_DOT :: ext) - 1) scan_init
  = {| startDot := Z.of_nat (length stem); startPart := 0;
       end_ := String_length (stem ++ CHAR_DOT :: ext);
       matchedSlash := false; preDotState := pre_dot (rev stem) 0 |}.
Proof.
  intros Hs1 Hs2 Hd. rewrite rev_app_distr. cbn [rev]. rewrite <- app_assoc. cbn [app].
  remember (String_length (stem ++ CHAR_DOT :: ext)) as len eqn:Hlen.
  assert (Hlen' : len = Z.of_nat (length stem) + 1 + Z.of_nat (length ext)).
  { subst len. unfold String_length. rewrite length_app. cbn [length]. lia. }
  clear Hlen.
  assert (Hstem : ~ In CHAR_FORWARD_SLASH (rev stem)).
  { intros H. apply Hs1. now apply in_rev. }
  destruct (rev ext) as [| x xs] eqn:Hrev.
  - assert (ext = []) as ->.
    { apply (f_equal (@rev Z)) in Hrev. now rewrite rev_involutive in Hrev. }
    cbn [length] in Hlen'. cbn [app scan_loop]. unfold scan_init.
    cbn -[Z.sub Z.add Z.of_nat].
    rewrite scan_loop_after_dot by (cbn [end_ startDot]; auto; lia).
    cbn [end_ startDot startPart matchedSlash preDotState]. f_equal; lia.
  - assert (Hx : ~ In CHAR_FORWARD_SLASH (x :: xs)).
    { rewrite <- Hrev. intros H. apply Hs2. now apply in_rev. }
    assert (Hxd : ~ In CHAR_DOT (x :: xs)).
    { rewrite <- Hrev. intros H. apply Hd. now apply in_rev. }
    assert (Hxl : length ext = S (length xs)).
    { rewrite <- (length_rev ext), Hrev. reflexivity. }
    cbn [app scan_loop]. unfold scan_init.
    destruct (Z.eqb_spec x CHAR_FORWARD_SLASH) as [-> | _]; [destruct Hx; now left |].
    destruct (Z.eqb_spec x CHAR_DOT) as [-> | _]; [destruct Hxd; now left |].
    cbn -[Z.sub Z.add Z.of_nat scan_loop].
    rewrite scan_loop_no_dot; cbn [end_ startDot]; auto with datatypes; try lia.
    replace (len - 1 + 1) with len by lia.
    cbn [scan_loop end_]. destruct (Z.eqb_spec len (-1)); [lia |].
    cbn -[Z.sub Z.add Z.of_nat scan_loop].
    rewrite scan_loop_after_dot by (cbn [end_ startDot]; auto; lia).
    cbn [end_ startDot startPart matchedSlash preDotState]. f_equal; lia.
Qed.

(** The scan of a slash-free name with no dot. *)
Lemma scan_plain (p : jsstring) :
  p <> [] -> ~ In CHAR_FORWARD_SLASH p -> ~ In CHAR_DOT p ->
  scan_loop (rev p) (String_length p - 1) scan_init
  = {| startDot := -1; startPart := 0; end_ := String_length p;
       matchedSlash := false; preDotState := 0 |}.
Proof.
  intros Hne Hs Hd. destruct (rev p) as [| x xs] eqn:Hrev.
  - apply (f_equal (@rev Z)) in Hrev. rewrite rev_involutive in Hrev. contradiction.
  - assert (Hx : ~ In CHAR_FORWARD_SLASH (x :: xs)).
    { rewrite <- Hrev. intros H. apply Hs. now apply in_rev. }
    assert (Hxd : ~ In CHAR_DOT (x :: xs)).
    { rewrite <- Hrev. intros H. apply Hd. now apply in_rev. }
    cbn [scan_loop]. unfold scan_init.
    destruct (Z.eqb_spec x CHAR_FORWARD_SLASH) as [-> | _]; [destruct Hx; now left |].
    destruct (Z.eqb_spec x CHAR_DOT) as [-> | _]; [destruct Hxd; now left |].
    cbn -[Z.sub Z.add Z.of_nat scan_loop String_length].
    rewrite <- (app_nil_r xs).
    rewrite scan_loop_no_dot; cbn [end_ startDot]; auto with datatypes.
    + cbn [scan_loop]. f_equal. lia.
    + unfold String_length. lia.
Qed.

(** [path.parse] on a path that does not start with a slash. *)
Lemma parse_relative (c0 : Z) (p : jsstring) :
  c0 <> CHAR_FORWARD_SLASH ->
  parse (c0 :: p)
  = let st := scan_loop (rev (c0 :: p)) (String_length (c0 :: p) - 1) scan_init in
    if negb (end_ st =? -1) then
      if (startDot st =? -1) || (preDotState st =? 0) ||
         ((preDotState st =? 1) && (startDot st =? end_ st - 1)
            && (startDot st =? startPart st + 1))
      then {| base := slice (c0 :: p) (startPart st) (end_ st);
              name := slice (c0 :: p) (startPart st) (end_ st);
              ext := [] |}
      else {| base := slice (c0 :: p) (startPart st) (end_ st);
              name := slice (c0 :: p) (startPart st) (startDot st);
              ext := slice (c0 :: p) (startDot st) (end_ st) |}
    else {| base := []; name := []; ext := [] |}.
Proof.
  intros Hc0. unfold parse.
  destruct (Z.eqb_spec c0 CHAR_FORWARD_SLASH) as [| _]; [contradiction |].
  cbn [Z.to_nat skipn]. rewrite !andb_false_r. reflexivity.
Qed.

(** A name with a dot after a non-empty stem, [..] apart: the extension
    starts at that dot. *)
Lemma parse_stem_ext (stem ext : jsstring) :
  stem <> [] -> ~ (stem = [CHAR_DOT] /\ ext = []) ->
  ~ In CHAR_FORWARD_SLASH stem -> ~ In CHAR_FORWARD_SLASH ext -> ~ In CHAR_DOT ext ->
  name (parse (stem ++ CHAR_DOT :: ext)) = stem /\
  Path.ext (parse (stem ++ CHAR_DOT :: ext)) = CHAR_DOT :: ext.
Proof.
  intros Hne Hdots Hs1 Hs2 Hd.
  destruct stem as [| c0 stem]; [contradiction |].
  change ((c0 :: stem) ++ CHAR_DOT :: ext) with (c0 :: stem ++ CHAR_DOT :: ext).
  rewrite parse_relative by (intros ->; apply Hs1; now left).
  change (c0 :: stem ++ CHAR_DOT :: ext) with ((c0 :: stem) ++ CHAR_DOT :: ext).
  rewrite scan_dotted by assumption. cbn zeta. cbn [end_ startDot startPart preDotState].
  rewrite pre_dot_rev.
  set (len := String_length ((c0 :: stem) ++ CHAR_DOT :: ext)).
  assert (Hlen : len = Z.of_nat (length (c0 :: stem)) + 1 + Z.of_nat (length ext)).
  { unfold len, String_length. rewrite length_app. cbn [length]. lia. }
  destruct (Z.eqb_spec len (-1)); [lia |]. cbn [negb].
  destruct (Z.eqb_spec (Z.of_nat (length (c0 :: stem))) (-1)); [lia |].
  cbn [orb].
  assert (Hthird :
    ((if c0 =? CHAR_DOT then 1 else -1) =? 0) ||
    (((if c0 =? CHAR_DOT then 1 else -1) =? 1)
       && (Z.of_nat (length (c0 :: stem)) =? len - 1)
       && (Z.of_nat (length (c0 :: stem)) =? 0 + 1)) = false).
  { destruct (Z.eqb_spec c0 CHAR_DOT) as [-> | _]; [| reflexivity].
    cbn [Z.eqb Pos.eqb orb andb].
    destruct (Z.eqb_spec (Z.of_nat (length (CHAR_DOT :: stem))) (len - 1)); [| reflexivity].
    destruct (Z.eqb_spec (Z.of_nat (length (CHAR_DOT :: stem))) (0 + 1)); [| reflexivity].
    exfalso. apply Hdots.
    destruct stem; [| cbn [length] in *; lia].
    destruct ext; [tauto | cbn [length] in *; lia]. }
  rewrite Hthird. cbn [name Path.ext]. split.
  - apply (slice_prefix (c0 :: stem) (CHAR_DOT :: ext)).
  - unfold len, String_length. apply (slice_suffix (c0 :: stem) (CHAR_DOT :: ext)).
Qed.

(** A name with no dot has no extension. *)
Lemma parse_no_dot (n : jsstring) :
  ~ In CHAR_FORWARD_SLASH n -> ~ In CHAR_DOT n ->
  name (parse n) = n /\ Path.ext (parse n) = [].
Proof.
  intros Hs Hd. destruct n as [| c0 n]; [split; reflexivity |].
  rewrite parse_relative by (intros ->; apply Hs; now left).
  rewrite scan_plain by (assumption || discriminate).
  cbn zeta. cbn [end_ startDot startPart preDotState].
  assert (0 < String_length (c0 :: n)) by (unfold String_length; cbn [length]; lia).
  destruct (Z.eqb_spec (String_length (c0 :: n)) (-1)); [lia |].
  cbn [negb Z.eqb Pos.eqb orb andb name Path.ext]. split; [| reflexivity].
  apply slice_all.
Qed.

(** A dot that is the first character of the name starts no extension. *)
Lemma parse_leading_dot (rest : jsstring) :
  ~ In CHAR_FORWARD_SLASH rest -> ~ In CHAR_DOT rest ->
  name (parse (CHAR_DOT :: rest)) = CHAR_DOT :: rest /\
  Path.ext (parse (CHAR_DOT :: rest)) = [].
Proof.
  intros Hs Hd. rewrite parse_relative by discriminate.
  change (CHAR_DOT :: rest) with ([] ++ CHAR_DOT :: rest).
  rewrite scan_dotted by (assumption || intros []).
  cbn zeta. cbn [end_ startDot startPart preDotState app rev length pre_dot fold_left].
  assert (0 < String_length (CHAR_DOT :: rest)) by (unfold String_length; cbn [length]; lia).
  destruct (Z.eqb_spec (String_length (CHAR_DOT :: rest)) (-1)); [lia |].
  cbn [negb Z.eqb Pos.eqb orb andb name Path.ext Z.of_nat]. split; [| reflexivity].
  apply slice_all.
Qed.

End Path_facts.

(** C8: the output name puts [-utf8] before the extension, which starts
    at the last dot of the file name: [orders.sql] gives
    [orders-utf8.sql], [a.b.sql] gives [a.b-utf8.sql]; a name with no
    extension, such as [data], gives [data-utf8], with no dot added.
    The four general cases cover every name without a slash; as in any
    path splitting, a name has no extension when it has no dot, when its
    only dot is its first character, or when it is [..]. *)
Theorem C8_output_name :
  outputPath (js "orders.sql") = js "orders-utf8.sql" /\
  outputPath (js "a.b.sql") = js "a.b-utf8.sql" /\
  outputPath (js "data") = js "data-utf8" /\
  (forall stem ext : jsstring,
     stem <> [] -> ~ (stem = js "." /\ ext = []) ->
     ~ In Path.CHAR_FORWARD_SLASH stem -> ~ In Path.CHAR_FORWARD_SLASH ext ->
     ~ In Path.CHAR_DOT ext ->
     outputPath (stem ++ js "." ++ ext) = stem ++ js "-utf8" ++ js "." ++ ext) /\
  (forall name : jsstring,
     ~ In Path.CHAR_FORWARD_SLASH name -> ~ In Path.CHAR_DOT name ->
     outputPath name = name ++ js "-utf8") /\
  (forall rest : jsstring,
     ~ In Path.CHAR_FORWARD_SLASH rest -> ~ In Path.CHAR_DOT rest ->
     outputPath (js "." ++ rest) = js "." ++ rest ++ js "-utf8") /\
  outputPath (js "..") = js "..-utf8".
Proof.
  split; [reflexivity |]. split; [reflexivity |]. split; [reflexivity |].
  split; [| split; [| split; [| reflexivity]]].
  - intros stem ext Hne Hdots Hs1 Hs2 Hd. unfold outputPath.
    destruct (parse_stem_ext stem ext Hne Hdots Hs1 Hs2 Hd) as [Hname Hext].
    change (js "." ++ ext) with (Path.CHAR_DOT :: ext).
    now rewrite Hname, Hext.
  - intros name Hs Hd. unfold outputPath.
    destruct (parse_no_dot name Hs Hd) as [Hname Hext].
    rewrite Hname, Hext. now rewrite app_nil_r.
  - intros rest Hs Hd. unfold outputPath.
    change (js "." ++ rest) with (Path.CHAR_DOT :: rest).
    destruct (parse_leading_dot rest Hs Hd) as [Hname Hext].
    rewrite Hname, Hext. now rewrite app_nil_r.
Qed.

(** C8 on [a.b.sql], split as [a.b] and [sql]. *)
Lemma C8_output_name_witness :
  js "a.b" <> [] /\
  ~ In Path.CHAR_FORWARD_SLASH (js "a.b") /\
  ~ In Path.CHAR_DOT (js "sql") /\
  outputPath (js "a.b" ++ js "." ++ js "sql") = js "a.b" ++ js "-utf8" ++ js "." ++ js "sql".
Proof.
  assert (H1 : js "a.b" <> []) by discriminate.
  assert (H2 : ~ In Path.CHAR_FORWARD_SLASH (js "a.b")) by (cbn; intuition discriminate).
  assert (H3 : ~ In Path.CHAR_DOT (js "sql")) by (cbn; intuition discriminate).
  split; [exact H1 |]. split; [exact H2 |]. split; [exact H3 |].
  destruct C8_output_name as (_ & _ & _ & Hgen & _).
  apply Hgen; [exact H1 | | exact H2 | | exact H3].
  - intros [Habs _]. discriminate Habs.
  - cbn; intuition discriminate.
Defined.

(** ** The UTF-8 round trip *)

Section Utf8_facts.

Import Utf8.

(** Decides the comparisons of the goal, one after the other. *)
Ltac leb_cases :=
  repeat match goal with
         | |- context [?a <=? ?b] => destruct (Z.leb_spec a b); try lia
         | |- context [?a <? ?b] => destruct (Z.ltb_spec a b); try lia
         | |- context [?a =? ?b] => destruct (Z.eqb_spec a b); try lia
         end.

Lemma start_byte_ascii (b : Z) : b <= 0x7F -> start_byte b = ([b], Start).
Proof. intros H. unfold start_byte. leb_cases. reflexivity. Qed.

Lemma start_byte_two (b : Z) :
  0xC2 <= b <= 0xDF -> start_byte b = ([], Cont 1 (b - 0xC0) 0x80 0xBF).
Proof. intros H. unfold start_byte. leb_cases. reflexivity. Qed.

Lemma start_byte_three (b : Z) :
  0xE0 <= b <= 0xEF ->
  start_byte b = ([], Cont 2 (b - 0xE0) (if b =? 0xE0 then 0xA0 else 0x80)
                                        (if b =? 0xED then 0x9F else 0xBF)).
Proof.
  intros H. unfold start_byte.
  destruct (Z.leb_spec b 0x7F); [lia |].
  destruct (Z.leb_spec 0xC2 b); [| lia].
  destruct (Z.leb_spec b 0xDF); [lia |].
  destruct (Z.leb_spec 0xE0 b); [| lia].
  destruct (Z.leb_spec b 0xEF); [| lia].
  reflexivity.
Qed.

Lemma start_byte_four (b : Z) :
  0xF0 <= b <= 0xF4 ->
  start_byte b = ([], Cont 3 (b - 0xF0) (if b =? 0xF0 then 0x90 else 0x80)
                                        (if b =? 0xF4 then 0x8F else 0xBF)).
Proof.
  intros H. unfold start_byte.
  destruct (Z.leb_spec b 0x7F); [lia |].
  destruct (Z.leb_spec 0xC2 b); [| lia].
  destruct (Z.leb_spec b 0xDF); [lia |].
  destruct (Z.leb_spec 0xE0 b); [| lia].
  destruct (Z.leb_spec b 0xEF); [lia |].
  destruct (Z.leb_spec 0xF0 b); [| lia].
  destruct (Z.leb_spec b 0xF4); [| lia].
  reflexivity.
Qed.

Lemma step_more (n : nat) (cp lo hi b : Z) :
  lo <= b <= hi ->
  step (Cont (S (S n)) cp lo hi) b = ([], Cont (S n) (cp * 64 + (b - 0x80)) 0x80 0xBF).
Proof.
  intros H. unfold step.
  destruct (Z.leb_spec lo b); [| lia]. destruct (Z.leb_spec b hi); [| lia]. reflexivity.
Qed.

Lemma step_last (cp lo hi b : Z) :
  lo <= b <= hi ->
  step (Cont 1 cp lo hi) b = (code_units (cp * 64 + (b - 0x80)), Start).
Proof.
  intros H. unfold step.
  destruct (Z.leb_spec lo b); [| lia]. destruct (Z.leb_spec b hi); [| lia]. reflexivity.
Qed.

Lemma run_cons (s : state) (b : Z) (bs : Buffer) :
  run s (b :: bs) = fst (step s b) ++ run (snd (step s b)) bs.
Proof. cbn [run]. now destruct (step s b). Qed.

(** Decoding the bytes of one scalar value gives its code units back. *)
Lemma run_encode_code_point (cp : Z) (rest : Buffer) :
  scalar cp ->
  run Start (encode_code_point cp ++ rest) = code_units cp ++ run Start rest.
Proof.
  intros [Hrange Hsur]. unfold encode_code_point.
  destruct (Z.ltb_spec cp 0x80).
  { cbn [app]. rewrite run_cons. cbn [step]. rewrite start_byte_ascii by lia.
    cbn [fst snd]. unfold code_units. destruct (Z.ltb_spec cp 0x10000); [reflexivity | lia]. }
  destruct (Z.ltb_spec cp 0x800).
  { cbn [app]. rewrite run_cons. cbn [step].
    rewrite start_byte_two by (Z.div_mod_to_equations; lia).
    cbn [fst snd app]. rewrite run_cons, step_last by (Z.div_mod_to_equations; lia).
    cbn [fst snd]. do 2 f_equal. Z.div_mod_to_equations; lia. }
  destruct (Z.ltb_spec cp 0x10000).
  { cbn [app]. rewrite run_cons. cbn [step].
    rewrite start_byte_three by (Z.div_mod_to_equations; lia).
    cbn [fst snd app]. rewrite run_cons, step_more.
    2:{ destruct (Z.eqb_spec (0xE0 + cp / 4096) 0xE0), (Z.eqb_spec (0xE0 + cp / 4096) 0xED);
          Z.div_mod_to_equations; lia. }
    cbn [fst snd app]. rewrite run_cons, step_last by (Z.div_mod_to_equations; lia).
    cbn [fst snd]. do 2 f_equal. Z.div_mod_to_equations; lia. }
  cbn [app]. rewrite run_cons. cbn [step].
  rewrite start_byte_four by (Z.div_mod_to_equations; lia).
  cbn [fst snd app]. rewrite run_cons, step_more.
  2:{ destruct (Z.eqb_spec (0xF0 + cp / 262144) 0xF0), (Z.eqb_spec (0xF0 + cp / 262144) 0xF4);
        Z.div_mod_to_equations; lia. }
  cbn [fst snd app]. rewrite run_cons, step_more by (Z.div_mod_to_equations; lia).
  cbn [fst snd app]. rewrite run_cons, step_last by (Z.div_mod_to_equations; lia).
  cbn [fst snd]. do 2 f_equal. Z.div_mod_to_equations; lia.
Qed.

Lemma code_units_pair (c d : Z) :
  is_high_surrogate c = true -> is_low_surrogate d = true ->
  scalar (0x10000 + (c - 0xD800) * 1024 + (d - 0xDC00)) /\
  code_units (0x10000 + (c - 0xD800) * 1024 + (d - 0xDC00)) = [c; d].
Proof.
  unfold is_high_surrogate, is_low_surrogate, scalar, code_units.
  rewrite !andb_true_iff, !Z.leb_le. intros [Hc1 Hc2] [Hd1 Hd2]. split; [lia |].
  destruct (Z.ltb_spec (0x10000 + (c - 0xD800) * 1024 + (d - 0xDC00)) 0x10000); [lia |].
  f_equal; [| f_equal]; Z.div_mod_to_equations; lia.
Qed.

Lemma code_units_bmp (c : Z) :
  is_high_surrogate c = false -> is_low_surrogate c = false ->
  0 <= c <= 0xFFFF -> scalar c /\ code_units c = [c].
Proof.
  unfold is_high_surrogate, is_low_surrogate, scalar, code_units.
  rewrite !andb_false_iff, !Z.leb_gt. intros Hh Hl Hr. split; [lia |].
  destruct (Z.ltb_spec c 0x10000); [reflexivity | lia].
Qed.

Lemma toString_encode_bounded (n : nat) (s : jsstring) :
  (length s <= n)%nat -> well_formed s = true -> toString (encode s) = s.
Proof.
  unfold toString. revert s. induction n as [| n IH]; intros s Hlen Hwf.
  - destruct s; [reflexivity | cbn [length] in Hlen; lia].
  - destruct s as [| c rest]; [reflexivity |].
    cbn [well_formed encode] in *. cbn [length] in Hlen.
    destruct (is_high_surrogate c) eqn:Hh.
    + destruct rest as [| d rest']; [discriminate Hwf |].
      apply andb_true_iff in Hwf. destruct Hwf as [Hd Hwf]. rewrite Hd.
      destruct (code_units_pair c d Hh Hd) as [Hsc Hcu].
      rewrite run_encode_code_point, Hcu by exact Hsc.
      cbn [app]. do 2 f_equal. apply IH; [cbn [length] in Hlen; lia | exact Hwf].
    + rewrite !andb_true_iff in Hwf. destruct Hwf as [[[Hl H0] H1] Hwf].
      apply negb_true_iff in Hl. rewrite Hl.
      destruct (code_units_bmp c Hh Hl) as [Hsc Hcu]; [lia |].
      rewrite run_encode_code_point, Hcu by exact Hsc.
      cbn [app]. f_equal. apply IH; [lia | exact Hwf].
Qed.

Lemma toString_encode (s : jsstring) :
  well_formed s = true -> toString (encode s) = s.
Proof. apply (toString_encode_bounded (length s)). lia. Qed.

End Utf8_facts.

Section Round_trip.

Variable iconv_decode : Buffer -> string -> decode_result.
Variable toUpperCase : jsstring -> jsstring.

(** What an answer holds: the buffer decoded with the encoding named in
    it, encoded as UTF-8 and then as base64. *)
Lemma convertToUtf8_answer (data : request) (r : response) :
  outcome (convertToUtf8 iconv_decode toUpperCase data) = inr r ->
  exists content decodedText,
    fileContent data = Some content /\
    iconv_decode (Base64.decode content) (response_sourceEncoding r) = Decoded decodedText /\
    convertedContent r = Base64.encode (Utf8.encode decodedText).
Proof.
  intros Hr.
  destruct (convertToUtf8_success iconv_decode toUpperCase data r Hr)
    as (path & content & Hacc).
  assert (Hfin : exists e,
            outcome (convertToUtf8 iconv_decode toUpperCase data)
            = fst (finish iconv_decode path (Base64.decode content) e)).
  { destruct (sourceEncoding data) as [h |] eqn:Hh.
    - destruct (String.eqb_spec h "") as [-> | Hne].
      + eexists. rewrite (convertToUtf8_detect iconv_decode toUpperCase data path content Hacc
                            (or_intror Hh)). reflexivity.
      + eexists. rewrite (convertToUtf8_hint iconv_decode toUpperCase data path content h
                            Hacc Hh Hne). reflexivity.
    - eexists. rewrite (convertToUtf8_detect iconv_decode toUpperCase data path content Hacc
                          (or_introl Hh)). reflexivity. }
  destruct Hfin as (e & Hfin). rewrite Hfin in Hr. unfold finish in Hr.
  destruct (iconv_decode (Base64.decode content) e) as [text | m] eqn:Hd;
    [| discriminate Hr].
  injection Hr as <-. exists content, text. cbn [response_sourceEncoding response_of
                                                   convertedContent].
  destruct Hacc as (_ & Hc & _). auto.
Qed.

(** C7, as the code has it: the text of an answer is the buffer decoded
    with the encoding chosen, and the bytes returned are its UTF-8
    encoding; when that text has no surrogate outside a pair, decoding
    those bytes as UTF-8 gives the same text, and so does iconv-lite's
    utf8 when the text does not start with a byte-order mark. *)
Theorem C7_round_trip_of_well_formed_text (data : request) (r : response) :
  outcome (convertToUtf8 iconv_decode toUpperCase data) = inr r ->
  exists content decodedText,
    fileContent data = Some content /\
    iconv_decode (Base64.decode content) (response_sourceEncoding r) = Decoded decodedText /\
    convertedContent r = Base64.encode (Utf8.encode decodedText) /\
    (Utf8.well_formed decodedText = true ->
     Utf8.toString (Utf8.encode decodedText) = decodedText /\
     (startsWith decodedText [IconvLite.BOMChar] = false ->
      forall high,
        IconvLite.decode high (Utf8.encode decodedText) "utf8" = Decoded decodedText)).
Proof.
  intros Hr. destruct (convertToUtf8_answer data r Hr) as (content & text & Hc & Hd & Hb).
  exists content, text. repeat split; try assumption.
  - now apply toString_encode.
  - intros Hbom high. unfold IconvLite.decode. cbn [IconvLite.is_in existsb String.eqb
                                                       Ascii.eqb Bool.eqb orb].
    rewrite toString_encode by assumption. f_equal.
    destruct text as [| c text]; [reflexivity |].
    cbn [IconvLite.stripBOM]. cbn [startsWith] in Hbom.
    rewrite andb_true_r in Hbom. now rewrite Hbom.
Qed.

End Round_trip.

(** C7 on [SELECT 1;] sent as ISO-8859-1. *)
Lemma C7_round_trip_of_well_formed_text_witness :
  let decoder := IconvLite.decode IconvLite.latin1_high in
  let data := {| filePath := Some (js "orders.sql");
                 fileContent := Some (js "U0VMRUNUIDE7");
                 sourceEncoding := Some "latin1"%string |} in
  outcome (convertToUtf8 decoder IconvLite.ascii_toUpperCase data)
  = inr (response_of (js "orders.sql") "latin1" (js "SELECT 1;")) /\
  Utf8.well_formed (js "SELECT 1;") = true /\
  Utf8.toString (Utf8.encode (js "SELECT 1;")) = js "SELECT 1;".
Proof.
  intros decoder data.
  assert (Hr : outcome (convertToUtf8 decoder IconvLite.ascii_toUpperCase data)
               = inr (response_of (js "orders.sql") "latin1" (js "SELECT 1;")))
    by reflexivity.
  split; [exact Hr |]. split; [reflexivity |].
  destruct (C7_round_trip_of_well_formed_text decoder IconvLite.ascii_toUpperCase data _ Hr)
    as (content & text & Hc & Hd & _ & Hround).
  injection Hc as <-. vm_compute in Hd. injection Hd as <-.
  apply Hround. reflexivity.
Defined.

(** C7 as stated fails: a UTF-16LE buffer holding the single unit
    U+DC00, a surrogate with no pair, is decoded to that unit; its UTF-8
    encoding is the three bytes of U+FFFD, and decoding them as UTF-8
    gives U+FFFD, not the text. *)
Lemma C7_lone_surrogate_not_restored :
  let decoder := IconvLite.decode IconvLite.latin1_high in
  let data := {| filePath := Some (js "x.sql"); fileContent := Some (js "ANw=");
                 sourceEncoding := Some "utf-16le"%string |} in
  Base64.decode (js "ANw=") = [0x00; 0xDC] /\
  outcome (convertToUtf8 decoder IconvLite.ascii_toUpperCase data)
  = inr (response_of (js "x.sql") "utf-16le" [0xDC00]) /\
  Utf8.encode [0xDC00] = [0xEF; 0xBF; 0xBD] /\
  Utf8.toString (Utf8.encode [0xDC00]) = [0xFFFD] /\
  decoder (Utf8.encode [0xDC00]) "utf8"%string = Decoded [0xFFFD] /\
  jsstring_eqb [0xFFFD] [0xDC00] = false.
Proof. vm_compute. repeat split. Qed.

(** ** UTF-8 on 7-bit text *)

(** The decoder of UTF-8 leaves 7-bit bytes as they are. *)
Lemma run_7bit (buffer : Buffer) :
  Forall (fun b => b < 0x80) buffer -> Utf8.run Utf8.Start buffer = buffer.
Proof.
  induction 1 as [| b buffer Hb _ IH]; [reflexivity |].
  rewrite run_cons. cbn [Utf8.step]. rewrite start_byte_ascii by lia.
  cbn [fst snd app]. now rewrite IH.
Qed.

Lemma stripBOM_Forall (P : Z -> Prop) (s : jsstring) :
  Forall P s -> Forall P (IconvLite.stripBOM s).
Proof.
  intros H. destruct s as [| c rest]; [exact H |]. cbn [IconvLite.stripBOM].
  destruct (c =? IconvLite.BOMChar); [now apply Forall_inv_tail in H | exact H].
Qed.

(** The UTF-16 and UTF-32 readings of bytes between 0x01 and 0x7F have no
    ASCII character: every code unit of UTF-16 is above 0x100, and every
    group of four bytes is above U+10FFFF and is read as U+FFFD. *)
Lemma utf16le_no_ascii (n : nat) (buffer : Buffer) :
  (length buffer <= n)%nat ->
  Forall (fun b => 1 <= b < 0x80) buffer ->
  Forall (fun c => 0x80 <= c) (IconvLite.utf16le buffer).
Proof.
  revert buffer. induction n as [| n IH]; intros buffer Hlen Hb.
  - destruct buffer; [constructor | cbn [length] in Hlen; lia].
  - destruct buffer as [| lo [| hi rest]]; [constructor | constructor |].
    pose proof (Forall_inv Hb) as Hlo.
    pose proof (Forall_inv (Forall_inv_tail Hb)) as Hhi. cbn beta in Hlo, Hhi.
    cbn [IconvLite.utf16le]. constructor; [lia |].
    apply IH; [cbn [length] in Hlen; lia |].
    exact (Forall_inv_tail (Forall_inv_tail Hb)).
Qed.

Lemma utf16be_no_ascii (n : nat) (buffer : Buffer) :
  (length buffer <= n)%nat ->
  Forall (fun b => 1 <= b < 0x80) buffer ->
  Forall (fun c => 0x80 <= c) (IconvLite.utf16be buffer).
Proof.
  revert buffer. induction n as [| n IH]; intros buffer Hlen Hb.
  - destruct buffer; [constructor | cbn [length] in Hlen; lia].
  - destruct buffer as [| hi [| lo rest]]; [constructor | constructor |].
    pose proof (Forall_inv Hb) as Hhi.
    pose proof (Forall_inv (Forall_inv_tail Hb)) as Hlo. cbn beta in Hlo, Hhi.
    cbn [IconvLite.utf16be]. constructor; [lia |].
    apply IH; [cbn [length] in Hlen; lia |].
    exact (Forall_inv_tail (Forall_inv_tail Hb)).
Qed.

Lemma writeCodepoint_beyond (codepoint : Z) :
  0x10FFFF < codepoint -> IconvLite.writeCodepoint codepoint = [0xFFFD].
Proof.
  intros H. unfold IconvLite.writeCodepoint.
  destruct (Z.ltb_spec codepoint 0); [lia |].
  destruct (Z.gtb_spec codepoint 0x10FFFF); [| lia]. reflexivity.
Qed.

Lemma utf32le_no_ascii (n : nat) (buffer : Buffer) :
  (length buffer <= n)%nat ->
  Forall (fun b => 1 <= b < 0x80) buffer ->
  Forall (fun c => 0x80 <= c) (IconvLite.utf32le buffer).
Proof.
  revert buffer. induction n as [| n IH]; intros buffer Hlen Hb.
  - destruct buffer; [constructor | cbn [length] in Hlen; lia].
  - destruct buffer as [| b0 [| b1 [| b2 [| b3 rest]]]]; try constructor.
    pose proof (Forall_inv Hb) as H0.
    pose proof (Forall_inv (Forall_inv_tail Hb)) as H1.
    pose proof (Forall_inv (Forall_inv_tail (Forall_inv_tail Hb))) as H2.
    pose proof (Forall_inv (Forall_inv_tail (Forall_inv_tail (Forall_inv_tail Hb)))) as H3.
    cbn beta in H0, H1, H2, H3.
    cbn [IconvLite.utf32le]. rewrite writeCodepoint_beyond by lia. cbn [app].
    constructor; [lia |].
    apply IH; [cbn [length] in Hlen; lia |].
    exact (Forall_inv_tail (Forall_inv_tail (Forall_inv_tail (Forall_inv_tail Hb)))).
Qed.

Lemma utf32be_no_ascii (n : nat) (buffer : Buffer) :
  (length buffer <= n)%nat ->
  Forall (fun b => 1 <= b < 0x80) buffer ->
  Forall (fun c => 0x80 <= c) (IconvLite.utf32be buffer).
Proof.
  revert buffer. induction n as [| n IH]; intros buffer Hlen Hb.
  - destruct buffer; [constructor | cbn [length] in Hlen; lia].
  - destruct buffer as [| b3 [| b2 [| b1 [| b0 rest]]]]; try constructor.
    pose proof (Forall_inv Hb) as H3.
    pose proof (Forall_inv (Forall_inv_tail Hb)) as H2.
    pose proof (Forall_inv (Forall_inv_tail (Forall_inv_tail Hb))) as H1.
    pose proof (Forall_inv (Forall_inv_tail (Forall_inv_tail (Forall_inv_tail Hb)))) as H0.
    cbn beta in H0, H1, H2, H3.
    cbn [IconvLite.utf32be]. rewrite writeCodepoint_beyond by lia. cbn [app].
    constructor; [lia |].
    apply IH; [cbn [length] in Hlen; lia |].
    exact (Forall_inv_tail (Forall_inv_tail (Forall_inv_tail (Forall_inv_tail Hb)))).
Qed.

Lemma filter_none {A} (f : A -> bool) (l : list A) :
  (forall x, In x l -> f x = false) -> filter f l = [].
Proof.
  induction l as [| x l IH]; intros H; [reflexivity |]. cbn [filter].
  rewrite (H x (or_introl eq_refl)). apply IH. intros y Hy. apply H. now right.
Qed.

Lemma occurrences_absent (c : Z) (s : jsstring) (P : Z -> Prop) :
  Forall P s -> ~ P c -> occurrences c s = 0.
Proof.
  intros Hs Hc. unfold occurrences.
  induction Hs as [| x s Hx _ IH]; [reflexivity |]. cbn [count_occ].
  destruct (Z.eq_dec x c) as [-> | _]; [contradiction | exact IH].
Qed.

(** [toUpperCase] on the letters a-z finds no keyword in a text that has
    no ASCII character. *)
Lemma ascii_toUpperCase_no_keyword (d k : jsstring) :
  Forall (fun c => 0x80 <= c) d -> In k sqlKeywords ->
  includes (IconvLite.ascii_toUpperCase d) k = false.
Proof.
  intros Hd Hk.
  assert (Hsame : IconvLite.ascii_toUpperCase d = d).
  { unfold IconvLite.ascii_toUpperCase. rewrite <- (map_id d) at 2.
    apply map_ext_in. intros c Hc. rewrite Forall_forall in Hd. specialize (Hd c Hc).
    destruct (Z.leb_spec c 122); [lia |]. now rewrite andb_false_r. }
  rewrite Hsame. destruct (includes d k) eqn:Hinc; [| reflexivity]. exfalso.
  apply includes_occurs in Hinc. destruct Hinc as (pre & post & ->).
  apply Forall_app in Hd. destruct Hd as [_ Hd].
  apply Forall_app in Hd. destruct Hd as [Hd _].
  unfold sqlKeywords in Hk. cbn [map In] in Hk.
  repeat (destruct Hk as [<- | Hk]; [apply Forall_inv in Hd; cbn in Hd; lia |]).
  destruct Hk.
Qed.

Section Utf8_on_ascii.

Variable high : string -> Z -> Z.
Variable toUpperCase : jsstring -> jsstring.

(** Upper-casing a text with no ASCII character gives none of the
    keywords. *)
Hypothesis toUpperCase_no_keyword :
  forall d k, Forall (fun c => 0x80 <= c) d -> In k sqlKeywords ->
              includes (toUpperCase d) k = false.

Local Abbreviation decoder := (IconvLite.decode high).
Local Abbreviation score := (score_of toUpperCase).

(** A text with no ASCII character scores 180 at most. *)
Lemma score_no_ascii (d : jsstring) :
  Forall (fun c => 0x80 <= c) d -> score d <= 180.
Proof.
  intros Hd. rewrite score_of_terms, replacementCharCount_occurrences.
  assert (HK : sqlKeywordCount toUpperCase d = 0).
  { unfold sqlKeywordCount. rewrite count_fold.
    rewrite (filter_none (includes (toUpperCase d)) sqlKeywords); [reflexivity |].
    intros k Hk. now apply toUpperCase_no_keyword. }
  assert (HC : sqlCharCount d = 0).
  { rewrite sqlCharCount_occurrences.
    rewrite !(occurrences_absent _ d _ Hd) by (cbn beta; lia). reflexivity. }
  rewrite HK, HC.
  assert (0 <= occurrences 0xFFFD d) by (unfold occurrences; lia).
  destruct (Z.eqb_spec (occurrences 0xFFFD d) 0),
    (0 <? String_length d), (Number_gt (printableRatio d) (8 # 10)); lia.
Qed.

(** UTF-8 reads 7-bit bytes as the characters of the same values. *)
Lemma utf8_reading_of_ascii (buffer : Buffer) :
  Forall (fun b => b < 0x80) buffer -> decoder buffer "utf8" = Decoded buffer.
Proof.
  intros H7. unfold IconvLite.decode.
  cbn [IconvLite.is_in existsb String.eqb Ascii.eqb Bool.eqb orb].
  unfold Utf8.toString. rewrite run_7bit by exact H7.
  destruct buffer as [| b rest]; [reflexivity |]. cbn [IconvLite.stripBOM].
  apply Forall_inv in H7. unfold IconvLite.BOMChar.
  destruct (Z.eqb_spec b 0xFEFF); [lia | reflexivity].
Qed.

(** What each candidate of the catalog makes of bytes between 0x01 and
    0x7F: the bytes themselves, or a text with no ASCII character. *)
Lemma readings_of_ascii (buffer : Buffer) (e : string) (d : jsstring) :
  Forall (fun b => 1 <= b < 0x80) buffer ->
  In e encodingsToTry -> decoder buffer e = Decoded d ->
  d = buffer \/ Forall (fun c => 0x80 <= c) d.
Proof.
  intros Hb Hin Hd.
  assert (H7 : Forall (fun b => b < 0x80) buffer).
  { eapply Forall_impl; [| exact Hb]. cbn beta. intros; lia. }
  pose proof (utf8_reading_of_ascii buffer H7) as Hutf8.
  unfold IconvLite.decode in Hutf8.
  cbn [IconvLite.is_in existsb String.eqb Ascii.eqb Bool.eqb orb] in Hutf8.
  injection Hutf8 as Hutf8.
  assert (Hpage : forall name,
            map (fun b => if b <? 0x80 then b else high name b) buffer = buffer).
  { intros name. rewrite <- (map_id buffer) at 2. apply map_ext_in. intros b Hinb.
    rewrite Forall_forall in H7. specialize (H7 b Hinb).
    destruct (Z.ltb_spec b 0x80); [reflexivity | lia]. }
  unfold encodingsToTry in Hin. cbn [In] in Hin. unfold IconvLite.decode in Hd.
  repeat (destruct Hin as [<- | Hin];
    [cbn [IconvLite.is_in IconvLite.single_byte_pages existsb String.eqb Ascii.eqb
            Bool.eqb orb] in Hd;
     injection Hd as <-;
     first [ left; exact Hutf8
           | left; apply Hpage
           | right; apply stripBOM_Forall;
             first [ now apply (utf16le_no_ascii (length buffer))
                   | now apply (utf16be_no_ascii (length buffer))
                   | now apply (utf32le_no_ascii (length buffer))
                   | now apply (utf32be_no_ascii (length buffer)) ] ] |]).
  destruct Hin.
Qed.

(** C6: a buffer that is not empty, whose bytes are all below 0x80 (so
    that UTF-8 and the single-byte pages read the same text, the bytes
    themselves), with no control character outside white space, and of
    whose characters more than 0.8 are outside the ranges 0x00-0x1F and
    0x7F-0x9F: its UTF-8 reading scores 180 or more, which is above the
    150 of the claim; the detection returns utf8 with that score; and a
    request with no encoding is answered with utf8 and that text. *)
Theorem C6_utf8_for_printable_ascii (buffer : Buffer) :
  buffer <> [] ->
  Forall unambiguous buffer ->
  Forall no_stray_control buffer ->
  8 * String_length buffer < 10 * Z.of_nat (length (filter printable buffer)) ->
  IconvLite.decode high buffer "utf8" = Decoded buffer /\
  150 <= score_of toUpperCase buffer /\
  180 <= score_of toUpperCase buffer /\
  outcome (detect (IconvLite.decode high) toUpperCase buffer)
  = inr ("utf8"%string, score_of toUpperCase buffer) /\
  forall data path content,
    accepted data path content -> no_hint data -> Base64.decode content = buffer ->
    outcome (convertToUtf8 (IconvLite.decode high) toUpperCase data)
    = inr (response_of path "utf8" buffer).
Proof.
  intros Hne Hu Hc Hratio.
  assert (H7 : Forall (fun b => b < 0x80) buffer).
  { eapply Forall_impl; [| exact Hu]. unfold unambiguous. intros; lia. }
  assert (Hb : Forall (fun b => 1 <= b < 0x80) buffer).
  { apply Forall_forall. intros b Hin. rewrite Forall_forall in Hu, Hc.
    specialize (Hu b Hin). specialize (Hc b Hin).
    unfold unambiguous in Hu. unfold no_stray_control, whitespace_control in Hc.
    destruct (Z.eq_dec b 0) as [-> | Hb0]; [| lia].
    specialize (Hc eq_refl). lia. }
  pose proof (utf8_reading_of_ascii buffer H7) as Hd8.
  assert (Hclean : occurrences 0xFFFD buffer = 0)
    by (apply (occurrences_absent _ _ _ H7); cbn beta; lia).
  assert (H180 : 180 <= score buffer).
  { rewrite score_of_terms, replacementCharCount_occurrences, Hclean.
    pose proof (sqlKeywordCount_range toUpperCase buffer).
    pose proof (sqlCharCount_nonneg buffer).
    pose proof (printableChars_le buffer) as Hp.
    assert (Hlen : 0 < String_length buffer).
    { unfold String_length. destruct buffer; [contradiction | cbn [length]; lia]. }
    unfold printableRatio. rewrite (ratio_gt _ _ Hp), printableChars_filter.
    destruct (Z.ltb_spec 0 (String_length buffer)); [| lia].
    destruct (Z.ltb_spec (8 * String_length buffer)
                (10 * Z.of_nat (length (filter printable buffer)))); [| lia].
    cbn [Z.eqb andb]. lia. }
  assert (Hdet : outcome (detect decoder toUpperCase buffer)
                 = inr ("utf8"%string, score buffer)).
  { apply (utf8_unless_outscored decoder toUpperCase buffer buffer Hd8 Hne Hclean).
    intros e d Hin Hd.
    destruct (readings_of_ascii buffer e d Hb Hin Hd) as [-> | Hno]; [now left |].
    right. right. pose proof (score_no_ascii d Hno). lia. }
  split; [exact Hd8 |]. split; [lia |]. split; [exact H180 |]. split; [exact Hdet |].
  intros data path content Hacc Hno Hbuf.
  rewrite detect_outcome in Hdet. injection Hdet as Hbest.
  rewrite (convertToUtf8_detect decoder toUpperCase data path content Hacc Hno).
  cbn zeta. rewrite Hbuf, Hbest. cbn [fst]. unfold outcome, finish. cbn [fst].
  now rewrite Hd8.
Qed.

End Utf8_on_ascii.

(** C6 on the nine bytes of [SELECT 1;], all of them printable. *)
Lemma C6_utf8_for_printable_ascii_witness :
  let decoder := IconvLite.decode IconvLite.latin1_high in
  js "SELECT 1;" <> [] /\
  Forall unambiguous (js "SELECT 1;") /\
  Forall no_stray_control (js "SELECT 1;") /\
  8 * String_length (js "SELECT 1;")
  < 10 * Z.of_nat (length (filter printable (js "SELECT 1;"))) /\
  outcome (detect decoder IconvLite.ascii_toUpperCase (js "SELECT 1;"))
  = inr ("utf8"%string, 186).
Proof.
  intros decoder.
  assert (Hne : js "SELECT 1;" <> []) by discriminate.
  assert (Hu : Forall unambiguous (js "SELECT 1;")).
  { change (js "SELECT 1;") with [83; 69; 76; 69; 67; 84; 32; 49; 59].
    repeat (apply Forall_cons; [unfold unambiguous; lia |]). apply Forall_nil. }
  assert (Hc : Forall no_stray_control (js "SELECT 1;")).
  { change (js "SELECT 1;") with [83; 69; 76; 69; 67; 84; 32; 49; 59].
    repeat (apply Forall_cons; [intros H; discriminate H |]). apply Forall_nil. }
  assert (Hratio : 8 * String_length (js "SELECT 1;")
                   < 10 * Z.of_nat (length (filter printable (js "SELECT 1;"))))
    by (vm_compute; reflexivity).
  split; [exact Hne |]. split; [exact Hu |]. split; [exact Hc |]. split; [exact Hratio |].
  destruct (C6_utf8_for_printable_ascii IconvLite.latin1_high IconvLite.ascii_toUpperCase
              ascii_toUpperCase_no_keyword (js "SELECT 1;") Hne Hu Hc Hratio)
    as (_ & _ & _ & Hdet & _).
  unfold decoder. rewrite Hdet. reflexivity.
Defined.

(** * Further properties of the handler *)


(** ** The outcomes of the handler *)

Section Outcome_facts.

Variable iconv_decode : Buffer -> string -> decode_result.
Variable toUpperCase : jsstring -> jsstring.

Local Abbreviation handler := (convertToUtf8 iconv_decode toUpperCase).

(** X1: A request that fails a check is answered by the error of the first
    check it fails, logged once and thrown again as it is: nothing else
    is logged and the decoder is not called. *)
Theorem rejected_at_the_first_failed_check (data : request) :
  (missing (filePath data) ->
   convertToUtf8 iconv_decode toUpperCase data
   = (inl (HttpsError invalid_argument "File path is required"),
      [loggerService_error "File path is required"])) /\
  (forall p, filePath data = Some p -> p <> [] -> missing (fileContent data) ->
   convertToUtf8 iconv_decode toUpperCase data
   = (inl (HttpsError invalid_argument "File content is required"),
      [loggerService_error "File content is required"])) /\
  (forall p c, filePath data = Some p -> p <> [] ->
               fileContent data = Some c -> c <> [] ->
               endsWith p (js ".sql") = false ->
   convertToUtf8 iconv_decode toUpperCase data
   = (inl (HttpsError invalid_argument "File must have .sql extension"),
      [loggerService_error "File must have .sql extension"])).
Proof.
  unfold convertToUtf8. split; [| split].
  - intros [-> | ->]; reflexivity.
  - intros p -> Hp [-> | ->]; (destruct p; [contradiction | reflexivity]).
  - intros p c -> Hp -> Hc Hsql.
    destruct p; [contradiction |]. destruct c; [contradiction |].
    rewrite Hsql. reflexivity.
Qed.

Lemma accepted_dec (data : request) :
  (exists path content, accepted data path content)
  \/ (exists m, handler data = (inl (HttpsError invalid_argument m), [loggerService_error m])).
Proof.
  unfold convertToUtf8.
  destruct (filePath data) as [[| p0 p] |] eqn:Hp;
    try (right; eexists; reflexivity).
  destruct (fileContent data) as [[| c0 c] |] eqn:Hc;
    try (right; eexists; reflexivity).
  destruct (endsWith (p0 :: p) (js ".sql")) eqn:Hsql.
  - left. exists (p0 :: p), (c0 :: c). repeat split; try discriminate; assumption.
  - right. eexists. reflexivity.
Qed.

(** An accepted request ends as its final decoding does. *)
Lemma accepted_run (data : request) (path content : jsstring) :
  accepted data path content ->
  exists e before,
    handler data
    = (fst (finish iconv_decode path (Base64.decode content) e),
       before ++ snd (finish iconv_decode path (Base64.decode content) e))
    /\ errors_logged before = []
    /\ (forall h, sourceEncoding data = Some h -> h <> ""%string -> e = h)
    /\ (no_hint data -> e = fst (best_of iconv_decode toUpperCase (Base64.decode content))).
Proof.
  intros Hacc.
  assert (Hcases : no_hint data \/ exists h, sourceEncoding data = Some h /\ h <> ""%string).
  { unfold no_hint. destruct (sourceEncoding data) as [h |]; [| now left; left].
    destruct (String.eqb_spec h "") as [-> | Hne]; [now left; right |].
    right. now exists h. }
  destruct Hcases as [Hno | (h & Hh & Hne)].
  - exists (fst (best_of iconv_decode toUpperCase (Base64.decode content))),
      (loggerService_info (Starting path "auto-detect")
         :: flat_map (candidate_events iconv_decode toUpperCase (Base64.decode content))
              encodingsToTry
         ++ [loggerService_info
               (AutoDetectionCompleted
                  (fst (best_of iconv_decode toUpperCase (Base64.decode content)))
                  (snd (best_of iconv_decode toUpperCase (Base64.decode content)))
                  (Z.of_nat (length encodingsToTry)))]).
    split; [| split; [| split]].
    + rewrite (convertToUtf8_detect iconv_decode toUpperCase data path content Hacc Hno).
      cbn zeta. unfold outcome, events. f_equal. cbn [app]. f_equal.
      rewrite <- app_assoc. reflexivity.
    + change (errors_logged (?x :: ?t)) with (errors_logged [x] ++ errors_logged t).
      rewrite events_app_errors, errors_candidates. reflexivity.
    + intros h Hh Hne. destruct Hno as [Hn | Hn]; rewrite Hn in Hh; congruence.
    + reflexivity.
  - exists h, [loggerService_info (Starting path h)]. split; [| split; [| split]].
    + rewrite (convertToUtf8_hint iconv_decode toUpperCase data path content h Hacc Hh Hne).
      reflexivity.
    + reflexivity.
    + intros h' Hh' _. congruence.
    + intros [Hn | Hn]; rewrite Hn in Hh; congruence.
Qed.

(** X2: Whatever the request, the handler returns an answer or throws an
    [HttpsError], never a plain [Error].  An answer comes with no error
    entry in the log; a failure comes with exactly one, the message of
    its cause, which is the message thrown for a failed check and is
    wrapped in an internal error for anything else. *)
Theorem failures_are_HttpsErrors_logged_once (data : request) :
  match outcome (convertToUtf8 iconv_decode toUpperCase data) with
  | inr r =>
      errors_logged (events (convertToUtf8 iconv_decode toUpperCase data)) = [] /\
      success r = true
  | inl (HttpsError code m) =>
      exists cause,
        errors_logged (events (convertToUtf8 iconv_decode toUpperCase data)) = [cause] /\
        ((code = invalid_argument /\ m = cause) \/
         (code = internal /\ m = ("Failed to convert file to UTF-8: " ++ cause)%string))
  | inl (Error _) => False
  end.
Proof.
  destruct (accepted_dec data) as [(path & content & Hacc) | (m & Hrej)].
  - destruct (accepted_run data path content Hacc) as (e & before & Hrun & Hbefore & _).
    rewrite Hrun. unfold outcome, events. cbn [fst snd].
    rewrite events_app_errors, Hbefore. cbn [app]. unfold finish.
    destruct (iconv_decode (Base64.decode content) e) as [text | cause]; cbn [fst snd].
    + split; reflexivity.
    + exists cause. split; [reflexivity |]. right. split; reflexivity.
  - rewrite Hrej. cbn [outcome events fst snd]. exists m. split; [reflexivity |].
    left. split; reflexivity.
Qed.

End Outcome_facts.

(** A request for [notes.txt] fails the third check. *)
Lemma rejected_at_the_first_failed_check_witness :
  let decoder := IconvLite.decode IconvLite.latin1_high in
  let data := {| filePath := Some (js "notes.txt"); fileContent := Some (js "U0VMRUNUIDE7");
                 sourceEncoding := None |} in
  endsWith (js "notes.txt") (js ".sql") = false /\
  convertToUtf8 decoder IconvLite.ascii_toUpperCase data
  = (inl (HttpsError invalid_argument "File must have .sql extension"),
     [loggerService_error "File must have .sql extension"]).
Proof.
  intros decoder data. split; [reflexivity |].
  destruct (rejected_at_the_first_failed_check decoder IconvLite.ascii_toUpperCase data)
    as (_ & _ & H).
  apply (H (js "notes.txt") (js "U0VMRUNUIDE7")); try reflexivity; discriminate.
Defined.

(** ** The detection as a whole *)

Section Detection_facts.

Variable iconv_decode : Buffer -> string -> decode_result.
Variable toUpperCase : jsstring -> jsstring.
Variable buffer : Buffer.

Local Abbreviation best := (best_of iconv_decode toUpperCase buffer).

(** The calls of a request with no encoding: the catalog, then the
    encoding chosen. *)
Lemma detection_decode_calls (data : request) (path content : jsstring) :
  accepted data path content -> no_hint data -> Base64.decode content = buffer ->
  decode_calls (events (convertToUtf8 iconv_decode toUpperCase data))
  = map (fun e => (buffer, e)) encodingsToTry
    ++ [(buffer, fst (best_of iconv_decode toUpperCase buffer))].
Proof.
  intros Hacc Hno Hbuf.
  rewrite (convertToUtf8_detect iconv_decode toUpperCase data path content Hacc Hno).
  cbn zeta. rewrite Hbuf. unfold events. cbn [snd].
  change (decode_calls (?x :: ?t)) with (decode_calls [x] ++ decode_calls t).
  rewrite events_app_decode_calls, decode_calls_candidates.
  change (decode_calls (?x :: ?t)) with (decode_calls [x] ++ decode_calls t).
  rewrite finish_decode_calls. reflexivity.
Qed.

(** X3: The loop has no early exit: the decoder is called once for each
    candidate, in the order of the catalog, whatever the calls return;
    one candidate is scored for each call that succeeds; and a request
    with no encoding makes one more call, for the encoding chosen. *)
Theorem every_candidate_is_tried_once :
  decode_calls (events (detect iconv_decode toUpperCase buffer))
  = map (fun e => (buffer, e)) encodingsToTry /\
  attempts (events (detect iconv_decode toUpperCase buffer))
  = flat_map (fun e => match iconv_decode buffer e with
                       | Decoded d => [scored toUpperCase e d]
                       | Throws _ => []
                       end) encodingsToTry /\
  forall data path content,
    accepted data path content -> no_hint data -> Base64.decode content = buffer ->
    decode_calls (events (convertToUtf8 iconv_decode toUpperCase data))
    = map (fun e => (buffer, e)) encodingsToTry
      ++ [(buffer, fst (best_of iconv_decode toUpperCase buffer))].
Proof.
  split; [| split].
  - rewrite detect_fold. unfold events. cbn [snd].
    rewrite events_app_decode_calls, decode_calls_candidates. apply app_nil_r.
  - rewrite detect_fold. unfold events. cbn [snd].
    rewrite events_app_attempts, attempts_candidates. apply app_nil_r.
  - intros data path content. apply detection_decode_calls.
Qed.

(** X4: The detection returns a maximum: no decoded candidate scores above
    the best score; a positive best score is the score of the text that
    the encoding returned decodes to; and a best score of 0 comes with
    the initial utf8. *)
Theorem best_score_is_the_maximum :
  outcome (detect iconv_decode toUpperCase buffer)
  = inr (best_of iconv_decode toUpperCase buffer) /\
  (forall e d, In e encodingsToTry -> iconv_decode buffer e = Decoded d ->
               score_of toUpperCase d <= snd (best_of iconv_decode toUpperCase buffer)) /\
  (0 < snd (best_of iconv_decode toUpperCase buffer) ->
   exists d, In (fst (best_of iconv_decode toUpperCase buffer)) encodingsToTry /\
             iconv_decode buffer (fst (best_of iconv_decode toUpperCase buffer)) = Decoded d /\
             score_of toUpperCase d = snd (best_of iconv_decode toUpperCase buffer)) /\
  (snd (best_of iconv_decode toUpperCase buffer) <= 0 ->
   best_of iconv_decode toUpperCase buffer = ("utf8"%string, 0)).
Proof.
  split; [apply detect_outcome |]. unfold best_of.
  pose proof (fold_upper iconv_decode toUpperCase buffer encodingsToTry
                ("utf8"%string, 0)) as Hup.
  pose proof (fold_origin iconv_decode toUpperCase buffer encodingsToTry
                ("utf8"%string, 0)) as Horigin.
  remember (fold_left (select iconv_decode toUpperCase buffer) encodingsToTry
              ("utf8"%string, 0)) as b eqn:Hb.
  clear Hb. cbn [snd] in Horigin. split; [| split].
  - intros e d. apply Hup.
  - intros Hpos. destruct Horigin as [Heq | (d & Hin & Hd & Hsc & _)].
    + rewrite Heq in Hpos. cbn [snd] in Hpos. lia.
    + exists d. auto.
  - intros Hle. destruct Horigin as [Heq | (d & _ & _ & Hsc & Hlt)]; [exact Heq | lia].
Qed.

(** X5: A score is at most 250, at least 100 for a text with no U+FFFD, and
    at least 50 minus ten times the number of U+FFFD otherwise; so the
    best score lies between 0 and 250, and the encoding it comes with is
    always a name of the catalog. *)
Theorem scores_are_bounded :
  (forall decoded,
     score_of toUpperCase decoded <= 250 /\
     (occurrences 0xFFFD decoded = 0 -> 100 <= score_of toUpperCase decoded) /\
     (0 < occurrences 0xFFFD decoded ->
      50 - 10 * occurrences 0xFFFD decoded <= score_of toUpperCase decoded)) /\
  0 <= snd (best_of iconv_decode toUpperCase buffer) <= 250 /\
  In (fst (best_of iconv_decode toUpperCase buffer)) encodingsToTry.
Proof.
  assert (Hscore : forall decoded,
     score_of toUpperCase decoded <= 250 /\
     (occurrences 0xFFFD decoded = 0 -> 100 <= score_of toUpperCase decoded) /\
     (0 < occurrences 0xFFFD decoded ->
      50 - 10 * occurrences 0xFFFD decoded <= score_of toUpperCase decoded)).
  { intros decoded. rewrite score_of_terms, replacementCharCount_occurrences.
    pose proof (sqlKeywordCount_range toUpperCase decoded) as Hk.
    pose proof (sqlCharCount_nonneg decoded) as Hc.
    assert (Hocc : 0 <= occurrences 0xFFFD decoded) by (unfold occurrences; lia).
    assert (Hlen : 0 < occurrences 0xFFFD decoded -> 0 < String_length decoded).
    { unfold occurrences, String_length. destruct decoded; cbn [count_occ length]; lia. }
    destruct (Z.eqb_spec (occurrences 0xFFFD decoded) 0) as [H0 | H0];
      destruct (Z.ltb_spec 0 (String_length decoded));
      destruct (Number_gt (printableRatio decoded) (8 # 10)); repeat split; lia. }
  split; [exact Hscore |].
  unfold best_of.
  pose proof (fold_score_mono iconv_decode toUpperCase buffer encodingsToTry
                ("utf8"%string, 0)) as Hmono.
  pose proof (fold_origin iconv_decode toUpperCase buffer encodingsToTry
                ("utf8"%string, 0)) as Horigin.
  remember (fold_left (select iconv_decode toUpperCase buffer) encodingsToTry
              ("utf8"%string, 0)) as b eqn:Hb.
  clear Hb. cbn [snd] in Hmono, Horigin.
  destruct Horigin as [Heq | (d & Hin & _ & Hsc & _)].
  - rewrite Heq. cbn [fst snd]. split; [lia |]. unfold encodingsToTry. now left.
  - split; [| exact Hin]. rewrite <- Hsc. destruct (Hscore d) as [H250 _]. lia.
Qed.

(** X6: A reading with a replacement character never wins over a clean one:
    when some candidate decodes the buffer to a text that is not empty
    and has no U+FFFD, the encoding returned decodes it to a text with no
    U+FFFD either, and its score is 150 or more. *)
Theorem clean_reading_is_preferred (e : string) (d : jsstring) :
  In e encodingsToTry ->
  iconv_decode buffer e = Decoded d ->
  d <> [] -> occurrences 0xFFFD d = 0 ->
  exists text,
    iconv_decode buffer (fst (best_of iconv_decode toUpperCase buffer)) = Decoded text /\
    occurrences 0xFFFD text = 0 /\
    score_of toUpperCase text = snd (best_of iconv_decode toUpperCase buffer) /\
    150 <= snd (best_of iconv_decode toUpperCase buffer).
Proof.
  intros Hin Hd Hne Hclean.
  pose proof (score_clean_text toUpperCase d Hne Hclean) as H150.
  unfold best_of.
  pose proof (fold_upper iconv_decode toUpperCase buffer encodingsToTry
                ("utf8"%string, 0) e d Hin Hd) as Hup.
  pose proof (fold_origin iconv_decode toUpperCase buffer encodingsToTry
                ("utf8"%string, 0)) as Horigin.
  remember (fold_left (select iconv_decode toUpperCase buffer) encodingsToTry
              ("utf8"%string, 0)) as b eqn:Hb.
  clear Hb. cbn [snd] in Horigin.
  destruct Horigin as [Heq | (text & _ & Htext & Hsc & _)].
  - rewrite Heq in Hup. cbn [snd] in Hup. lia.
  - exists text. repeat split; try assumption; [| lia].
    assert (Hocc : 0 <= occurrences 0xFFFD text) by (unfold occurrences; lia).
    destruct (Z.eq_dec (occurrences 0xFFFD text) 0) as [H0 | H0]; [exact H0 |].
    pose proof (score_replaced_text toUpperCase text ltac:(lia)). lia.
Qed.

End Detection_facts.

(** The calls made for the nine bytes of [SELECT 1;], sent as
    [orders.sql] with no encoding. *)
Lemma every_candidate_is_tried_once_witness :
  let decoder := IconvLite.decode IconvLite.latin1_high in
  let data := {| filePath := Some (js "orders.sql"); fileContent := Some (js "U0VMRUNUIDE7");
                 sourceEncoding := None |} in
  accepted data (js "orders.sql") (js "U0VMRUNUIDE7") /\
  no_hint data /\
  Base64.decode (js "U0VMRUNUIDE7") = js "SELECT 1;" /\
  decode_calls (events (convertToUtf8 decoder IconvLite.ascii_toUpperCase data))
  = map (fun e => (js "SELECT 1;", e)) encodingsToTry
    ++ [(js "SELECT 1;",
         fst (best_of decoder IconvLite.ascii_toUpperCase (js "SELECT 1;")))].
Proof.
  intros decoder data.
  assert (Hacc : accepted data (js "orders.sql") (js "U0VMRUNUIDE7"))
    by (repeat split; discriminate || reflexivity).
  assert (Hno : no_hint data) by (now left).
  split; [exact Hacc |]. split; [exact Hno |]. split; [reflexivity |].
  destruct (every_candidate_is_tried_once decoder IconvLite.ascii_toUpperCase (js "SELECT 1;"))
    as (_ & _ & H).
  exact (H data _ _ Hacc Hno eq_refl).
Defined.

(** The detection on the bytes of [SELECT 1;]: the best score, 186, is
    that of the utf8 reading. *)
Lemma best_score_is_the_maximum_witness :
  let decoder := IconvLite.decode IconvLite.latin1_high in
  best_of decoder IconvLite.ascii_toUpperCase (js "SELECT 1;") = ("utf8"%string, 186) /\
  exists d, decoder (js "SELECT 1;") "utf8"%string = Decoded d /\
            score_of IconvLite.ascii_toUpperCase d = 186.
Proof.
  intros decoder.
  assert (Hbest : best_of decoder IconvLite.ascii_toUpperCase (js "SELECT 1;")
                  = ("utf8"%string, 186)) by (vm_compute; reflexivity).
  split; [exact Hbest |].
  pose proof (best_score_is_the_maximum decoder IconvLite.ascii_toUpperCase (js "SELECT 1;"))
    as (_ & _ & H & _).
  remember (best_of decoder IconvLite.ascii_toUpperCase (js "SELECT 1;")) as b eqn:Hb.
  clear Hb. subst b. cbn [fst snd] in H.
  destruct (H ltac:(lia)) as (d & _ & Hd & Hs). now exists d.
Defined.

(** The bytes of [SELECT 1;] have a clean reading, as utf8. *)
Lemma clean_reading_is_preferred_witness :
  let decoder := IconvLite.decode IconvLite.latin1_high in
  In "utf8"%string encodingsToTry /\
  decoder (js "SELECT 1;") "utf8"%string = Decoded (js "SELECT 1;") /\
  occurrences 0xFFFD (js "SELECT 1;") = 0 /\
  exists text,
    decoder (js "SELECT 1;")
      (fst (best_of decoder IconvLite.ascii_toUpperCase (js "SELECT 1;"))) = Decoded text /\
    occurrences 0xFFFD text = 0 /\
    score_of IconvLite.ascii_toUpperCase text
    = snd (best_of decoder IconvLite.ascii_toUpperCase (js "SELECT 1;")) /\
    150 <= snd (best_of decoder IconvLite.ascii_toUpperCase (js "SELECT 1;")).
Proof.
  intros decoder.
  assert (Hin : In "utf8"%string encodingsToTry) by (now left).
  split; [exact Hin |]. split; [reflexivity |]. split; [reflexivity |].
  apply (clean_reading_is_preferred decoder IconvLite.ascii_toUpperCase (js "SELECT 1;")
           "utf8"%string (js "SELECT 1;") Hin eq_refl); [discriminate | reflexivity].
Defined.

(** The score of [SELECT 1;], a text with no U+FFFD. *)
Lemma scores_are_bounded_witness :
  occurrences 0xFFFD (js "SELECT 1;") = 0 /\
  100 <= score_of IconvLite.ascii_toUpperCase (js "SELECT 1;") <= 250.
Proof.
  destruct (scores_are_bounded (IconvLite.decode IconvLite.latin1_high)
              IconvLite.ascii_toUpperCase (js "SELECT 1;")) as [H _].
  destruct (H (js "SELECT 1;")) as (H250 & H100 & _).
  split; [reflexivity |]. split; [apply H100; reflexivity | exact H250].
Defined.

(** ** The detection with iconv-lite *)

Lemma single_byte_reading_is_clean (high : Z -> Z) (buffer : Buffer) :
  Forall is_byte buffer ->
  (forall b, 0x80 <= b <= 0xFF -> high b <> 0xFFFD) ->
  occurrences 0xFFFD (map (fun b => if b <? 0x80 then b else high b) buffer) = 0.
Proof.
  intros Hb Hhigh. unfold occurrences.
  induction Hb as [| b buffer Hbyte _ IH]; [reflexivity |].
  cbn [map count_occ]. unfold is_byte in Hbyte.
  destruct (Z.eq_dec (if b <? 0x80 then b else high b) 0xFFFD) as [Heq | _]; [| exact IH].
  exfalso. destruct (Z.ltb_spec b 0x80); [lia |]. apply (Hhigh b); [lia | exact Heq].
Qed.

(** X7: With iconv-lite the detection never settles for a reading with a
    replacement character: its ISO-8859-1 page maps every byte to a
    character, so for a buffer of bytes that is not empty the encoding
    detected decodes the buffer to a text with no U+FFFD, and the best
    score is 150 or more; the initial pair of utf8 and 0 is never what
    the detection returns. *)
Theorem iconv_lite_detection_finds_a_clean_reading
    (high : string -> Z -> Z) (toUpperCase : jsstring -> jsstring) (buffer : Buffer) :
  buffer <> [] -> Forall is_byte buffer ->
  (forall b, 0x80 <= b <= 0xFF -> high "iso-8859-1"%string b <> 0xFFFD) ->
  exists text,
    IconvLite.decode high buffer
      (fst (best_of (IconvLite.decode high) toUpperCase buffer)) = Decoded text /\
    occurrences 0xFFFD text = 0 /\
    score_of toUpperCase text = snd (best_of (IconvLite.decode high) toUpperCase buffer) /\
    150 <= snd (best_of (IconvLite.decode high) toUpperCase buffer).
Proof.
  intros Hne Hb Hhigh.
  set (d := map (fun b => if b <? 0x80 then b else high "iso-8859-1"%string b) buffer).
  assert (Hd : IconvLite.decode high buffer "iso-8859-1" = Decoded d) by reflexivity.
  assert (Hin : In "iso-8859-1"%string encodingsToTry)
    by (unfold encodingsToTry; cbn [In]; tauto).
  assert (Hdne : d <> []) by (unfold d; destruct buffer; [contradiction | discriminate]).
  assert (Hclean : occurrences 0xFFFD d = 0)
    by (apply single_byte_reading_is_clean; assumption).
  pose proof (score_clean_text toUpperCase d Hdne Hclean) as H150.
  unfold best_of.
  pose proof (fold_upper (IconvLite.decode high) toUpperCase buffer encodingsToTry
                ("utf8"%string, 0) "iso-8859-1"%string d Hin Hd) as Hup.
  pose proof (fold_origin (IconvLite.decode high) toUpperCase buffer encodingsToTry
                ("utf8"%string, 0)) as Horigin.
  remember (fold_left (select (IconvLite.decode high) toUpperCase buffer) encodingsToTry
              ("utf8"%string, 0)) as b eqn:Hbest.
  clear Hbest. cbn [snd] in Horigin.
  destruct Horigin as [Heq | (text & _ & Htext & Hsc & _)].
  - rewrite Heq in Hup. cbn [snd] in Hup. lia.
  - exists text. repeat split; try assumption; [| lia].
    assert (Hocc : 0 <= occurrences 0xFFFD text) by (unfold occurrences; lia).
    destruct (Z.eq_dec (occurrences 0xFFFD text) 0) as [H0 | H0]; [exact H0 |].
    pose proof (score_replaced_text toUpperCase text ltac:(lia)). lia.
Qed.

(** Two bytes that are not valid UTF-8, with the upper half of
    ISO-8859-1 for every page. *)
Lemma iconv_lite_detection_finds_a_clean_reading_witness :
  let decoder := IconvLite.decode IconvLite.latin1_high in
  decoder [0xE9; 0x3B] "utf8"%string = Decoded [0xFFFD; 0x3B] /\
  150 <= snd (best_of decoder IconvLite.ascii_toUpperCase [0xE9; 0x3B]) /\
  exists text,
    decoder [0xE9; 0x3B] (fst (best_of decoder IconvLite.ascii_toUpperCase [0xE9; 0x3B]))
    = Decoded text /\
    occurrences 0xFFFD text = 0.
Proof.
  intros decoder. split; [reflexivity |].
  destruct (iconv_lite_detection_finds_a_clean_reading IconvLite.latin1_high
              IconvLite.ascii_toUpperCase [0xE9; 0x3B])
    as (text & Hd & Hclean & _ & H150).
  - discriminate.
  - repeat (apply Forall_cons; [unfold is_byte; lia |]). apply Forall_nil.
  - intros b Hb. unfold IconvLite.latin1_high. lia.
  - split; [exact H150 |]. exists text. split; assumption.
Defined.

(** ** Base64 *)

Lemma base64_char_value (v : Z) :
  0 <= v < 64 ->
  (Base64.base64_char v =? 61) = false /\
  Base64.unbase64 (Base64.base64_char v) = Some v.
Proof.
  intros Hv. unfold Base64.base64_char.
  destruct (Z.ltb_spec v 26).
  { split; [apply Z.eqb_neq; lia |]. unfold Base64.unbase64.
    destruct (Z.leb_spec 65 (v + 65)); [| lia].
    destruct (Z.leb_spec (v + 65) 90); [| lia]. cbn [andb]. f_equal. lia. }
  destruct (Z.ltb_spec v 52).
  { split; [apply Z.eqb_neq; lia |]. unfold Base64.unbase64.
    destruct (Z.leb_spec (v + 71) 90); [lia |]. rewrite andb_false_r.
    destruct (Z.leb_spec 97 (v + 71)); [| lia].
    destruct (Z.leb_spec (v + 71) 122); [| lia]. cbn [andb]. f_equal. lia. }
  destruct (Z.ltb_spec v 62).
  { split; [apply Z.eqb_neq; lia |]. unfold Base64.unbase64.
    destruct (Z.leb_spec 65 (v - 4)); [lia |]. cbn [andb].
    destruct (Z.leb_spec 97 (v - 4)); [lia |]. cbn [andb].
    destruct (Z.leb_spec 48 (v - 4)); [| lia].
    destruct (Z.leb_spec (v - 4) 57); [| lia]. cbn [andb]. f_equal. lia. }
  destruct (Z.eqb_spec v 62) as [-> | Hne]; [split; reflexivity |].
  assert (v = 63) as -> by lia. split; reflexivity.
Qed.

Lemma sextets_char (v : Z) (rest : jsstring) :
  0 <= v < 64 ->
  Base64.sextets (Base64.base64_char v :: rest) = v :: Base64.sextets rest.
Proof.
  intros Hv. destruct (base64_char_value v Hv) as [H61 Hun].
  cbn [Base64.sextets]. now rewrite H61, Hun.
Qed.

Lemma decode_encode_bounded (n : nat) (bs : Buffer) :
  (length bs <= n)%nat -> Forall is_byte bs -> Base64.decode (Base64.encode bs) = bs.
Proof.
  unfold Base64.decode, is_byte. revert bs. induction n as [| n IH]; intros bs Hlen Hb.
  - destruct bs; [reflexivity | cbn [length] in Hlen; lia].
  - destruct bs as [| x [| y [| z rest]]].
    + reflexivity.
    + apply Forall_inv in Hb.
      cbn [Base64.encode]. rewrite !sextets_char by (Z.div_mod_to_equations; lia).
      cbn [Base64.sextets Z.eqb Pos.eqb Base64.bytes]. f_equal.
      Z.div_mod_to_equations; lia.
    + pose proof (Forall_inv Hb) as Hx. pose proof (Forall_inv (Forall_inv_tail Hb)) as Hy.
      cbn beta in Hx, Hy.
      cbn [Base64.encode]. rewrite !sextets_char by (Z.div_mod_to_equations; lia).
      cbn [Base64.sextets Z.eqb Pos.eqb Base64.bytes].
      f_equal; [| f_equal]; Z.div_mod_to_equations; lia.
    + pose proof (Forall_inv Hb) as Hx. pose proof (Forall_inv (Forall_inv_tail Hb)) as Hy.
      pose proof (Forall_inv (Forall_inv_tail (Forall_inv_tail Hb))) as Hz.
      pose proof (Forall_inv_tail (Forall_inv_tail (Forall_inv_tail Hb))) as Hrest.
      cbn beta in Hx, Hy, Hz.
      cbn [Base64.encode]. rewrite !sextets_char by (Z.div_mod_to_equations; lia).
      cbn [Base64.bytes]. rewrite IH by (cbn [length] in Hlen; auto; lia).
      f_equal; [| f_equal; [| f_equal]]; Z.div_mod_to_equations; lia.
Qed.

(** What [toString('base64')] writes, [Buffer.from(..., 'base64')] reads
    back. *)
Lemma Base64_decode_encode (bs : Buffer) :
  Forall is_byte bs -> Base64.decode (Base64.encode bs) = bs.
Proof. apply (decode_encode_bounded (length bs)). lia. Qed.

Lemma Base64_encode_nil (bs : Buffer) : Base64.encode bs = [] -> bs = [].
Proof. destruct bs as [| x [| y [| z rest]]]; [reflexivity | discriminate ..]. Qed.

(** ** UTF-8 *)

Section Utf8_bytes.

Import Utf8.

Lemma encode_code_point_bytes (cp : Z) :
  0 <= cp <= 0x10FFFF ->
  Forall is_byte (encode_code_point cp) /\
  (1 <= length (encode_code_point cp) <= 4)%nat /\
  (cp < 0x10000 -> (length (encode_code_point cp) <= 3)%nat) /\
  (0x10000 <= cp -> length (encode_code_point cp) = 4%nat).
Proof.
  intros H. unfold encode_code_point, is_byte.
  destruct (Z.ltb_spec cp 0x80); [| destruct (Z.ltb_spec cp 0x800);
                                     [| destruct (Z.ltb_spec cp 0x10000)]];
    (split; [repeat constructor; Z.div_mod_to_equations; lia
            | cbn [length]; split; [lia | split; intros; lia]]).
Qed.

Lemma surrogate_pair_range (c d : Z) :
  is_high_surrogate c = true -> is_low_surrogate d = true ->
  0x10000 <= 0x10000 + (c - 0xD800) * 1024 + (d - 0xDC00) <= 0x10FFFF.
Proof.
  unfold is_high_surrogate, is_low_surrogate.
  rewrite !andb_true_iff, !Z.leb_le. lia.
Qed.

Lemma replacement_scalar : scalar 0xFFFD.
Proof. unfold scalar. lia. Qed.

(** The bytes written for a string are bytes, at least one and at most
    three for each code unit. *)
Lemma encode_bytes_bounded (n : nat) (s : jsstring) :
  (length s <= n)%nat -> Forall is_code_unit s ->
  Forall is_byte (encode s) /\
  (length s <= length (encode s) <= 3 * length s)%nat.
Proof.
  revert s. induction n as [| n IH]; intros s Hlen Hs.
  - destruct s; [split; [constructor | cbn; lia] | cbn [length] in Hlen; lia].
  - destruct s as [| c rest]; [split; [constructor | cbn; lia] |].
    pose proof (Forall_inv Hs) as Hc. pose proof (Forall_inv_tail Hs) as Hrest.
    unfold is_code_unit in Hc. cbn [length] in Hlen. cbn [encode].
    assert (Hrep : Forall is_byte replacement).
    { unfold replacement, is_byte. repeat constructor; lia. }
    assert (Hrep3 : length replacement = 3%nat) by reflexivity.
    destruct (is_high_surrogate c) eqn:Hh.
    + destruct rest as [| d rest'].
      * split; [exact Hrep | rewrite Hrep3; cbn [length]; lia].
      * destruct (is_low_surrogate d) eqn:Hl.
        -- pose proof (surrogate_pair_range c d Hh Hl) as Hcp.
           destruct (encode_code_point_bytes
                       (0x10000 + (c - 0xD800) * 1024 + (d - 0xDC00)) ltac:(lia))
             as (Hb & _ & _ & Hn).
           specialize (Hn ltac:(lia)).
           destruct (IH rest') as [IHb IHn];
             [cbn [length] in Hlen; lia | exact (Forall_inv_tail Hrest) |].
           split; [apply Forall_app; auto |].
           rewrite length_app. cbn [length] in *. lia.
        -- destruct (IH (d :: rest')) as [IHb IHn]; [lia | exact Hrest |].
           split; [apply Forall_app; auto |].
           rewrite length_app, Hrep3. cbn [length] in *. lia.
    + destruct (IH rest) as [IHb IHn]; [lia | exact Hrest |].
      destruct (is_low_surrogate c).
      * split; [apply Forall_app; auto |].
        rewrite length_app, Hrep3. cbn [length] in *. lia.
      * destruct (encode_code_point_bytes c ltac:(lia)) as (Hb & Hn & H3 & _).
        specialize (H3 ltac:(lia)).
        split; [apply Forall_app; auto |]. rewrite length_app. cbn [length] in *. lia.
Qed.

Lemma encode_bytes (s : jsstring) :
  Forall is_code_unit s ->
  Forall is_byte (encode s) /\
  (length s <= length (encode s) <= 3 * length s)%nat.
Proof. apply (encode_bytes_bounded (length s)). lia. Qed.

Lemma run_replacement (rest : Buffer) :
  run Start (replacement ++ rest) = 0xFFFD :: run Start rest.
Proof.
  change replacement with (encode_code_point 0xFFFD).
  rewrite run_encode_code_point by exact replacement_scalar. reflexivity.
Qed.

(** Decoding what was encoded gives the well-formed form of the string. *)
Lemma toString_encode_any_bounded (n : nat) (s : jsstring) :
  (length s <= n)%nat -> Forall is_code_unit s ->
  toString (encode s) = String_toWellFormed s.
Proof.
  unfold toString. revert s. induction n as [| n IH]; intros s Hlen Hs.
  - destruct s; [reflexivity | cbn [length] in Hlen; lia].
  - destruct s as [| c rest]; [reflexivity |].
    pose proof (Forall_inv Hs) as Hc. pose proof (Forall_inv_tail Hs) as Hrest.
    unfold is_code_unit in Hc. cbn [length] in Hlen.
    cbn [encode String_toWellFormed].
    destruct (is_high_surrogate c) eqn:Hh.
    + destruct rest as [| d rest'].
      * rewrite <- (app_nil_r replacement). now rewrite run_replacement.
      * destruct (is_low_surrogate d) eqn:Hl.
        -- destruct (code_units_pair c d Hh Hl) as [Hsc Hcu].
           rewrite run_encode_code_point, Hcu by exact Hsc. cbn [app]. do 2 f_equal.
           apply IH; [cbn [length] in Hlen; lia | exact (Forall_inv_tail Hrest)].
        -- rewrite run_replacement. f_equal. apply IH; [lia | exact Hrest].
    + destruct (is_low_surrogate c) eqn:Hl.
      * rewrite run_replacement. f_equal. apply IH; [lia | exact Hrest].
      * destruct (code_units_bmp c Hh Hl Hc) as [Hsc Hcu].
        rewrite run_encode_code_point, Hcu by exact Hsc. cbn [app]. f_equal.
        apply IH; [lia | exact Hrest].
Qed.

Lemma toString_encode_any (s : jsstring) :
  Forall is_code_unit s -> toString (encode s) = String_toWellFormed s.
Proof. apply (toString_encode_any_bounded (length s)). lia. Qed.

Lemma encode_replacement_char (s : jsstring) :
  encode (0xFFFD :: s) = replacement ++ encode s.
Proof. reflexivity. Qed.

Lemma encode_lone_high (c d : Z) (rest : jsstring) :
  is_high_surrogate c = true -> is_low_surrogate d = false ->
  encode (c :: d :: rest) = replacement ++ encode (d :: rest).
Proof.
  intros Hh Hl. change (encode (c :: d :: rest)) with
    (if is_high_surrogate c
     then if is_low_surrogate d
          then encode_code_point (0x10000 + (c - 0xD800) * 1024 + (d - 0xDC00))
                 ++ encode rest
          else replacement ++ encode (d :: rest)
     else if is_low_surrogate c then replacement ++ encode (d :: rest)
          else encode_code_point c ++ encode (d :: rest)).
  now rewrite Hh, Hl.
Qed.

(** The well-formed form of a string has the same bytes. *)
Lemma encode_toWellFormed_bounded (n : nat) (s : jsstring) :
  (length s <= n)%nat -> encode (String_toWellFormed s) = encode s.
Proof.
  revert s. induction n as [| n IH]; intros s Hlen.
  - destruct s; [reflexivity | cbn [length] in Hlen; lia].
  - destruct s as [| c rest]; [reflexivity |]. cbn [length] in Hlen.
    cbn [String_toWellFormed].
    destruct (is_high_surrogate c) eqn:Hh.
    + destruct rest as [| d rest'].
      * rewrite encode_replacement_char. cbn [encode]. rewrite Hh. apply app_nil_r.
      * destruct (is_low_surrogate d) eqn:Hl.
        -- cbn [encode]. rewrite Hh, Hl. f_equal.
           apply IH. cbn [length] in Hlen. lia.
        -- rewrite encode_replacement_char, encode_lone_high by assumption.
           f_equal. apply IH. lia.
    + destruct (is_low_surrogate c) eqn:Hl.
      * rewrite encode_replacement_char. cbn [encode]. rewrite Hh, Hl.
        f_equal. apply IH. lia.
      * cbn [encode]. rewrite Hh, Hl. f_equal. apply IH. lia.
Qed.

Lemma encode_toWellFormed (s : jsstring) : encode (String_toWellFormed s) = encode s.
Proof. apply (encode_toWellFormed_bounded (length s)). lia. Qed.

Lemma toWellFormed_head (s : jsstring) :
  startsWith s [IconvLite.BOMChar] = false ->
  startsWith (String_toWellFormed s) [IconvLite.BOMChar] = false.
Proof.
  destruct s as [| c rest]; [reflexivity |]. cbn [startsWith String_toWellFormed].
  rewrite !andb_true_r. intros Hc.
  destruct (is_high_surrogate c); [destruct rest as [| d rest'];
                                   [reflexivity | destruct (is_low_surrogate d)] |
                                   destruct (is_low_surrogate c)];
    cbn [startsWith]; rewrite ?andb_true_r; auto.
Qed.

End Utf8_bytes.

(** ** What an answer carries *)

Lemma toWellFormed_well_formed_bounded (n : nat) (s : jsstring) :
  (length s <= n)%nat -> Utf8.well_formed s = true -> String_toWellFormed s = s.
Proof.
  revert s. induction n as [| n IH]; intros s Hlen Hwf.
  - destruct s; [reflexivity | cbn [length] in Hlen; lia].
  - destruct s as [| c rest]; [reflexivity |]. cbn [length] in Hlen.
    cbn [Utf8.well_formed String_toWellFormed] in *.
    destruct (Utf8.is_high_surrogate c).
    + destruct rest as [| d rest']; [discriminate Hwf |].
      apply andb_true_iff in Hwf. destruct Hwf as [Hd Hwf]. rewrite Hd.
      do 2 f_equal. apply IH; [cbn [length] in Hlen; lia | exact Hwf].
    + rewrite !andb_true_iff in Hwf. destruct Hwf as [[[Hl _] _] Hwf].
      apply negb_true_iff in Hl. rewrite Hl. f_equal. apply IH; [lia | exact Hwf].
Qed.

Lemma toWellFormed_well_formed (s : jsstring) :
  Utf8.well_formed s = true -> String_toWellFormed s = s.
Proof. apply (toWellFormed_well_formed_bounded (length s)). lia. Qed.

Lemma stripBOM_without_BOM (s : jsstring) :
  startsWith s [IconvLite.BOMChar] = false -> IconvLite.stripBOM s = s.
Proof.
  destruct s as [| c rest]; [reflexivity |]. cbn [startsWith IconvLite.stripBOM].
  rewrite andb_true_r. now intros ->.
Qed.

Section Answer_facts.

Variable iconv_decode : Buffer -> string -> decode_result.
Variable toUpperCase : jsstring -> jsstring.

Local Abbreviation handler := (convertToUtf8 iconv_decode toUpperCase).

(** An answer is the object built from the path of the request, the
    encoding chosen and the text decoded, and its completion is logged
    with the two sizes. *)
Lemma answer_inv (data : request) (r : response) :
  outcome (handler data) = inr r ->
  exists path content e text,
    accepted data path content /\
    iconv_decode (Base64.decode content) e = Decoded text /\
    r = response_of path e text /\
    In (loggerService_info
          (ConversionCompleted path (outputPath path) e
             (Z.of_nat (length (Base64.decode content)))
             (Z.of_nat (length (Utf8.encode text)))))
       (events (handler data)).
Proof.
  intros Hr.
  destruct (convertToUtf8_success iconv_decode toUpperCase data r Hr)
    as (path & content & Hacc).
  destruct (accepted_run iconv_decode toUpperCase data path content Hacc)
    as (e & before & Hrun & _).
  rewrite Hrun in Hr |- *. unfold outcome, events in *. cbn [fst snd] in *.
  unfold finish in *.
  destruct (iconv_decode (Base64.decode content) e) as [text | m] eqn:Hd;
    [| discriminate Hr].
  cbn [fst snd] in *. injection Hr as <-.
  exists path, content, e, text. repeat split; try apply Hacc; auto.
  apply in_or_app. right. cbn. auto.
Qed.

(** X8: The content of an answer is the base64 form of the UTF-8 bytes of the
    text decoded: decoding it as base64 gives those bytes back, each of
    them a byte. *)
Theorem answer_carries_the_utf8_bytes (data : request) (r : response) :
  outcome (convertToUtf8 iconv_decode toUpperCase data) = inr r ->
  exists content text,
    fileContent data = Some content /\
    iconv_decode (Base64.decode content) (response_sourceEncoding r) = Decoded text /\
    (Forall is_code_unit text ->
     Base64.decode (convertedContent r) = Utf8.encode text /\
     Forall is_byte (Base64.decode (convertedContent r))).
Proof.
  intros Hr. destruct (answer_inv data r Hr) as (path & content & e & text & Hacc & Hd & -> & _).
  exists content, text. cbn [response_of response_sourceEncoding convertedContent].
  split; [apply Hacc |]. split; [exact Hd |]. intros Hu.
  destruct (encode_bytes text Hu) as [Hb _].
  rewrite Base64_decode_encode by exact Hb. split; [reflexivity | exact Hb].
Qed.

(** X9: The size logged for the converted file is the number of UTF-8 bytes
    of the text: at least one byte and at most three for each code unit
    of the text. *)
Theorem converted_size_is_bounded (data : request) (r : response) :
  outcome (convertToUtf8 iconv_decode toUpperCase data) = inr r ->
  exists content text convertedSize,
    fileContent data = Some content /\
    iconv_decode (Base64.decode content) (response_sourceEncoding r) = Decoded text /\
    In (loggerService_info
          (ConversionCompleted (originalPath r) (convertedPath r)
             (response_sourceEncoding r)
             (Z.of_nat (length (Base64.decode content))) convertedSize))
       (events (convertToUtf8 iconv_decode toUpperCase data)) /\
    (Forall is_code_unit text ->
     convertedSize = Z.of_nat (length (Base64.decode (convertedContent r))) /\
     String_length text <= convertedSize <= 3 * String_length text).
Proof.
  intros Hr.
  destruct (answer_inv data r Hr) as (path & content & e & text & Hacc & Hd & -> & Hlog).
  exists content, text, (Z.of_nat (length (Utf8.encode text))).
  cbn [response_of response_sourceEncoding convertedContent originalPath convertedPath].
  split; [apply Hacc |]. split; [exact Hd |]. split; [exact Hlog |]. intros Hu.
  destruct (encode_bytes text Hu) as [Hb Hn].
  rewrite Base64_decode_encode by exact Hb. unfold String_length. split; [reflexivity | lia].
Qed.

(** X10: Read as UTF-8, the bytes of an answer are the text decoded with every
    surrogate outside a pair replaced by U+FFFD: the text itself when
    it has none. *)
Theorem answer_reads_as_the_well_formed_text (data : request) (r : response) :
  outcome (convertToUtf8 iconv_decode toUpperCase data) = inr r ->
  exists content text,
    fileContent data = Some content /\
    iconv_decode (Base64.decode content) (response_sourceEncoding r) = Decoded text /\
    (Forall is_code_unit text ->
     Utf8.toString (Base64.decode (convertedContent r)) = String_toWellFormed text /\
     (Utf8.well_formed text = true ->
      Utf8.toString (Base64.decode (convertedContent r)) = text)).
Proof.
  intros Hr. destruct (answer_inv data r Hr) as (path & content & e & text & Hacc & Hd & -> & _).
  exists content, text. cbn [response_of response_sourceEncoding convertedContent].
  split; [apply Hacc |]. split; [exact Hd |]. intros Hu.
  destruct (encode_bytes text Hu) as [Hb _].
  rewrite Base64_decode_encode by exact Hb.
  rewrite toString_encode_any by exact Hu. split; [reflexivity |].
  intros Hwf. now apply toWellFormed_well_formed.
Qed.

(** X11: Converting an answer again, as utf8, changes nothing: when the text
    of an answer is not empty and does not start with a byte-order mark,
    sending its content back under the same name with the encoding utf8
    is answered with the same content and the same output name. *)
Theorem reconversion_as_utf8_is_idempotent (data : request) (r : response) :
  outcome (convertToUtf8 iconv_decode toUpperCase data) = inr r ->
  exists content text,
    fileContent data = Some content /\
    iconv_decode (Base64.decode content) (response_sourceEncoding r) = Decoded text /\
    (Forall is_code_unit text -> text <> [] ->
     startsWith text [IconvLite.BOMChar] = false ->
     forall high upper,
       outcome (convertToUtf8 (IconvLite.decode high) upper
                  {| filePath := Some (originalPath r);
                     fileContent := Some (convertedContent r);
                     sourceEncoding := Some "utf8"%string |})
       = inr (response_of (originalPath r) "utf8" (String_toWellFormed text)) /\
       convertedContent (response_of (originalPath r) "utf8" (String_toWellFormed text))
       = convertedContent r /\
       convertedPath (response_of (originalPath r) "utf8" (String_toWellFormed text))
       = convertedPath r).
Proof.
  intros Hr. destruct (answer_inv data r Hr) as (path & content & e & text & Hacc & Hd & -> & _).
  exists content, text. cbn [response_of response_sourceEncoding convertedContent
                              originalPath convertedPath].
  split; [apply Hacc |]. split; [exact Hd |]. intros Hu Hne Hbom high upper.
  destruct (encode_bytes text Hu) as [Hb Hn].
  set (data2 := {| filePath := Some path;
                   fileContent := Some (Base64.encode (Utf8.encode text));
                   sourceEncoding := Some "utf8"%string |}).
  assert (Hacc2 : accepted data2 path (Base64.encode (Utf8.encode text))).
  { destruct Hacc as (_ & _ & Hp & _ & Hsql). repeat split; auto.
    intros Habs. apply Base64_encode_nil in Habs. rewrite Habs in Hn.
    destruct text; [contradiction | cbn [length] in Hn; lia]. }
  rewrite (convertToUtf8_hint (IconvLite.decode high) upper data2 path
             (Base64.encode (Utf8.encode text)) "utf8" Hacc2 eq_refl ltac:(discriminate)).
  unfold outcome at 1. cbn [fst]. rewrite Base64_decode_encode by exact Hb.
  unfold finish.
  assert (Hdec : IconvLite.decode high (Utf8.encode text) "utf8"
                 = Decoded (String_toWellFormed text)).
  { unfold IconvLite.decode. cbn [IconvLite.is_in existsb String.eqb Ascii.eqb Bool.eqb orb].
    rewrite toString_encode_any by exact Hu.
    now rewrite stripBOM_without_BOM by now apply toWellFormed_head. }
  rewrite Hdec. unfold outcome. cbn [fst]. split; [reflexivity |].
  split; [| reflexivity]. now rewrite encode_toWellFormed.
Qed.

End Answer_facts.

Ltac code_units :=
  repeat (apply Forall_cons; [unfold is_code_unit, is_byte; lia |]); apply Forall_nil.

(** The answer for the nine bytes of [SELECT 1;], sent as [orders.sql]
    with the encoding latin1. *)
Lemma answer_carries_the_utf8_bytes_witness :
  let decoder := IconvLite.decode IconvLite.latin1_high in
  let data := {| filePath := Some (js "orders.sql"); fileContent := Some (js "U0VMRUNUIDE7");
                 sourceEncoding := Some "latin1"%string |} in
  outcome (convertToUtf8 decoder IconvLite.ascii_toUpperCase data)
  = inr (response_of (js "orders.sql") "latin1" (js "SELECT 1;")) /\
  Base64.decode (convertedContent (response_of (js "orders.sql") "latin1" (js "SELECT 1;")))
  = Utf8.encode (js "SELECT 1;").
Proof.
  intros decoder data.
  assert (Hr : outcome (convertToUtf8 decoder IconvLite.ascii_toUpperCase data)
               = inr (response_of (js "orders.sql") "latin1" (js "SELECT 1;")))
    by reflexivity.
  split; [exact Hr |].
  destruct (answer_carries_the_utf8_bytes decoder IconvLite.ascii_toUpperCase data _ Hr)
    as (content & text & Hc & Hd & H).
  injection Hc as <-. vm_compute in Hd. injection Hd as <-.
  destruct H as [H _]; [code_units | exact H].
Defined.

(** For that request both sizes logged are 9. *)
Lemma converted_size_is_bounded_witness :
  let decoder := IconvLite.decode IconvLite.latin1_high in
  let data := {| filePath := Some (js "orders.sql"); fileContent := Some (js "U0VMRUNUIDE7");
                 sourceEncoding := Some "latin1"%string |} in
  outcome (convertToUtf8 decoder IconvLite.ascii_toUpperCase data)
  = inr (response_of (js "orders.sql") "latin1" (js "SELECT 1;")) /\
  In (loggerService_info
        (ConversionCompleted (js "orders.sql") (js "orders-utf8.sql") "latin1" 9 9))
     (events (convertToUtf8 decoder IconvLite.ascii_toUpperCase data)).
Proof.
  intros decoder data.
  assert (Hr : outcome (convertToUtf8 decoder IconvLite.ascii_toUpperCase data)
               = inr (response_of (js "orders.sql") "latin1" (js "SELECT 1;")))
    by reflexivity.
  split; [exact Hr |].
  destruct (converted_size_is_bounded decoder IconvLite.ascii_toUpperCase data _ Hr)
    as (content & text & size & Hc & Hd & Hlog & H).
  injection Hc as <-. vm_compute in Hd. injection Hd as <-.
  destruct H as [Hsize _]; [code_units |].
  rewrite Hsize in Hlog. exact Hlog.
Defined.

(** The bytes of that answer, read as UTF-8. *)
Lemma answer_reads_as_the_well_formed_text_witness :
  let decoder := IconvLite.decode IconvLite.latin1_high in
  let data := {| filePath := Some (js "orders.sql"); fileContent := Some (js "U0VMRUNUIDE7");
                 sourceEncoding := Some "latin1"%string |} in
  outcome (convertToUtf8 decoder IconvLite.ascii_toUpperCase data)
  = inr (response_of (js "orders.sql") "latin1" (js "SELECT 1;")) /\
  Utf8.toString
    (Base64.decode
       (convertedContent (response_of (js "orders.sql") "latin1" (js "SELECT 1;"))))
  = String_toWellFormed (js "SELECT 1;").
Proof.
  intros decoder data.
  assert (Hr : outcome (convertToUtf8 decoder IconvLite.ascii_toUpperCase data)
               = inr (response_of (js "orders.sql") "latin1" (js "SELECT 1;")))
    by reflexivity.
  split; [exact Hr |].
  destruct (answer_reads_as_the_well_formed_text decoder IconvLite.ascii_toUpperCase data _ Hr)
    as (content & text & Hc & Hd & H).
  injection Hc as <-. vm_compute in Hd. injection Hd as <-.
  destruct H as [H _]; [code_units | exact H].
Defined.

(** That answer, sent back with the encoding utf8. *)
Lemma reconversion_as_utf8_is_idempotent_witness :
  let decoder := IconvLite.decode IconvLite.latin1_high in
  let data := {| filePath := Some (js "orders.sql"); fileContent := Some (js "U0VMRUNUIDE7");
                 sourceEncoding := Some "latin1"%string |} in
  let r := response_of (js "orders.sql") "latin1" (js "SELECT 1;") in
  outcome (convertToUtf8 decoder IconvLite.ascii_toUpperCase data) = inr r /\
  outcome (convertToUtf8 decoder IconvLite.ascii_toUpperCase
             {| filePath := Some (originalPath r);
                fileContent := Some (convertedContent r);
                sourceEncoding := Some "utf8"%string |})
  = inr (response_of (originalPath r) "utf8" (String_toWellFormed (js "SELECT 1;"))).
Proof.
  intros decoder data r.
  assert (Hr : outcome (convertToUtf8 decoder IconvLite.ascii_toUpperCase data) = inr r)
    by reflexivity.
  split; [exact Hr |].
  destruct (reconversion_as_utf8_is_idempotent decoder IconvLite.ascii_toUpperCase data _ Hr)
    as (content & text & Hc & Hd & H).
  injection Hc as <-. vm_compute in Hd. injection Hd as <-.
  destruct (H ltac:(code_units) ltac:(discriminate) eq_refl
              IconvLite.latin1_high IconvLite.ascii_toUpperCase) as [H2 _].
  exact H2.
Defined.

(** ** The output name of a path with directories *)

Section Directory_facts.

Import Path.

(** A list splits at the last occurrence of a character, if it has one. *)
Lemma last_split (x : Z) (l : list Z) :
  ~ In x l \/ exists before after, l = before ++ x :: after /\ ~ In x after.
Proof.
  induction l as [| c l IH]; [left; intros [] |].
  destruct IH as [Hno | (before & after & -> & Hafter)].
  - destruct (Z.eq_dec c x) as [-> | Hne].
    + right. exists [], l. split; [reflexivity | exact Hno].
    + left. intros [H | H]; [now apply Hne | now apply Hno].
  - right. exists (c :: before), after. split; [reflexivity | exact Hafter].
Qed.

(** The scan goes through a run of code units with no slash, then on. *)
Lemma scan_loop_app (codes more : list Z) (i : Z) (st : scan) :
  ~ In CHAR_FORWARD_SLASH codes ->
  scan_loop (codes ++ more) i st
  = scan_loop more (i - Z.of_nat (length codes)) (scan_loop codes i st).
Proof.
  revert i st. induction codes as [| c codes IH]; intros i st Hs.
  - cbn [app length scan_loop]. f_equal. cbn. lia.
  - cbn [app scan_loop].
    destruct (Z.eqb_spec c CHAR_FORWARD_SLASH) as [-> | _]; [destruct Hs; now left |].
    rewrite IH by (intros H; apply Hs; now right).
    f_equal. cbn [length]. lia.
Qed.

(** The scan of the last component, started at index [i]. *)
Lemma scan_component_dotted (stem ext : jsstring) (i : Z) :
  ~ In CHAR_FORWARD_SLASH stem -> ~ In CHAR_FORWARD_SLASH ext -> ~ In CHAR_DOT ext ->
  Z.of_nat (length ext) <= i ->
  scan_loop (rev (stem ++ CHAR_DOT :: ext)) i scan_init
  = {| startDot := i - Z.of_nat (length ext); startPart := 0; end_ := i + 1;
       matchedSlash := false; preDotState := pre_dot (rev stem) 0 |}.
Proof.
  intros Hs1 Hs2 Hd Hi. rewrite rev_app_distr. cbn [rev]. rewrite <- app_assoc. cbn [app].
  assert (Hstem : ~ In CHAR_FORWARD_SLASH (rev stem)).
  { intros H. apply Hs1. now apply in_rev. }
  destruct (rev ext) as [| x xs] eqn:Hrev.
  - assert (ext = []) as ->.
    { apply (f_equal (@rev Z)) in Hrev. now rewrite rev_involutive in Hrev. }
    cbn [length] in *. cbn [app scan_loop]. unfold scan_init.
    cbn -[Z.sub Z.add Z.of_nat].
    destruct (Z.eqb_spec i (-1)); [lia |].
    rewrite scan_loop_after_dot by (cbn [end_ startDot]; auto; lia).
    cbn [end_ startDot startPart matchedSlash preDotState]. f_equal; lia.
  - assert (Hx : ~ In CHAR_FORWARD_SLASH (x :: xs)).
    { rewrite <- Hrev. intros H. apply Hs2. now apply in_rev. }
    assert (Hxd : ~ In CHAR_DOT (x :: xs)).
    { rewrite <- Hrev. intros H. apply Hd. now apply in_rev. }
    assert (Hxl : length ext = S (length xs)).
    { rewrite <- (length_rev ext), Hrev. reflexivity. }
    cbn [app scan_loop]. unfold scan_init.
    destruct (Z.eqb_spec x CHAR_FORWARD_SLASH) as [-> | _]; [destruct Hx; now left |].
    destruct (Z.eqb_spec x CHAR_DOT) as [-> | _]; [destruct Hxd; now left |].
    cbn -[Z.sub Z.add Z.of_nat scan_loop].
    rewrite scan_loop_no_dot; cbn [end_ startDot]; auto with datatypes; try lia.
    cbn [scan_loop end_]. destruct (Z.eqb_spec (i + 1) (-1)); [lia |].
    cbn -[Z.sub Z.add Z.of_nat scan_loop].
    destruct (Z.eqb_spec (i - 1 - Z.of_nat (length xs)) (-1)); [lia |].
    rewrite scan_loop_after_dot by (cbn [end_ startDot]; auto; lia).
    cbn [end_ startDot startPart matchedSlash preDotState]. f_equal; lia.
Qed.

Lemma scan_component_plain (p : jsstring) (i : Z) :
  p <> [] -> ~ In CHAR_FORWARD_SLASH p -> ~ In CHAR_DOT p -> 0 <= i ->
  scan_loop (rev p) i scan_init
  = {| startDot := -1; startPart := 0; end_ := i + 1;
       matchedSlash := false; preDotState := 0 |}.
Proof.
  intros Hne Hs Hd Hi. destruct (rev p) as [| x xs] eqn:Hrev.
  - apply (f_equal (@rev Z)) in Hrev. rewrite rev_involutive in Hrev. contradiction.
  - assert (Hx : ~ In CHAR_FORWARD_SLASH (x :: xs)).
    { rewrite <- Hrev. intros H. apply Hs. now apply in_rev. }
    assert (Hxd : ~ In CHAR_DOT (x :: xs)).
    { rewrite <- Hrev. intros H. apply Hd. now apply in_rev. }
    cbn [scan_loop]. unfold scan_init.
    destruct (Z.eqb_spec x CHAR_FORWARD_SLASH) as [-> | _]; [destruct Hx; now left |].
    destruct (Z.eqb_spec x CHAR_DOT) as [-> | _]; [destruct Hxd; now left |].
    cbn -[Z.sub Z.add Z.of_nat scan_loop].
    rewrite <- (app_nil_r xs).
    rewrite scan_loop_no_dot; cbn [end_ startDot]; auto with datatypes.
    lia.
Qed.

(** The state of the scan when it leaves the last component. *)
Local Abbreviation component_state nm i := (scan_loop (rev nm) i scan_init).

Lemma component_state_fields (nm : jsstring) (i : Z) :
  nm <> [] -> ~ In CHAR_FORWARD_SLASH nm -> Z.of_nat (length nm) - 1 <= i ->
  startPart (component_state nm i) = 0 /\
  end_ (component_state nm i) = i + 1 /\
  matchedSlash (component_state nm i) = false.
Proof.
  intros Hne Hs Hi.
  assert (Hlen : (1 <= length nm)%nat) by (destruct nm; [contradiction | cbn; lia]).
  destruct (last_split CHAR_DOT nm) as [Hno | (stem & ext & -> & Hext)].
  - rewrite scan_component_plain by (auto; lia). repeat split.
  - rewrite scan_component_dotted; [repeat split | | | exact Hext |].
    + intros H. apply Hs, in_or_app. now left.
    + intros H. apply Hs, in_or_app. right. now right.
    + rewrite length_app in Hi. cbn [length] in Hi. lia.
Qed.

(** The scan stops at the slash before the last component. *)
Lemma scan_past_component (rest nm : jsstring) (i : Z) :
  nm <> [] -> ~ In CHAR_FORWARD_SLASH nm -> Z.of_nat (length nm) - 1 <= i ->
  scan_loop (rev (rest ++ CHAR_FORWARD_SLASH :: nm)) i scan_init
  = {| startDot := startDot (component_state nm i);
       startPart := i - Z.of_nat (length nm) + 1;
       end_ := end_ (component_state nm i);
       matchedSlash := matchedSlash (component_state nm i);
       preDotState := preDotState (component_state nm i) |}.
Proof.
  intros Hne Hs Hi.
  destruct (component_state_fields nm i Hne Hs Hi) as (_ & _ & Hm).
  rewrite rev_app_distr. cbn [rev]. rewrite <- app_assoc. cbn [app].
  rewrite scan_loop_app by (intros H; apply Hs; now apply in_rev).
  rewrite length_rev.
  cbn [scan_loop]. rewrite Z.eqb_refl, Hm. cbn [negb]. reflexivity.
Qed.

(** [path.parse] on a path whose last component [nm] follows a slash. *)
Lemma parse_in_directory (dir nm : jsstring) :
  nm <> [] -> ~ In CHAR_FORWARD_SLASH nm ->
  let path := dir ++ CHAR_FORWARD_SLASH :: nm in
  let st := component_state nm (String_length path - 1) in
  let sp := match dir with [] => 0 | _ :: _ => Z.of_nat (length dir) + 1 end in
  let from := Z.of_nat (length dir) + 1 in
  parse path
  = if (startDot st =? -1) || (preDotState st =? 0) ||
       ((preDotState st =? 1) && (startDot st =? end_ st - 1) && (startDot st =? sp + 1))
    then {| base := slice path from (end_ st);
            name := slice path from (end_ st);
            ext := [] |}
    else {| base := slice path from (end_ st);
            name := slice path from (startDot st);
            ext := slice path (startDot st) (end_ st) |}.
Proof.
  intros Hne Hs path st sp from.
  assert (Hlen : String_length path = Z.of_nat (length dir) + 1 + Z.of_nat (length nm)).
  { unfold path, String_length. rewrite length_app. cbn [length]. lia. }
  assert (Hi : Z.of_nat (length nm) - 1 <= String_length path - 1) by lia.
  destruct (component_state_fields nm _ Hne Hs Hi) as (Hsp & He & Hm).
  fold st in Hsp, He, Hm.
  assert (Hend : (end_ st =? -1) = false) by (apply Z.eqb_neq; lia).
  destruct dir as [| d dir'].
  - subst path sp from. cbn [app length Z.of_nat] in *. unfold parse.
    rewrite Z.eqb_refl. change (Z.to_nat 1) with 1%nat. cbn [skipn].
    fold st.
    rewrite Hend, Hsp. cbn [negb Z.eqb andb Z.add]. reflexivity.
  - assert (Hscan : forall rest, (length rest <= length (d :: dir'))%nat ->
        let s := scan_loop (rev (rest ++ CHAR_FORWARD_SLASH :: nm)) (String_length path - 1)
                   scan_init in
        startDot s = startDot st /\ end_ s = end_ st /\ preDotState s = preDotState st /\
        startPart s = Z.of_nat (length (d :: dir')) + 1).
    { intros rest Hrest s. subst s. rewrite scan_past_component by assumption.
      cbn [startDot end_ preDotState startPart]. fold st. repeat split. lia. }
    subst sp from. unfold path in *. cbn [app] in *. unfold parse.
    destruct (Z.eqb_spec d CHAR_FORWARD_SLASH) as [Hd | Hd].
    + change (Z.to_nat 1) with 1%nat. cbn [skipn].
      destruct (Hscan dir') as (H1 & H2 & H3 & H4); [cbn [length]; lia |].
      cbn zeta in H1, H2, H3, H4. rewrite H1, H2, H3, H4, Hend.
      destruct (Z.eqb_spec (Z.of_nat (length (d :: dir')) + 1) 0); [lia |].
      cbn [negb andb]. reflexivity.
    + change (Z.to_nat 0) with 0%nat. cbn [skipn].
      destruct (Hscan (d :: dir')) as (H1 & H2 & H3 & H4); [lia |].
      cbn zeta in H1, H2, H3, H4. cbn [app] in H1, H2, H3, H4.
      rewrite H1, H2, H3, H4, Hend. rewrite !andb_false_r.
      cbn [negb]. reflexivity.
Qed.

Lemma slice_middle (a b c : jsstring) (from to : Z) :
  from = Z.of_nat (length a) -> to = Z.of_nat (length a) + Z.of_nat (length b) ->
  slice (a ++ b ++ c) from to = b.
Proof.
  intros -> ->. unfold slice. rewrite Nat2Z.id.
  replace (Z.to_nat (Z.of_nat (length a) + Z.of_nat (length b) - Z.of_nat (length a)))
    with (length b) by lia.
  rewrite skipn_app, skipn_all, Nat.sub_diag. cbn [skipn app].
  rewrite firstn_app, Nat.sub_diag, firstn_all. cbn [firstn]. apply app_nil_r.
Qed.

(** The name and the extension are those of the last component; the one
    exception is the path [/..]. *)
Lemma parse_component (dir nm : jsstring) :
  nm <> [] -> ~ In CHAR_FORWARD_SLASH nm ->
  ~ (dir = [] /\ nm = [CHAR_DOT; CHAR_DOT]) ->
  name (parse (dir ++ CHAR_FORWARD_SLASH :: nm)) = name (parse nm) /\
  ext (parse (dir ++ CHAR_FORWARD_SLASH :: nm)) = ext (parse nm).
Proof.
  intros Hne Hs Hquirk.
  rewrite (parse_in_directory dir nm Hne Hs). cbn zeta.
  set (path := dir ++ CHAR_FORWARD_SLASH :: nm).
  assert (Hlen : String_length path = Z.of_nat (length dir) + 1 + Z.of_nat (length nm)).
  { unfold path, String_length. rewrite length_app. cbn [length]. lia. }
  remember (String_length path) as len eqn:Hlen0. clear Hlen0.
  assert (Hnm : (1 <= length nm)%nat) by (destruct nm; [contradiction | cbn; lia]).
  assert (Hpath : forall b c, nm = b ++ c ->
            path = (dir ++ [CHAR_FORWARD_SLASH]) ++ b ++ c).
  { intros b c ->. unfold path. now rewrite <- app_assoc. }
  assert (Hdir : Z.of_nat (length (dir ++ [CHAR_FORWARD_SLASH])) = Z.of_nat (length dir) + 1).
  { rewrite length_app. cbn [length]. lia. }
  destruct (last_split CHAR_DOT nm) as [Hno | (stem & ext & Heq & Hext)].
  - rewrite scan_component_plain by (auto; lia).
    cbn [startDot end_ preDotState Z.eqb orb name Path.ext].
    destruct (parse_no_dot nm Hs Hno) as [-> ->]. split; [| reflexivity].
    rewrite (Hpath nm [] (eq_sym (app_nil_r nm))).
    apply slice_middle; lia.
  - subst nm.
    assert (Hs1 : ~ In CHAR_FORWARD_SLASH stem).
    { intros H. apply Hs. apply in_or_app. now left. }
    assert (Hs2 : ~ In CHAR_FORWARD_SLASH ext).
    { intros H. apply Hs. apply in_or_app. right. now right. }
    assert (Hl : Z.of_nat (length (stem ++ CHAR_DOT :: ext))
                 = Z.of_nat (length stem) + 1 + Z.of_nat (length ext)).
    { rewrite length_app. cbn [length]. lia. }
    rewrite scan_component_dotted by (auto; lia).
    cbn [startDot end_ preDotState]. rewrite pre_dot_rev.
    destruct (Z.eqb_spec (len - 1 - Z.of_nat (length ext)) (-1)); [lia |].
    cbn [orb].
    destruct stem as [| c0 stem].
    + cbn [Z.eqb orb name Path.ext]. cbn [app] in *.
      destruct (parse_leading_dot ext Hs2 Hext) as [-> ->].
      split; [| reflexivity].
      rewrite (Hpath (CHAR_DOT :: ext) [] (eq_sym (app_nil_r _))).
      apply slice_middle; lia.
    + destruct (list_eq_dec Z.eq_dec ((c0 :: stem) ++ CHAR_DOT :: ext) [CHAR_DOT; CHAR_DOT])
        as [Hdd | Hdd].
      * (* the component [..] after a non-empty directory *)
        assert (c0 = CHAR_DOT /\ stem = [] /\ ext = []) as (-> & -> & ->).
        { cbn [app] in Hdd. injection Hdd as -> Hx. destruct stem as [| c1 stem].
          - injection Hx as Hx. now subst ext.
          - exfalso. injection Hx as _ Hx. destruct stem; discriminate Hx. }
        assert (Hd : dir <> []) by (intros ->; now apply Hquirk).
        cbn [length Z.of_nat app] in *. cbn [Z.eqb Pos.eqb orb andb].
        destruct dir as [| d dir]; [contradiction |].
        replace (len - 1 - 0 =? len - 1 + 1 - 1) with true
          by (symmetry; apply Z.eqb_eq; lia).
        replace (len - 1 - 0 =? Z.of_nat (length (d :: dir)) + 1 + 1) with true
          by (symmetry; apply Z.eqb_eq; lia).
        cbn [andb name Path.ext]. split; [| reflexivity].
        change (name (parse [CHAR_DOT; CHAR_DOT])) with [CHAR_DOT; CHAR_DOT].
        rewrite (Hpath [CHAR_DOT; CHAR_DOT] [] eq_refl).
        apply slice_middle; cbn [length] in *; lia.
      * assert (Hnq : ~ (c0 :: stem = [CHAR_DOT] /\ ext = [])).
        { intros [H1 H2]. apply Hdd. rewrite H1, H2. reflexivity. }
        assert (Hthird :
          ((if c0 =? CHAR_DOT then 1 else -1) =? 0) ||
          (((if c0 =? CHAR_DOT then 1 else -1) =? 1)
             && (len - 1 - Z.of_nat (length ext) =? len - 1 + 1 - 1)
             && (len - 1 - Z.of_nat (length ext)
                 =? match dir with [] => 0 | _ :: _ => Z.of_nat (length dir) + 1 end + 1))
          = false).
        { destruct (Z.eqb_spec c0 CHAR_DOT) as [-> | _]; [| reflexivity].
          cbn [Z.eqb Pos.eqb orb andb].
          destruct (Z.eqb_spec (len - 1 - Z.of_nat (length ext))
                      (len - 1 + 1 - 1)); [| reflexivity].
          destruct (Z.eqb_spec (len - 1 - Z.of_nat (length ext))
                      (match dir with [] => 0 | _ :: _ => Z.of_nat (length dir) + 1 end + 1));
            [| reflexivity].
          exfalso. apply Hnq. cbn [length] in Hl.
          destruct ext; [| cbn [length] in *; lia].
          destruct stem; [tauto |]. destruct dir; cbn [length] in *; lia. }
        rewrite Hthird. cbn [name Path.ext].
        destruct (parse_stem_ext (c0 :: stem) ext) as [-> ->]; auto; [discriminate |].
        split.
        -- rewrite (Hpath (c0 :: stem) (CHAR_DOT :: ext) eq_refl).
           apply slice_middle; lia.
        -- rewrite (Hpath (c0 :: stem) (CHAR_DOT :: ext) eq_refl).
           rewrite (app_assoc _ (c0 :: stem)).
           rewrite <- (app_nil_r (CHAR_DOT :: ext)) at 1.
           apply slice_middle.
           ++ rewrite length_app, Nat2Z.inj_add, Hdir. cbn [length] in *. lia.
           ++ rewrite length_app, Nat2Z.inj_add, Hdir. cbn [length] in *. lia.
Qed.

End Directory_facts.

(** X12: The output name is that of the last component of the path: the
    directories before it leave no trace. The path [/..] is the one
    exception: there [path.parse] does not see the component [..], and
    the name is [.-utf8.] where [..] alone gives [..-utf8]. *)
Theorem output_name_drops_the_directory (dir nm : jsstring) :
  nm <> [] -> ~ In Path.CHAR_FORWARD_SLASH nm ->
  ~ (dir = [] /\ nm = js "..") ->
  outputPath (dir ++ js "/" ++ nm) = outputPath nm.
Proof.
  intros Hne Hs Hq. unfold outputPath. cbn zeta.
  change (js "/" ++ nm) with (Path.CHAR_FORWARD_SLASH :: nm).
  destruct (parse_component dir nm Hne Hs Hq) as [-> ->]. reflexivity.
Qed.

(** The name [orders.sql] in the directory [/var/dumps]. *)
Lemma output_name_drops_the_directory_witness :
  ~ In Path.CHAR_FORWARD_SLASH (js "orders.sql") /\
  outputPath (js "/var/dumps" ++ js "/" ++ js "orders.sql") = outputPath (js "orders.sql").
Proof.
  assert (H : ~ In Path.CHAR_FORWARD_SLASH (js "orders.sql"))
    by (cbn; intuition discriminate).
  split; [exact H |].
  apply (output_name_drops_the_directory (js "/var/dumps") (js "orders.sql"));
    [discriminate | exact H | intros [Hd _]; discriminate Hd].
Defined.

(** ** The output name of an accepted path *)

(** A path that ends in [.sql]: its last component is [stem.sql], and the
    output name is [stem-utf8.sql], unless the stem is empty. *)
Lemma sql_path_output (p : jsstring) :
  endsWith p (js ".sql") = true ->
  exists dir stem,
    p = dir ++ stem ++ js ".sql" /\
    ~ In Path.CHAR_FORWARD_SLASH stem /\
    (dir = [] \/ exists d, dir = d ++ js "/") /\
    outputPath p = match stem with
                   | [] => js ".sql-utf8"
                   | _ :: _ => stem ++ js "-utf8.sql"
                   end.
Proof.
  intros He. unfold endsWith in He. apply startsWith_prefix in He.
  destruct He as [post Hp].
  assert (Hp' : p = rev post ++ js ".sql").
  { rewrite <- (rev_involutive p), Hp, rev_app_distr, rev_involutive. reflexivity. }
  clear Hp. subst p.
  assert (Hname : forall stem, ~ In Path.CHAR_FORWARD_SLASH stem ->
            outputPath (stem ++ js ".sql")
            = match stem with
              | [] => js ".sql-utf8"
              | _ :: _ => stem ++ js "-utf8.sql"
              end).
  { intros stem Hs. unfold outputPath. cbn zeta. destruct stem as [| c stem].
    - reflexivity.
    - change (js ".sql") with (Path.CHAR_DOT :: js "sql").
      destruct (parse_stem_ext (c :: stem) (js "sql")) as [-> ->];
        try (cbn; intuition discriminate); auto. }
  assert (Hsql : ~ In Path.CHAR_FORWARD_SLASH (js ".sql")) by (cbn; intuition discriminate).
  destruct (last_split Path.CHAR_FORWARD_SLASH (rev post))
    as [Hno | (before & after & Heq & Hafter)].
  - exists [], (rev post). cbn [app]. repeat split; auto.
  - exists (before ++ js "/"), after. rewrite Heq.
    repeat split; auto.
    + rewrite <- !app_assoc. reflexivity.
    + right. now exists before.
    + rewrite <- Hname by assumption. rewrite <- app_assoc. cbn [app].
      unfold outputPath. cbn zeta.
      destruct (parse_component before (after ++ js ".sql")) as [-> ->];
        [| | | reflexivity].
      * destruct after; discriminate.
      * intros H. apply in_app_or in H. tauto.
      * intros [_ H]. destruct after as [| a [| b [| c after]]]; discriminate H.
Qed.

Section Output_name_facts.

Variable iconv_decode : Buffer -> string -> decode_result.
Variable toUpperCase : jsstring -> jsstring.

(** X13: The name under which an answer offers the converted file is built
    from the last component of the path of the request alone: [stem.sql]
    gives [stem-utf8.sql], in whatever directory it is; the one name that
    loses its extension is [.sql], which gives [.sql-utf8]. *)
Theorem answer_names_the_converted_file (data : request) (r : response) :
  outcome (convertToUtf8 iconv_decode toUpperCase data) = inr r ->
  exists dir stem,
    filePath data = Some (dir ++ stem ++ js ".sql") /\
    originalPath r = dir ++ stem ++ js ".sql" /\
    ~ In Path.CHAR_FORWARD_SLASH stem /\
    (dir = [] \/ exists d, dir = d ++ js "/") /\
    convertedPath r = match stem with
                      | [] => js ".sql-utf8"
                      | _ :: _ => stem ++ js "-utf8.sql"
                      end.
Proof.
  intros Hr.
  destruct (answer_inv iconv_decode toUpperCase data r Hr)
    as (path & content & e & text & Hacc & _ & -> & _).
  destruct Hacc as (Hpath & _ & _ & _ & Hsql).
  destruct (sql_path_output path Hsql) as (dir & stem & Hp & Hs & Hd & Hout).
  exists dir, stem. cbn [originalPath convertedPath response_of].
  rewrite Hpath, Hout, Hp. auto.
Qed.

End Output_name_facts.

(** The answer for [dumps/orders.sql] names [orders-utf8.sql]. *)
Lemma answer_names_the_converted_file_witness :
  let decoder := IconvLite.decode IconvLite.latin1_high in
  let data := {| filePath := Some (js "dumps/orders.sql");
                 fileContent := Some (js "U0VMRUNUIDE7");
                 sourceEncoding := Some "latin1"%string |} in
  outcome (convertToUtf8 decoder IconvLite.ascii_toUpperCase data)
  = inr (response_of (js "dumps/orders.sql") "latin1" (js "SELECT 1;")) /\
  exists dir stem,
    js "dumps/orders.sql" = dir ++ stem ++ js ".sql" /\
    convertedPath (response_of (js "dumps/orders.sql") "latin1" (js "SELECT 1;"))
    = match stem with
      | [] => js ".sql-utf8"
      | _ :: _ => stem ++ js "-utf8.sql"
      end.
Proof.
  intros decoder data.
  assert (Hr : outcome (convertToUtf8 decoder IconvLite.ascii_toUpperCase data)
               = inr (response_of (js "dumps/orders.sql") "latin1" (js "SELECT 1;")))
    by reflexivity.
  split; [exact Hr |].
  destruct (answer_names_the_converted_file decoder IconvLite.ascii_toUpperCase data _ Hr)
    as (dir & stem & _ & Hp & _ & _ & Hc).
  exists dir, stem. split; [exact Hp | exact Hc].
Defined.

(** ** The name and the conversion *)

Section Name_facts.

Variable iconv_decode : Buffer -> string -> decode_result.
Variable toUpperCase : jsstring -> jsstring.

Lemma decode_calls_info (entry : info_entry) (t : list event) :
  decode_calls (loggerService_info entry :: t) = decode_calls t.
Proof. reflexivity. Qed.

Lemma attempts_info (entry : info_entry) (t : list event) :
  attempts (loggerService_info entry :: t) = attempts t.
Proof. reflexivity. Qed.

(** X14: The name of the file has no part in the conversion: two requests that
    pass the checks with the same content and the same encoding field,
    under whatever names, make the same calls of the decoder, score the
    same candidates, and end alike, with the same encoding and the same
    converted content or with the same error. *)
Theorem conversion_ignores_the_name
    (data1 data2 : request) (path1 path2 content : jsstring) :
  accepted data1 path1 content -> accepted data2 path2 content ->
  sourceEncoding data1 = sourceEncoding data2 ->
  decode_calls (events (convertToUtf8 iconv_decode toUpperCase data1))
  = decode_calls (events (convertToUtf8 iconv_decode toUpperCase data2)) /\
  attempts (events (convertToUtf8 iconv_decode toUpperCase data1))
  = attempts (events (convertToUtf8 iconv_decode toUpperCase data2)) /\
  match outcome (convertToUtf8 iconv_decode toUpperCase data1),
        outcome (convertToUtf8 iconv_decode toUpperCase data2) with
  | inr r1, inr r2 =>
      convertedContent r1 = convertedContent r2 /\
      response_sourceEncoding r1 = response_sourceEncoding r2
  | inl e1, inl e2 => e1 = e2
  | _, _ => False
  end.
Proof.
  intros Hacc1 Hacc2 Hsame.
  assert (Hcases : no_hint data1 \/ exists h, sourceEncoding data1 = Some h /\ h <> ""%string).
  { unfold no_hint. destruct (sourceEncoding data1) as [h |]; [| now left; left].
    destruct (String.eqb_spec h "") as [-> | Hne]; [now left; right |].
    right. now exists h. }
  destruct Hcases as [Hno1 | (h & Hh1 & Hne)].
  - assert (Hno2 : no_hint data2) by (unfold no_hint in *; now rewrite <- Hsame).
    rewrite (convertToUtf8_detect iconv_decode toUpperCase data1 path1 content Hacc1 Hno1).
    rewrite (convertToUtf8_detect iconv_decode toUpperCase data2 path2 content Hacc2 Hno2).
    cbn zeta. unfold outcome, events. cbn [fst snd].
    rewrite !decode_calls_info, !attempts_info.
    rewrite !events_app_decode_calls, !events_app_attempts.
    rewrite !decode_calls_info, !attempts_info.
    rewrite !finish_decode_calls, !finish_attempts.
    split; [reflexivity |]. split; [reflexivity |].
    generalize (fst (best_of iconv_decode toUpperCase (Base64.decode content))).
    intros e. unfold finish.
    destruct (iconv_decode (Base64.decode content) e); cbn [fst]; [split |]; reflexivity.
  - assert (Hh2 : sourceEncoding data2 = Some h) by now rewrite <- Hsame.
    rewrite (convertToUtf8_hint iconv_decode toUpperCase data1 path1 content h Hacc1 Hh1 Hne).
    rewrite (convertToUtf8_hint iconv_decode toUpperCase data2 path2 content h Hacc2 Hh2 Hne).
    unfold outcome, events. cbn [fst snd].
    rewrite !decode_calls_info, !attempts_info.
    rewrite !finish_decode_calls, !finish_attempts.
    split; [reflexivity |]. split; [reflexivity |]. unfold finish.
    destruct (iconv_decode (Base64.decode content) h); cbn [fst]; [split |]; reflexivity.
Qed.

End Name_facts.

(** The bytes of [SELECT 1;] sent as [orders.sql] and as
    [dumps/old.v2.sql]. *)
Lemma conversion_ignores_the_name_witness :
  let decoder := IconvLite.decode IconvLite.latin1_high in
  let data1 := {| filePath := Some (js "orders.sql"); fileContent := Some (js "U0VMRUNUIDE7");
                  sourceEncoding := Some "latin1"%string |} in
  let data2 := {| filePath := Some (js "dumps/old.v2.sql");
                  fileContent := Some (js "U0VMRUNUIDE7");
                  sourceEncoding := Some "latin1"%string |} in
  accepted data1 (js "orders.sql") (js "U0VMRUNUIDE7") /\
  accepted data2 (js "dumps/old.v2.sql") (js "U0VMRUNUIDE7") /\
  decode_calls (events (convertToUtf8 decoder IconvLite.ascii_toUpperCase data1))
  = decode_calls (events (convertToUtf8 decoder IconvLite.ascii_toUpperCase data2)).
Proof.
  intros decoder data1 data2.
  assert (H1 : accepted data1 (js "orders.sql") (js "U0VMRUNUIDE7"))
    by (repeat split; discriminate || reflexivity).
  assert (H2 : accepted data2 (js "dumps/old.v2.sql") (js "U0VMRUNUIDE7"))
    by (repeat split; discriminate || reflexivity).
  split; [exact H1 |]. split; [exact H2 |].
  destruct (conversion_ignores_the_name decoder IconvLite.ascii_toUpperCase data1 data2
              _ _ _ H1 H2 eq_refl) as [H _].
  exact H.
Defined.

(** * The compiled build *)

Section Compiled_facts.

Variable iconv_decode : Buffer -> string -> decode_result.
Variable toUpperCase : jsstring -> jsstring.

Lemma map_as_source_event_same (t : list event) :
  map as_source_event (map Compiled.same t) = t.
Proof. rewrite map_map. cbn [as_source_event]. apply map_id. Qed.

(** The compiled build and the source handler, on the same request. *)
Lemma compiled_run (data : Compiled.request) (n : jsstring) :
  Compiled.fileName data = Some n -> n <> [] ->
  fst (Compiled.convertToUtf8 iconv_decode toUpperCase data)
  = match outcome (convertToUtf8 iconv_decode toUpperCase (as_source data)) with
    | inl e => inl e
    | inr r => inr (as_compiled r)
    end /\
  map as_source_event (snd (Compiled.convertToUtf8 iconv_decode toUpperCase data))
  = events (convertToUtf8 iconv_decode toUpperCase (as_source data)) /\
  forall n' h len,
    In (Compiled.Starting n' h len)
       (snd (Compiled.convertToUtf8 iconv_decode toUpperCase data)) ->
    exists c, Compiled.fileContent data = Some c /\ len = String_length c /\ n' = n.
Proof.
  intros Hn Hne. unfold Compiled.convertToUtf8, convertToUtf8, as_source, outcome, events.
  cbn [filePath fileContent sourceEncoding]. rewrite Hn.
  destruct n as [| n0 n]; [contradiction |].
  destruct (Compiled.fileContent data) as [[| c0 c] |];
    try (cbn; repeat split; intros n' h len [H | []]; discriminate H).
  destruct (endsWith (n0 :: n) (js ".sql"));
    [| cbn; repeat split; intros n' h len [H | []]; discriminate H].
  cbn [negb].
  destruct (Compiled.sourceEncoding data) as [h |]; [destruct (String.eqb h "") |].
  all: unfold Compiled.bind, Compiled.emit, Compiled.ret, Compiled.lift, Compiled.try_catch,
         Compiled.throw, bind, emit, ret, try_catch, throw, iconv_decode_M.
  all: try match goal with
       | |- context [detect ?i ?u ?b] =>
           destruct (detect i u b) as [[e | best] t]; [destruct e |]
       end.
  all: cbn [fst snd app map].
  all: try match goal with
       | |- context [iconv_decode ?b ?e] => destruct (iconv_decode b e) as [text | m]
       end.
  all: repeat (unfold bind, emit, ret, try_catch, throw;
               cbn [fst snd app map as_source_event exn_message]).
  all: rewrite ?app_nil_r.
  all: rewrite ?map_app, ?map_as_source_event_same.
  all: cbn [fst snd app map as_source_event exn_message].
  all: rewrite <- ?app_assoc.
  all: cbn [fst snd app map as_source_event exn_message].
  all: split; [reflexivity | split; [reflexivity |]].
  all: intros n' h' len Hin.
  all: repeat match goal with
       | H : In _ (_ :: _) |- _ => destruct H as [H | H]
       | H : In _ (_ ++ _) |- _ => apply in_app_or in H; destruct H as [H | H]
       | H : In _ (map Compiled.same _) |- _ =>
           apply in_map_iff in H; destruct H as (? & H & _)
       | H : In _ [] |- _ => destruct H
       | H : Compiled.same _ = Compiled.Starting _ _ _ |- _ => discriminate H
       | H : Compiled.Starting _ _ _ = Compiled.Starting _ _ _ |- _ =>
           injection H as <- <- <-; eexists; repeat split
       end.
Qed.

(** X15: The build that is deployed behaves as the source handler does, with
    [fileName] for [filePath]: a request without a file name is refused
    with the message of this build; for any other request the outcome is
    that of the source handler on the same fields, an answer having its
    fields renamed, and the log is the same but for the length of the
    content, which the first entry adds. *)
Theorem compiled_build_agrees_with_the_source (data : Compiled.request) :
  (missing (Compiled.fileName data) ->
   Compiled.convertToUtf8 iconv_decode toUpperCase data
   = (inl (HttpsError invalid_argument "File name is required"),
      [Compiled.same (loggerService_error "File name is required")])) /\
  (forall n, Compiled.fileName data = Some n -> n <> [] ->
     fst (Compiled.convertToUtf8 iconv_decode toUpperCase data)
     = match outcome (convertToUtf8 iconv_decode toUpperCase (as_source data)) with
       | inl e => inl e
       | inr r => inr (as_compiled r)
       end /\
     map as_source_event (snd (Compiled.convertToUtf8 iconv_decode toUpperCase data))
     = events (convertToUtf8 iconv_decode toUpperCase (as_source data)) /\
     forall n' h len,
       In (Compiled.Starting n' h len)
          (snd (Compiled.convertToUtf8 iconv_decode toUpperCase data)) ->
       exists c, Compiled.fileContent data = Some c /\ len = String_length c /\ n' = n).
Proof.
  split.
  - unfold Compiled.convertToUtf8. intros [-> | ->]; reflexivity.
  - intros n Hn Hne. exact (compiled_run data n Hn Hne).
Qed.

End Compiled_facts.

(** The two handlers on [orders.sql] with the bytes of [SELECT 1;]. *)
Lemma compiled_build_agrees_with_the_source_witness :
  let decoder := IconvLite.decode IconvLite.latin1_high in
  let data := {| Compiled.fileName := Some (js "orders.sql");
                 Compiled.fileContent := Some (js "U0VMRUNUIDE7");
                 Compiled.sourceEncoding := Some "latin1"%string |} in
  fst (Compiled.convertToUtf8 decoder IconvLite.ascii_toUpperCase data)
  = inr (as_compiled (response_of (js "orders.sql") "latin1" (js "SELECT 1;"))) /\
  map as_source_event (snd (Compiled.convertToUtf8 decoder IconvLite.ascii_toUpperCase data))
  = events (convertToUtf8 decoder IconvLite.ascii_toUpperCase (as_source data)).
Proof.
  intros decoder data.
  destruct (compiled_build_agrees_with_the_source decoder IconvLite.ascii_toUpperCase data)
    as [_ H].
  destruct (H (js "orders.sql") eq_refl ltac:(discriminate)) as (Hout & Hev & _).
  split; [| exact Hev]. rewrite Hout. reflexivity.
Defined.

(** * The client *)

(** ** The browser's base64 *)

Lemma Uint8Array_bytes (b : list Byte.byte) : Forall is_byte (App.Uint8Array b).
Proof.
  unfold App.Uint8Array. apply Forall_forall. intros x Hin.
  apply in_map_iff in Hin. destruct Hin as (y & <- & _).
  pose proof (Byte.to_N_bounded y). unfold is_byte. lia.
Qed.

Lemma String_fromCharCode_bytes (bs : list Z) :
  Forall is_byte bs -> Browser.String_fromCharCode bs = bs.
Proof.
  unfold Browser.String_fromCharCode, is_byte. intros Hb.
  rewrite <- (map_id bs) at 2. apply map_ext_in. intros c Hin.
  rewrite Forall_forall in Hb. apply Z.mod_small. specialize (Hb c Hin). lia.
Qed.

Lemma btoa_bytes (bs : list Z) :
  Forall is_byte bs -> Browser.btoa bs = Some (Base64.encode bs).
Proof.
  unfold Browser.btoa, is_byte. intros Hb.
  assert (H : forallb (fun c => c <=? 255) bs = true).
  { apply forallb_forall. intros c Hin. rewrite Forall_forall in Hb.
    apply Z.leb_le. specialize (Hb c Hin). lia. }
  now rewrite H.
Qed.

Lemma browser_char_value (v : Z) :
  0 <= v < 64 ->
  (Base64.base64_char v =? 61) = false /\
  Browser.is_ascii_whitespace (Base64.base64_char v) = false /\
  Browser.value (Base64.base64_char v) = Some v.
Proof.
  intros Hv. unfold Base64.base64_char, Browser.is_ascii_whitespace, Browser.value.
  destruct (Z.ltb_spec v 26); [| destruct (Z.ltb_spec v 52); [| destruct (Z.ltb_spec v 62);
    [| destruct (Z.eqb_spec v 62) as [-> | ?]; [repeat split |
       assert (v = 63) as -> by lia; repeat split]]]].
  all: repeat match goal with
       | |- context [?a =? ?b] => destruct (Z.eqb_spec a b); [lia |]
       | |- context [?a <=? ?b] => destruct (Z.leb_spec a b)
       end; cbn [andb orb]; repeat split; try lia; f_equal; lia.
Qed.

Lemma values_chars (vs : list Z) :
  Forall (fun v => 0 <= v < 64) vs ->
  Browser.values (map Base64.base64_char vs) = Some vs.
Proof.
  induction 1 as [| v vs Hv _ IH]; [reflexivity |].
  cbn [map Browser.values]. destruct (browser_char_value v Hv) as (_ & _ & ->).
  now rewrite IH.
Qed.

Lemma filter_all {A} (f : A -> bool) (l : list A) :
  (forall x, In x l -> f x = true) -> filter f l = l.
Proof.
  induction l as [| x l IH]; intros H; [reflexivity |]. cbn [filter].
  rewrite (H x (or_introl eq_refl)). f_equal. apply IH. intros y Hy. apply H. now right.
Qed.

(** What [toString('base64')] writes: the characters of some six-bit
    values, a multiple of four with the padding that follows. *)
Lemma encode_shape_bounded (n : nat) (bs : Buffer) :
  (length bs <= n)%nat -> Forall is_byte bs ->
  exists vs pad k,
    Base64.encode bs = map Base64.base64_char vs ++ pad /\
    Forall (fun v => 0 <= v < 64) vs /\
    Base64.bytes vs = bs /\
    ((pad = [] /\ length vs = (4 * k)%nat) \/
     (pad = [61] /\ length vs = (4 * k + 3)%nat) \/
     (pad = [61; 61] /\ length vs = (4 * k + 2)%nat)).
Proof.
  unfold is_byte. revert bs. induction n as [| n IH]; intros bs Hlen Hb.
  - destruct bs; [| cbn [length] in Hlen; lia].
    exists [], [], 0%nat. repeat split; auto.
  - destruct bs as [| x [| y [| z rest]]].
    + exists [], [], 0%nat. repeat split; auto.
    + apply Forall_inv in Hb.
      exists [x / 4; (x mod 4) * 16], [61; 61], 0%nat. cbn [Base64.encode map app].
      split; [reflexivity |]. split; [| split; [| right; right; split; reflexivity]].
      * repeat constructor; Z.div_mod_to_equations; lia.
      * cbn [Base64.bytes]. f_equal. Z.div_mod_to_equations; lia.
    + pose proof (Forall_inv Hb) as Hx. pose proof (Forall_inv (Forall_inv_tail Hb)) as Hy.
      cbn beta in Hx, Hy.
      exists [x / 4; (x mod 4) * 16 + y / 16; (y mod 16) * 4], [61], 0%nat.
      cbn [Base64.encode map app].
      split; [reflexivity |]. split; [| split; [| right; left; split; reflexivity]].
      * repeat constructor; Z.div_mod_to_equations; lia.
      * cbn [Base64.bytes]. f_equal; [| f_equal]; Z.div_mod_to_equations; lia.
    + pose proof (Forall_inv Hb) as Hx. pose proof (Forall_inv (Forall_inv_tail Hb)) as Hy.
      pose proof (Forall_inv (Forall_inv_tail (Forall_inv_tail Hb))) as Hz.
      pose proof (Forall_inv_tail (Forall_inv_tail (Forall_inv_tail Hb))) as Hrest.
      cbn beta in Hx, Hy, Hz.
      destruct (IH rest) as (vs & pad & k & Henc & Hvs & Hbytes & Hpad);
        [cbn [length] in Hlen; lia | exact Hrest |].
      exists (x / 4 :: (x mod 4) * 16 + y / 16 :: (y mod 16) * 4 + z / 64 :: z mod 64 :: vs),
        pad, (S k).
      cbn [Base64.encode map app]. rewrite Henc.
      split; [reflexivity |]. split; [| split].
      * repeat (apply Forall_cons; [Z.div_mod_to_equations; lia |]). exact Hvs.
      * cbn [Base64.bytes]. rewrite Hbytes.
        f_equal; [| f_equal; [| f_equal]]; Z.div_mod_to_equations; lia.
      * cbn [length].
        destruct Hpad as [[-> ->] | [[-> ->] | [-> ->]]];
          [left | right; left | right; right]; split; try reflexivity; lia.
Qed.

Lemma last_char_of_values (vs : list Z) :
  Forall (fun v => 0 <= v < 64) vs -> vs <> [] ->
  exists c r, rev (map Base64.base64_char vs) = c :: r /\ (c =? 61) = false.
Proof.
  intros Hvs Hne. rewrite <- map_rev.
  destruct (rev vs) as [| v r] eqn:Hrev.
  - apply (f_equal (@rev Z)) in Hrev. rewrite rev_involutive in Hrev. contradiction.
  - exists (Base64.base64_char v), (map Base64.base64_char r). split; [reflexivity |].
    apply browser_char_value. rewrite Forall_forall in Hvs. apply Hvs.
    apply in_rev. rewrite Hrev. now left.
Qed.

(** What [toString('base64')] writes, [atob] reads back. *)
Lemma atob_encode (bs : Buffer) :
  Forall is_byte bs -> Browser.atob (Base64.encode bs) = Some bs.
Proof.
  intros Hb.
  destruct (encode_shape_bounded (length bs) bs (le_n _) Hb)
    as (vs & pad & k & -> & Hvs & Hbytes & Hpad).
  set (body := map Base64.base64_char vs).
  assert (Hbody : length body = length vs) by apply length_map.
  assert (Hws : forall c, In c (body ++ pad) ->
                  negb (Browser.is_ascii_whitespace c) = true).
  { intros c Hin. apply in_app_or in Hin. destruct Hin as [Hin | Hin].
    - apply in_map_iff in Hin. destruct Hin as (v & <- & Hv).
      rewrite Forall_forall in Hvs.
      now destruct (browser_char_value v (Hvs v Hv)) as (_ & -> & _).
    - destruct Hpad as [[-> _] | [[-> _] | [-> _]]]; cbn in Hin;
        intuition (subst; reflexivity). }
  unfold Browser.atob. cbn zeta. rewrite (filter_all _ _ Hws).
  assert (Hrm : Browser.remove_padding (body ++ pad) = body).
  { unfold Browser.remove_padding. rewrite length_app, Hbody, rev_app_distr.
    destruct Hpad as [[-> Hl] | [[-> Hl] | [-> Hl]]]; rewrite Hl; cbn [length].
    - replace (Z.of_nat (4 * k + 0) mod 4 =? 0) with true
        by (symmetry; apply Z.eqb_eq; Z.div_mod_to_equations; lia).
      cbn [rev app]. rewrite app_nil_r.
      destruct vs as [| v0 vs0]; [reflexivity |].
      destruct (last_char_of_values (v0 :: vs0) Hvs ltac:(discriminate))
        as (c & r & Hrev & Hc).
      fold body in Hrev. rewrite Hrev.
      destruct r as [| c2 r]; [reflexivity |]. now rewrite Hc.
    - replace (Z.of_nat (4 * k + 3 + 1) mod 4 =? 0) with true
        by (symmetry; apply Z.eqb_eq; Z.div_mod_to_equations; lia).
      cbn [rev app].
      destruct vs as [| v0 vs0]; [cbn [length] in Hl; lia |].
      destruct (last_char_of_values (v0 :: vs0) Hvs ltac:(discriminate))
        as (c & r & Hrev & Hc).
      fold body in Hrev. rewrite Hrev. rewrite Hc. cbn [Z.eqb Pos.eqb andb].
      change (rev r ++ [c]) with (rev (c :: r)).
      rewrite <- Hrev. apply rev_involutive.
    - replace (Z.of_nat (4 * k + 2 + 2) mod 4 =? 0) with true
        by (symmetry; apply Z.eqb_eq; Z.div_mod_to_equations; lia).
      cbn [rev app Z.eqb Pos.eqb andb]. apply rev_involutive. }
  rewrite Hrm, Hbody.
  assert (Hmod : (Z.of_nat (length vs) mod 4 =? 1) = false).
  { apply Z.eqb_neq. destruct Hpad as [[_ Hl] | [[_ Hl] | [_ Hl]]]; rewrite Hl;
      Z.div_mod_to_equations; lia. }
  rewrite Hmod. unfold body. rewrite (values_chars vs Hvs). now rewrite Hbytes.
Qed.

(** ** The states of the page *)

Section App_runs.

Variable max_arguments : nat.
Variable RangeError_message : string.
Variable InvalidCharacterError_message : string.
Variable callable : Compiled.request -> App.thrown + Compiled.response.

Local Abbreviation conversion :=
  (App.conversion max_arguments RangeError_message InvalidCharacterError_message callable).
Local Abbreviation step :=
  (App.step max_arguments RangeError_message InvalidCharacterError_message callable).
Local Abbreviation run :=
  (App.run max_arguments RangeError_message InvalidCharacterError_message callable).

(** What every event of the page keeps. *)
Local Abbreviation kept a :=
  ((forall f, App.file (App.ui a) = Some f -> endsWith (App.name f) (js ".sql") = true) /\
   (forall f, App.pending a = Some f -> endsWith (App.name f) (js ".sql") = true) /\
   (App.isConverting (App.ui a) = true <-> App.pending a <> None) /\
   (forall r, App.result (App.ui a) = Some r ->
      exists f, endsWith (App.name f) (js ".sql") = true /\ conversion f = inr r)).

Lemma handleFileSelect_kept (g : App.File) (a : App.app) :
  kept a -> kept {| App.ui := App.handleFileSelect g (App.ui a); App.pending := App.pending a |}.
Proof.
  intros (Hf & Hp & Hc & Hr). unfold App.handleFileSelect.
  destruct (endsWith (App.name g) (js ".sql")) eqn:Hsql; cbn.
  - repeat split; auto; try apply Hc.
    + intros f [= <-]. exact Hsql.
    + intros r [=].
  - repeat split; auto; apply Hc.
Qed.

Lemma step_kept (a : App.app) (act : App.action) : kept a -> kept (step a act).
Proof.
  intros Hk. pose proof Hk as (Hf & Hp & Hc & Hr).
  destruct act as [files | | | files | | | |]; cbn [App.step].
  - unfold App.handleFileInput. destruct files as [[| g files] |];
      [destruct a; exact Hk | | destruct a; exact Hk].
    now apply handleFileSelect_kept.
  - exact Hk.
  - exact Hk.
  - unfold App.handleDrop. cbn zeta.
    assert (Hk' : kept {| App.ui := App.setIsDragOver false (App.ui a);
                          App.pending := App.pending a |}) by exact Hk.
    destruct files as [| g files]; [exact Hk' |].
    apply (handleFileSelect_kept g _ Hk').
  - cbn. repeat split; auto; try apply Hc. intros f [=].
  - remember (App.file (App.ui a)) as o eqn:Hfile in |- *.
    destruct o as [f |]; [| exact Hk].
    remember (App.isConverting (App.ui a)) as c eqn:Hconv in |- *.
    destruct c; [exact Hk |].
    unfold App.convertFile_starts. rewrite <- Hfile. cbn. repeat split; auto.
    + intros f' [= <-]. now apply Hf.
    + discriminate.
    + intros r [=].
  - remember (App.pending a) as o eqn:Hpend in |- *.
    destruct o as [f |]; [| exact Hk]. symmetry in Hpend.
    unfold App.convertFile_settles.
    destruct (conversion f) as [[m |] | r] eqn:Hconv; cbn; repeat split; auto;
      try discriminate; try (intros H; now contradiction H).
    intros r' [= <-]. exists f. split; [now apply Hp | exact Hconv].
  - unfold App.downloadConvertedFile.
    remember (App.result (App.ui a)) as o eqn:Hres in |- *.
    destruct o as [r |]; cbn [fst]; [| exact Hk].
    destruct (Compiled.convertedContent r); cbn [fst]; [exact Hk |].
    destruct (Browser.atob _); cbn [fst]; exact Hk.
Qed.

Lemma run_kept (acts : list App.action) : kept (run acts).
Proof.
  induction acts as [| act acts IH] using rev_ind.
  - cbn. repeat split; try discriminate. intros H. now contradiction H.
  - unfold App.run. rewrite fold_left_app. cbn [fold_left]. apply step_kept. exact IH.
Qed.

(** X16: The page only ever holds, sends and shows the result of files whose
    name ends in [.sql]: whatever the events of the page, the file held
    and the file of a conversion in flight have such a name; a conversion
    is in flight exactly while [isConverting] is set; and a result shown
    is what the conversion of such a file settled with. *)
Theorem page_holds_sql_files_only (acts : list App.action) :
  let a := App.run max_arguments RangeError_message InvalidCharacterError_message
             callable acts in
  (forall f, App.file (App.ui a) = Some f -> endsWith (App.name f) (js ".sql") = true) /\
  (forall f, App.pending a = Some f -> endsWith (App.name f) (js ".sql") = true) /\
  (App.isConverting (App.ui a) = true <-> App.pending a <> None) /\
  (forall r, App.result (App.ui a) = Some r ->
     exists f, endsWith (App.name f) (js ".sql") = true /\
               App.conversion max_arguments RangeError_message
                 InvalidCharacterError_message callable f = inr r).
Proof.
  cbn zeta. induction acts as [| act acts IH] using rev_ind.
  - cbn. repeat split; try discriminate. intros H. now contradiction H.
  - unfold App.run. rewrite fold_left_app. cbn [fold_left].
    apply step_kept. exact IH.
Qed.

End App_runs.

(** The page after a [.txt] file is dropped and a [.sql] file chosen. *)
Lemma page_holds_sql_files_only_witness :
  let f := {| App.name := js "orders.sql";
              App.arrayBuffer := list_byte_of_string "SELECT 1;" |} in
  let g := {| App.name := js "notes.txt"; App.arrayBuffer := [] |} in
  let a := App.run 1000 "Maximum call stack size exceeded" "Invalid character"
             (fun _ => inl App.another_value)
             [App.Drop [g]; App.FileInput (Some [f]); App.ConvertClick] in
  App.file (App.ui a) = Some f /\
  App.pending a = Some f /\
  App.isConverting (App.ui a) = true /\
  endsWith (App.name f) (js ".sql") = true.
Proof.
  intros f g a.
  destruct (page_holds_sql_files_only 1000 "Maximum call stack size exceeded"
              "Invalid character" (fun _ => inl App.another_value)
              [App.Drop [g]; App.FileInput (Some [f]); App.ConvertClick])
    as (Hf & _ & Hc & _).
  assert (Hfile : App.file (App.ui a) = Some f) by reflexivity.
  assert (Hpend : App.pending a = Some f) by reflexivity.
  split; [exact Hfile |]. split; [exact Hpend |]. split.
  - apply Hc. fold a. rewrite Hpend. discriminate.
  - exact (Hf f Hfile).
Defined.

(** ** The conversion, from the client to the handler and back *)

Section App_facts.

Variable iconv_decode : Buffer -> string -> decode_result.
Variable toUpperCase : jsstring -> jsstring.
Variable max_arguments : nat.
Variable RangeError_message : string.
Variable InvalidCharacterError_message : string.

Local Abbreviation base64Content :=
  (App.base64Content max_arguments RangeError_message InvalidCharacterError_message).
Local Abbreviation bytes_of f := (App.Uint8Array (App.arrayBuffer f)).

Lemma base64Content_within (f : App.File) :
  (length (App.arrayBuffer f) <= max_arguments)%nat ->
  base64Content f = inr (Base64.encode (bytes_of f)).
Proof.
  intros Hlen. unfold App.base64Content, App.spread_fromCharCode.
  assert (Hl : length (bytes_of f) = length (App.arrayBuffer f)) by apply length_map.
  rewrite Hl. destruct (Nat.leb_spec (length (App.arrayBuffer f)) max_arguments); [| lia].
  rewrite String_fromCharCode_bytes by apply Uint8Array_bytes.
  now rewrite btoa_bytes by apply Uint8Array_bytes.
Qed.

Lemma base64Content_beyond (f : App.File) :
  (max_arguments < length (App.arrayBuffer f))%nat ->
  base64Content f = inl (App.an_Error RangeError_message).
Proof.
  intros Hlen. unfold App.base64Content, App.spread_fromCharCode.
  assert (Hl : length (bytes_of f) = length (App.arrayBuffer f)) by apply length_map.
  rewrite Hl. destruct (Nat.leb_spec (length (App.arrayBuffer f)) max_arguments); [lia |].
  reflexivity.
Qed.

Lemma sql_name_not_empty (n : jsstring) : endsWith n (js ".sql") = true -> n <> [].
Proof. intros H ->. discriminate H. Qed.

(** The compiled build on a request with a [.sql] name, a content and no
    encoding: the answer for the encoding detected, or the error of the
    last decoding. *)
Lemma served_detects (n content : jsstring) :
  endsWith n (js ".sql") = true -> content <> [] ->
  let buffer := Base64.decode content in
  let e := fst (best_of iconv_decode toUpperCase buffer) in
  App.served iconv_decode toUpperCase
    {| Compiled.fileName := Some n; Compiled.fileContent := Some content;
       Compiled.sourceEncoding := None |}
  = match iconv_decode buffer e with
    | Decoded text => inr (as_compiled (response_of n e text))
    | Throws m => inl (App.an_Error ("Failed to convert file to UTF-8: " ++ m)%string)
    end.
Proof.
  intros Hsql Hc buffer e. unfold App.served.
  set (data := {| Compiled.fileName := Some n; Compiled.fileContent := Some content;
                  Compiled.sourceEncoding := None |}).
  destruct (compiled_run iconv_decode toUpperCase data n eq_refl (sql_name_not_empty n Hsql))
    as (-> & _ & _).
  assert (Hacc : accepted (as_source data) n content).
  { repeat split; auto. now apply sql_name_not_empty. }
  assert (Hno : no_hint (as_source data)) by (now left).
  rewrite (convertToUtf8_detect iconv_decode toUpperCase (as_source data) n content Hacc Hno).
  cbn zeta. unfold outcome. cbn [fst]. fold buffer. fold e. unfold finish.
  destruct (iconv_decode buffer e); reflexivity.
Qed.

Local Abbreviation conversion :=
  (App.conversion max_arguments RangeError_message InvalidCharacterError_message).

Lemma conversion_of_empty_file (f : App.File) :
  endsWith (App.name f) (js ".sql") = true ->
  (length (App.arrayBuffer f) <= max_arguments)%nat ->
  App.arrayBuffer f = [] ->
  conversion (App.served iconv_decode toUpperCase) f
  = inl (App.an_Error "File content is required").
Proof.
  intros Hsql Hlen Hempty. unfold App.conversion.
  rewrite (base64Content_within f Hlen), Hempty.
  pose proof (sql_name_not_empty _ Hsql) as Hn.
  unfold App.served, Compiled.convertToUtf8, App.payload.
  cbn [Compiled.fileName Compiled.fileContent].
  destruct (App.name f); [contradiction | reflexivity].
Qed.

Lemma conversion_of_file (f : App.File) :
  endsWith (App.name f) (js ".sql") = true ->
  (length (App.arrayBuffer f) <= max_arguments)%nat ->
  App.arrayBuffer f <> [] ->
  conversion (App.served iconv_decode toUpperCase) f
  = match iconv_decode (bytes_of f)
            (fst (best_of iconv_decode toUpperCase (bytes_of f))) with
    | Decoded text =>
        inr (as_compiled
               (response_of (App.name f)
                  (fst (best_of iconv_decode toUpperCase (bytes_of f))) text))
    | Throws m =>
        inl (App.an_Error ("Failed to convert file to UTF-8: " ++ m)%string)
    end.
Proof.
  intros Hsql Hlen Hne.
  assert (Hc : Base64.encode (bytes_of f) <> []).
  { intros H. apply Base64_encode_nil in H. apply Hne.
    destruct (App.arrayBuffer f); [reflexivity | discriminate H]. }
  unfold App.conversion. rewrite (base64Content_within f Hlen). unfold App.payload.
  rewrite (served_detects (App.name f) _ Hsql Hc). cbn zeta.
  now rewrite (Base64_decode_encode (bytes_of f) (Uint8Array_bytes _)).
Qed.

Lemma conversion_beyond (f : App.File) callable :
  (max_arguments < length (App.arrayBuffer f))%nat ->
  conversion callable f = inl (App.an_Error RangeError_message).
Proof.
  intros Hlen. unfold App.conversion. now rewrite (base64Content_beyond f Hlen).
Qed.

(** X17: What [convertFile] sends and gets.  Within the engine's bound on
    arguments, the content sent is the base64 form of the bytes of the
    file, and the handler decodes it to exactly those bytes.  An empty
    file is refused ([File content is required]); for any other file
    with a [.sql] name the handler tries the catalog on the bytes of the
    file and the conversion settles with the answer for the encoding
    detected, or with the error of the last decoding.  Beyond the bound,
    nothing is sent and the conversion settles with the engine's
    [RangeError]. *)
Theorem upload_reaches_the_handler_intact (f : App.File) :
  endsWith (App.name f) (js ".sql") = true ->
  ((length (App.arrayBuffer f) <= max_arguments)%nat ->
   base64Content f = inr (Base64.encode (bytes_of f)) /\
   Base64.decode (Base64.encode (bytes_of f)) = bytes_of f /\
   (App.arrayBuffer f = [] ->
    App.conversion max_arguments RangeError_message InvalidCharacterError_message
      (App.served iconv_decode toUpperCase) f
    = inl (App.an_Error "File content is required")) /\
   (App.arrayBuffer f <> [] ->
    decode_calls
      (map as_source_event
         (snd (Compiled.convertToUtf8 iconv_decode toUpperCase
                 (App.payload f (Base64.encode (bytes_of f))))))
    = map (fun e => (bytes_of f, e)) encodingsToTry
      ++ [(bytes_of f, fst (best_of iconv_decode toUpperCase (bytes_of f)))] /\
    App.conversion max_arguments RangeError_message InvalidCharacterError_message
      (App.served iconv_decode toUpperCase) f
    = match iconv_decode (bytes_of f)
              (fst (best_of iconv_decode toUpperCase (bytes_of f))) with
      | Decoded text =>
          inr (as_compiled
                 (response_of (App.name f)
                    (fst (best_of iconv_decode toUpperCase (bytes_of f))) text))
      | Throws m =>
          inl (App.an_Error ("Failed to convert file to UTF-8: " ++ m)%string)
      end)) /\
  ((max_arguments < length (App.arrayBuffer f))%nat ->
   forall callable,
     App.conversion max_arguments RangeError_message InvalidCharacterError_message
       callable f
     = inl (App.an_Error RangeError_message)).
Proof.
  intros Hsql. split.
  - intros Hlen. pose proof (base64Content_within f Hlen) as Hb64.
    pose proof (Base64_decode_encode (bytes_of f) (Uint8Array_bytes _)) as Hround.
    split; [exact Hb64 |]. split; [exact Hround |]. split.
    + now apply conversion_of_empty_file.
    + intros Hne. split; [| now apply conversion_of_file].
      destruct (compiled_run iconv_decode toUpperCase
                  (App.payload f (Base64.encode (bytes_of f))) (App.name f) eq_refl
                  (sql_name_not_empty _ Hsql)) as (_ & -> & _).
      apply (detection_decode_calls iconv_decode toUpperCase (bytes_of f) _
               (App.name f) (Base64.encode (bytes_of f))).
      * repeat split; auto; [now apply sql_name_not_empty |].
        intros H. apply Base64_encode_nil in H. apply Hne.
        destruct (App.arrayBuffer f); [reflexivity | discriminate H].
      * now left.
      * exact Hround.
  - intros Hlen callable. now apply conversion_beyond.
Qed.

(** X18: What the page shows and downloads after a conversion.  Whatever the
    events of the page, a result shown is the answer of the handler for
    a file with a [.sql] name that is not empty: it names that file, the
    encoding detected for its bytes and the output name; and a click on
    the download button hands over the UTF-8 bytes of the text decoded,
    under the output name, with no error.  When that text is empty the
    click does nothing. *)
Theorem download_is_the_converted_file (acts : list App.action) (r : Compiled.response) :
  let a := App.run max_arguments RangeError_message InvalidCharacterError_message
             (App.served iconv_decode toUpperCase) acts in
  App.result (App.ui a) = Some r ->
  exists f text,
    endsWith (App.name f) (js ".sql") = true /\
    App.arrayBuffer f <> [] /\
    Compiled.response_sourceEncoding r
    = fst (best_of iconv_decode toUpperCase (bytes_of f)) /\
    iconv_decode (bytes_of f) (Compiled.response_sourceEncoding r) = Decoded text /\
    Compiled.originalFileName r = App.name f /\
    Compiled.convertedFileName r = outputPath (App.name f) /\
    (Forall is_code_unit text ->
     App.downloadConvertedFile (App.ui a)
     = (App.ui a,
        match text with
        | [] => None
        | _ :: _ => Some {| App.download_name := Compiled.convertedFileName r;
                            App.blob := Utf8.encode text |}
        end)).
Proof.
  intros a Hres.
  destruct (run_kept max_arguments RangeError_message InvalidCharacterError_message
              (App.served iconv_decode toUpperCase) acts) as (_ & _ & _ & Hr).
  destruct (Hr r Hres) as (f & Hsql & Hconv).
  destruct (Nat.le_gt_cases (length (App.arrayBuffer f)) max_arguments) as [Hlen | Hlen];
    [| rewrite (conversion_beyond f _ Hlen) in Hconv; discriminate Hconv].
  assert (Hne : App.arrayBuffer f <> []).
  { intros Hempty. rewrite (conversion_of_empty_file f Hsql Hlen Hempty) in Hconv.
    discriminate Hconv. }
  rewrite (conversion_of_file f Hsql Hlen Hne) in Hconv.
  destruct (iconv_decode (bytes_of f)
              (fst (best_of iconv_decode toUpperCase (bytes_of f))))
    as [text | m] eqn:Hd; [| discriminate Hconv].
  injection Hconv as <-. exists f, text.
  cbn [as_compiled response_of Compiled.response_sourceEncoding
         Compiled.originalFileName Compiled.convertedFileName
         response_sourceEncoding originalPath convertedPath].
  repeat split; auto. intros Hu.
  unfold App.downloadConvertedFile. fold a. rewrite Hres.
  cbn [as_compiled response_of Compiled.convertedContent Compiled.convertedFileName
         convertedContent convertedPath].
  destruct (encode_bytes text Hu) as [Hb Hn].
  destruct text as [| c text]; [reflexivity |].
  destruct (Base64.encode (Utf8.encode (c :: text))) as [| x rest] eqn:Henc.
  { apply Base64_encode_nil in Henc. rewrite Henc in Hn. cbn [length] in Hn. lia. }
  rewrite <- Henc, (atob_encode _ Hb). do 3 f_equal.
  rewrite <- (map_id (Utf8.encode (c :: text))) at 2. apply map_ext_in.
  intros b Hin. rewrite Forall_forall in Hb. specialize (Hb b Hin).
  unfold is_byte in Hb. apply Z.mod_small. lia.
Qed.

End App_facts.

(** The file [orders.sql] holding the nine bytes of [SELECT 1;], in an
    engine that accepts 1000 arguments. *)
Lemma upload_reaches_the_handler_intact_witness :
  let decoder := IconvLite.decode IconvLite.latin1_high in
  let f := {| App.name := js "orders.sql";
              App.arrayBuffer := list_byte_of_string "SELECT 1;" |} in
  endsWith (App.name f) (js ".sql") = true /\
  App.base64Content 1000 "Maximum call stack size exceeded" "Invalid character" f
  = inr (js "U0VMRUNUIDE7") /\
  App.conversion 1000 "Maximum call stack size exceeded" "Invalid character"
    (App.served decoder IconvLite.ascii_toUpperCase) f
  = inr (as_compiled (response_of (js "orders.sql") "utf8" (js "SELECT 1;"))).
Proof.
  intros decoder f.
  destruct (upload_reaches_the_handler_intact decoder IconvLite.ascii_toUpperCase 1000
              "Maximum call stack size exceeded" "Invalid character" f eq_refl)
    as [H _].
  destruct (H ltac:(cbn; lia)) as (Hb64 & _ & _ & H2).
  destruct (H2 ltac:(discriminate)) as [_ Hconv].
  split; [reflexivity |]. split; [rewrite Hb64; reflexivity |].
  rewrite Hconv. vm_compute. reflexivity.
Defined.

(** The page after that file is chosen, converted and the conversion has
    settled. *)
Lemma download_is_the_converted_file_witness :
  let decoder := IconvLite.decode IconvLite.latin1_high in
  let f := {| App.name := js "orders.sql";
              App.arrayBuffer := list_byte_of_string "SELECT 1;" |} in
  let a := App.run 1000 "Maximum call stack size exceeded" "Invalid character"
             (App.served decoder IconvLite.ascii_toUpperCase)
             [App.FileInput (Some [f]); App.ConvertClick; App.Settle] in
  let r := as_compiled (response_of (js "orders.sql") "utf8" (js "SELECT 1;")) in
  App.result (App.ui a) = Some r /\
  App.downloadConvertedFile (App.ui a)
  = (App.ui a, Some {| App.download_name := js "orders-utf8.sql";
                       App.blob := js "SELECT 1;" |}) /\
  exists g text,
    endsWith (App.name g) (js ".sql") = true /\
    decoder (App.Uint8Array (App.arrayBuffer g)) (Compiled.response_sourceEncoding r)
    = Decoded text /\
    Compiled.originalFileName r = App.name g.
Proof.
  intros decoder f a r.
  assert (Hres : App.result (App.ui a) = Some r) by (vm_compute; reflexivity).
  split; [exact Hres |]. split; [vm_compute; reflexivity |].
  destruct (download_is_the_converted_file decoder IconvLite.ascii_toUpperCase 1000
              "Maximum call stack size exceeded" "Invalid character"
              [App.FileInput (Some [f]); App.ConvertClick; App.Settle] r Hres)
    as (g & text & Hsql & _ & _ & Hd & Hn & _).
  exists g, text. auto.
Defined.
